(** * Retrieval core of the legal RAG pipeline: a shallow embedding

    The development follows the Python sources:
    - [clean_and_chunk.py]   : [clean_text], [chunk_text_by_paragraphs],
                               [load_text] on text files, [process_file]
    - [create_embeddings.py] : [main], [build_faiss_index]
    - [vector_client.py]     : [VectorClient.__init__], [VectorClient.search]
    - [retrieval_agent.py]   : [get_client], [retrieve]
    - [llm_client.py]        : [LLMClient.__init__],
                               [_extract_system_and_user_messages], [chat_completion]
    - [response_agent.py]    : [_clean_reply_text], [_fallback_summary],
                               [build_prompt], [generate_answer]
    - [main.py]              : the [/retrieve] and [/chat] endpoints

    Python values are modelled as the interpreter has them: a [str] is a
    sequence of Unicode code points, an [int] is an unbounded integer, a
    [float] is an IEEE binary64 number, a [dict] keeps its insertion
    order, and a call either returns a value or raises. *)

From Stdlib Require Import String Ascii DecimalString PrimFloat.
From Stdlib Require DecimalPos DecimalZ.
From Stdlib Require Import List ZArith NArith Lia Bool.
Local Open Scope N_scope.
Local Open Scope Z_scope.
Local Open Scope nat_scope.
Local Open Scope list_scope.
Import ListNotations.

(** ** Python values *)

Module Py.

(** A character is a code point; a string is the list of its code points. *)
Definition char := N.
Definition str := list char.

(** ASCII literal of the source text, as a Python string. *)
Definition lit (s : string) : str := map N_of_ascii (list_ascii_of_string s).

Definition NL : char := 10%N.
Definition CR : char := 13%N.
Definition TAB : char := 9%N.
Definition SP : char := 32%N.

Fixpoint str_eqb (a b : str) : bool :=
  match a, b with
  | [], [] => true
  | x :: a', y :: b' => N.eqb x y && str_eqb a' b'
  | _, _ => false
  end.

#[local] Set Warnings "-register-all".

(** The values [json.load] produces, together with the floats the index
    hands back. *)
Inductive pyval :=
| PNone
| PBool (b : bool)
| PInt (z : Z)
| PFloat (f : float)
| PStr (s : str)
| PList (l : list pyval)
| PDict (kv : list (str * pyval)).

(** An exception object: its class name and what [str(e)] renders. *)
Record exn := MkExn { exn_class : string; exn_str : str }.

(** Outcome of a call: a value, or a raised [Exception]. *)
Inductive pyresult (A : Type) :=
| Ok (a : A)
| Raise (e : exn).
Arguments Ok {A} a.
Arguments Raise {A} e.

Definition bind {A B} (m : pyresult A) (k : A -> pyresult B) : pyresult B :=
  match m with
  | Ok a => k a
  | Raise e => Raise e
  end.

(** [try: m except Exception as e: h e] *)
Definition try_except {A} (m : pyresult A) (h : exn -> pyresult A) : pyresult A :=
  match m with
  | Ok a => Ok a
  | Raise e => h e
  end.

(** *** [str] methods *)

(** [str.isspace] on one code point: the Unicode whitespace set of CPython. *)
Definition isspace (c : char) : bool :=
  ((9 <=? c) && (c <=? 13) || (28 <=? c) && (c <=? 32) || (c =? 133) || (c =? 160)
   || (c =? 5760) || (8192 <=? c) && (c <=? 8202) || (c =? 8232) || (c =? 8233)
   || (c =? 8239) || (c =? 8287) || (c =? 12288))%N.

Fixpoint lstrip (s : str) : str :=
  match s with
  | [] => []
  | c :: s' => if isspace c then lstrip s' else s
  end.

Definition rstrip (s : str) : str := rev (lstrip (rev s)).

(** [s.strip()] *)
Definition strip (s : str) : str := rstrip (lstrip s).

(** [len(s)] as a Python int. *)
Definition len {A} (s : list A) : Z := Z.of_nat (length s).

(** [s[start:]]: a negative start counts from the end, and both ends clamp. *)
Definition slice_from {A} (s : list A) (start : Z) : list A :=
  let n := len s in
  let st := if (start <? 0)%Z then Z.max 0 (start + n) else Z.min start n in
  skipn (Z.to_nat st) s.

(** [s[:stop]] *)
Definition slice_to {A} (s : list A) (stop : Z) : list A :=
  let n := len s in
  let sp := if (stop <? 0)%Z then Z.max 0 (stop + n) else Z.min stop n in
  firstn (Z.to_nat sp) s.

Fixpoint starts_with (p s : str) : bool :=
  match p, s with
  | [], _ => true
  | x :: p', y :: s' => N.eqb x y && starts_with p' s'
  | _ :: _, [] => false
  end.

(** [s.replace(old, new)] for a non-empty [old]: occurrences are replaced
    left to right and do not overlap; [skip] counts the characters of the
    occurrence that are still to be consumed. *)
Fixpoint replace_from (old new : str) (skip : nat) (s : str) : str :=
  match s with
  | [] => []
  | c :: s' =>
      match skip with
      | S k => replace_from old new k s'
      | O => if starts_with old s
             then new ++ replace_from old new (length old - 1) s'
             else c :: replace_from old new 0 s'
      end
  end.

Definition replace (old new s : str) : str := replace_from old new 0 s.

(** [s.split(sep)] for a non-empty [sep]; [cur] is the piece being read. *)
Fixpoint split_from (sep : str) (skip : nat) (cur s : str) : list str :=
  match s with
  | [] => [cur]
  | c :: s' =>
      match skip with
      | S k => split_from sep k cur s'
      | O => if starts_with sep s
             then cur :: split_from sep (length sep - 1) [] s'
             else split_from sep 0 (cur ++ [c]) s'
      end
  end.

Definition split (sep s : str) : list str := split_from sep 0 [] s.

(** *** Built-in operations on values *)

(** Truth value of an object, as [if x], [x or y] and [not x] test it. *)
Definition truthy (v : pyval) : bool :=
  match v with
  | PNone => false
  | PBool b => b
  | PInt z => negb (z =? 0)%Z
  | PFloat f => negb (PrimFloat.eqb f 0%float)
  | PStr s => match s with [] => false | _ => true end
  | PList l => match l with [] => false | _ => true end
  | PDict kv => match kv with [] => false | _ => true end
  end.

(** [a or b] *)
Definition py_or (a b : pyval) : pyval := if truthy a then a else b.

Definition type_name (v : pyval) : string :=
  match v with
  | PNone => "NoneType"
  | PBool _ => "bool"
  | PInt _ => "int"
  | PFloat _ => "float"
  | PStr _ => "str"
  | PList _ => "list"
  | PDict _ => "dict"
  end.

(** Exceptions the interpreter itself raises. The wording of their messages
    follows CPython; no result below depends on it. *)
Definition TypeError (v : pyval) (what : string) : exn :=
  MkExn "TypeError" (lit ("'" ++ type_name v ++ "' " ++ what)).
Definition AttributeError (v : pyval) (attr : string) : exn :=
  MkExn "AttributeError"
        (lit ("'" ++ type_name v ++ "' object has no attribute '" ++ attr ++ "'")).
Definition KeyError (key : str) : exn := MkExn "KeyError" key.
Definition IndexError (what : string) : exn := MkExn "IndexError" (lit what).

Fixpoint lookup (kv : list (str * pyval)) (k : str) : option pyval :=
  match kv with
  | [] => None
  | (k', v) :: kv' => if str_eqb k' k then Some v else lookup kv' k
  end.

(** [d.get(k)]: [None] for a missing key; only a [dict] has the method. *)
Definition get (d : pyval) (k : string) : pyresult pyval :=
  match d with
  | PDict kv => Ok (match lookup kv (lit k) with Some v => v | None => PNone end)
  | _ => Raise (AttributeError d "get")
  end.

(** [d[k]] with a [str] key. *)
Definition getitem_str (d : pyval) (k : string) : pyresult pyval :=
  match d with
  | PDict kv => match lookup kv (lit k) with
                | Some v => Ok v
                | None => Raise (KeyError (lit ("'" ++ k ++ "'")))
                end
  | PStr _ | PList _ => Raise (TypeError d "indices must be integers")
  | _ => Raise (TypeError d "object is not subscriptable")
  end.

Definition decimal (z : Z) : str :=
  lit (DecimalString.NilZero.string_of_int (Z.to_int z)).

(** [x[i]] with an [int] index. *)
Definition getitem_int (x : pyval) (i : Z) : pyresult pyval :=
  match x with
  | PList l =>
      let j := if (i <? 0)%Z then (i + len l)%Z else i in
      if (j <? 0)%Z then Raise (IndexError "list index out of range")
      else match nth_error l (Z.to_nat j) with
           | Some v => Ok v
           | None => Raise (IndexError "list index out of range")
           end
  | PStr s =>
      let j := if (i <? 0)%Z then (i + len s)%Z else i in
      if (j <? 0)%Z then Raise (IndexError "string index out of range")
      else match nth_error s (Z.to_nat j) with
           | Some c => Ok (PStr [c])
           | None => Raise (IndexError "string index out of range")
           end
  | PDict _ => Raise (KeyError (decimal i))
  | _ => Raise (TypeError x "object is not subscriptable")
  end.

(** [len(x)] *)
Definition py_len (x : pyval) : pyresult Z :=
  match x with
  | PStr s => Ok (len s)
  | PList l => Ok (len l)
  | PDict kv => Ok (len kv)
  | _ => Raise (TypeError x "object has no len()")
  end.

(** [x[:stop]] *)
Definition py_slice_to (x : pyval) (stop : Z) : pyresult pyval :=
  match x with
  | PStr s => Ok (PStr (slice_to s stop))
  | PList l => Ok (PList (slice_to l stop))
  | _ => Raise (TypeError x "object is not subscriptable")
  end.

(** [for m in x]: the elements of a list, the keys of a dict, the characters
    of a string. *)
Definition iterate (x : pyval) : pyresult (list pyval) :=
  match x with
  | PList l => Ok l
  | PDict kv => Ok (map (fun p => PStr (fst p)) kv)
  | PStr s => Ok (map (fun c => PStr [c]) s)
  | _ => Raise (TypeError x "object is not iterable")
  end.

(** Run [f] over a list, stopping at the first exception. *)
Fixpoint traverse {A B} (f : A -> pyresult B) (l : list A) : pyresult (list B) :=
  match l with
  | [] => Ok []
  | a :: l' => bind (f a) (fun b => bind (traverse f l') (fun bs => Ok (b :: bs)))
  end.

(** *** Logging *)

Inductive loglevel := DEBUG | INFO | WARNING | ERROR.

(** A call [logger.<level>(fmt, *args)]. *)
Record logrec := Log { log_level : loglevel; log_fmt : string; log_args : list pyval }.

(** A computation that logs and then returns or raises. *)
Definition logged (A : Type) : Type := list logrec * pyresult A.

Definition ret {A} (a : A) : logged A := ([], Ok a).
Definition raise {A} (e : exn) : logged A := ([], Raise e).
Definition lift {A} (r : pyresult A) : logged A := ([], r).
Definition logger (l : loglevel) (fmt : string) (args : list pyval) : logged unit :=
  ([Log l fmt args], Ok tt).

Definition lbind {A B} (m : logged A) (k : A -> logged B) : logged B :=
  match m with
  | (l, Ok a) => let (l', r) := k a in (l ++ l', r)
  | (l, Raise e) => (l, Raise e)
  end.

(** [try: m except Exception as e: h e], keeping what [m] logged. *)
Definition ltry {A} (m : logged A) (h : exn -> logged A) : logged A :=
  match m with
  | (l, Ok a) => (l, Ok a)
  | (l, Raise e) => let (l', r) := h e in (l ++ l', r)
  end.

Definition exn_is (cls : string) (e : exn) : bool := String.eqb (exn_class e) cls.

(** *** Joining and numbering *)

(** [sep.join(parts)] *)
Fixpoint join (sep : str) (parts : list str) : str :=
  match parts with
  | [] => []
  | [p] => p
  | p :: rest => p ++ sep ++ join sep rest
  end.

(** [enumerate(l, start)] *)
Fixpoint enumerate {A} (start : Z) (l : list A) : list (Z * A) :=
  match l with
  | [] => []
  | a :: l' => (start, a) :: enumerate (start + 1)%Z l'
  end.

End Py.

Declare Scope py_scope.
Delimit Scope py_scope with py.
Notation "x <- m ;; k" := (Py.lbind m (fun x => k))
  (at level 61, m at next level, right associativity) : py_scope.
Notation "m ;;; k" := (Py.lbind m (fun _ => k))
  (at level 61, right associativity) : py_scope.

Import Py.

(** ** The fragment of [re] the cleaner uses *)

Module Re.

(** Number of leading characters of [s] in the class [cls]. *)
Fixpoint span (cls : char -> bool) (s : str) : nat :=
  match s with
  | c :: s' => if cls c then S (span cls s') else 0
  | [] => 0
  end.

(** Patterns of the shape [[cls]{m,}suffix]. The quantifier is greedy: it
    first takes the whole run, and gives characters back one at a time, down
    to [m], until the literal [suffix] follows. *)
Fixpoint give_back (suffix s : str) (m k : nat) : option nat :=
  if (k <? m)%nat then None
  else if starts_with suffix (skipn k s) then Some (k + length suffix)%nat
  else match k with
       | O => None
       | S k' => give_back suffix s m k'
       end.

(** Length of the match of [[cls]{m,}suffix] anchored at the head of [s]. *)
Definition match_at (cls : char -> bool) (m : nat) (suffix s : str) : option nat :=
  give_back suffix s m (span cls s).

(** [re.sub(pattern, repl, s)] for a pattern that matches no empty string:
    the leftmost match is replaced and scanning resumes after it. *)
Fixpoint sub_from (matcher : str -> option nat) (repl : str) (skip : nat) (s : str) : str :=
  match s with
  | [] => []
  | c :: s' =>
      match skip with
      | S k => sub_from matcher repl k s'
      | O => match matcher s with
             | Some (S k) => repl ++ sub_from matcher repl k s'
             | _ => c :: sub_from matcher repl 0 s'
             end
      end
  end.

Definition sub (matcher : str -> option nat) (repl s : str) : str :=
  sub_from matcher repl 0 s.

(** [[ \t]] *)
Definition blank (c : char) : bool := (c =? SP)%N || (c =? TAB)%N.
Definition is_nl (c : char) : bool := (c =? NL)%N.

End Re.

(** ** clean_and_chunk.py *)

Module CleanAndChunk.

Import Re.

Definition clean_text (text : str) : str :=
  match text with
  | [] => []
  | _ =>
      let text := replace [CR] [NL] (replace [CR; NL] [NL] text) in
      let text := sub (match_at blank 1 [NL]) [NL] text in
      let text := sub (match_at is_nl 3 []) [NL; NL] text in
      let text := sub (match_at blank 2 []) [SP] text in
      strip text
  end.

(** The loop state: the chunks sealed so far and the chunk being grown. *)
Record chunker := MkChunker { chunks : list str; current_chunk : str }.

Definition nonempty {A} (s : list A) : bool :=
  match s with [] => false | _ => true end.

(** The overlap portion of the chunk that has just been sealed. *)
Definition overlap_text (current : str) (overlap : Z) : str :=
  strip (slice_from current (len current - overlap)).

(** One iteration of [for paragraph in paragraphs]. *)
Definition chunk_step (max_chars overlap : Z) (st : chunker) (paragraph : str) : chunker :=
  let cur := current_chunk st in
  if negb (nonempty (strip paragraph)) then st
  else if (len cur + len paragraph + 2 >? max_chars)%Z && nonempty cur then
    MkChunker (chunks st ++ [strip cur])
              (overlap_text cur overlap ++ [NL; NL] ++ paragraph)
  else if nonempty cur then
    MkChunker (chunks st) (cur ++ [NL; NL] ++ paragraph)
  else
    MkChunker (chunks st) paragraph.

Definition chunk_loop (max_chars overlap : Z) (paragraphs : list str) : chunker :=
  fold_left (chunk_step max_chars overlap) paragraphs (MkChunker [] []).

Definition chunk_text_by_paragraphs (text : str) (max_chars overlap : Z) : list str :=
  match text with
  | [] => []
  | _ =>
      let paragraphs := split [NL; NL] text in
      let st := chunk_loop max_chars overlap paragraphs in
      if nonempty (strip (current_chunk st))
      then chunks st ++ [strip (current_chunk st)]
      else chunks st
  end.

End CleanAndChunk.

Import Re CleanAndChunk.

(** ** create_embeddings.py *)

Module CreateEmbeddings.

(** A two-dimensional float array, row by row. *)
Definition ndarray := list (list float).

(** [faiss.IndexFlatIP]: the dimension it was created with and the vectors
    added so far, in insertion order. *)
Record IndexFlatIP := MkIndex { d : nat; vectors : ndarray }.

Definition ntotal (index : IndexFlatIP) : nat := length (vectors index).

(** [index.add(embs)] *)
Definition add (index : IndexFlatIP) (embs : ndarray) : IndexFlatIP :=
  MkIndex (d index) (vectors index ++ embs).

(** The two artifacts of a build: [index.faiss] and [metadata.json]. *)
Record artifacts := MkArtifacts { index_file : IndexFlatIP; meta_file : pyval }.

Section Build.

(** [faiss is not None] *)
Variable faiss_available : bool.
(** [SentenceTransformer(args.model)]: the loaded model's
    [encode(texts, ...)] followed by [astype("float32")]. *)
Variable SentenceTransformer : pyresult (list pyval -> pyresult ndarray).
(** [faiss.normalize_L2] normalises each row of the array in place. *)
Variable normalize_row : list float -> list float.

Definition normalize_L2 (embs : ndarray) : ndarray := map normalize_row embs.

Definition build_faiss_index (embs : ndarray) : pyresult IndexFlatIP :=
  let d := match embs with row :: _ => length row | [] => 0 end in
  if negb faiss_available then
    Raise (MkExn "RuntimeError"
      (lit "faiss is not available. Install faiss-cpu or use alternative vector DB."))
  else
    let index := MkIndex d [] in
    let embs := normalize_L2 embs in
    Ok (add index embs).

(** One entry of [minimal_meta]. *)
Definition minimal_meta (rec : pyval) : pyresult pyval :=
  bind (get rec "id") (fun id =>
  bind (get rec "source_id") (fun source_id =>
  bind (get rec "title") (fun title =>
  bind (get rec "path") (fun path =>
  bind (get rec "chunk_index") (fun chunk_index =>
  bind (get rec "text") (fun text =>
  bind (py_slice_to text 1200) (fun text =>
  Ok (PDict [(lit "id", id); (lit "source_id", source_id); (lit "title", title);
             (lit "path", path); (lit "chunk_index", chunk_index);
             (lit "text", text)])))))))).

(** [main], from the records [load_jsonl_folder] returned. [None] is the
    early return on an empty folder; a raised exception leaves the run
    without a completed pair of artifacts. *)
Definition main (records : list pyval) : pyresult (option artifacts) :=
  match records with
  | [] => Ok None
  | _ =>
      bind (traverse (fun r => getitem_str r "text") records) (fun texts =>
      bind SentenceTransformer (fun encode =>
      bind (encode texts) (fun embs =>
      bind (build_faiss_index embs) (fun index =>
      bind (traverse minimal_meta records) (fun minimal_meta =>
      Ok (Some (MkArtifacts index (PList minimal_meta))))))))
  end.

End Build.

End CreateEmbeddings.

(** ** vector_client.py *)

Module VectorClient.

Local Open Scope py_scope.

Definition ndarray := CreateEmbeddings.ndarray.

(** A loaded FAISS index: [index.search(qv, k)] returns the rows [D[0]] and
    [I[0]] of scores and positions. *)
Record Index := MkFaiss { index_search : ndarray -> Z -> pyresult (list float * list Z) }.

(** The keyword arguments [_encode] tries on a sentence-transformers model. *)
Inductive kwargs := convert_to_numpy | return_numpy | convert_to_tensor | no_kwargs.

(** An embedding model: [model.encode(texts, **kwargs)] as a float32 array. *)
Record Model := MkModel { model_encode : kwargs -> list str -> pyresult ndarray }.

(** A fitted [TfidfVectorizer]. *)
Record Tfidf := MkTfidf {
  transform : list str -> pyresult ndarray;
  n_features : Z
}.

(** [self._embedder_mode] with the object it selects. *)
Inductive embedder :=
| sbert (model : Model)
| tfidf (vectorizer : Tfidf)
| injected (model : Model).

Record client := MkClient {
  metadata : pyval;
  index : Index;
  embedder_mode : embedder
}.

(** What the constructor finds on the machine. *)
Record env := MkEnv {
  index_dir : str;
  index_file : str;
  meta_file : str;
  index_file_exists : bool;
  meta_file_exists : bool;
  faiss_available : bool;                    (* [faiss is not None] *)
  json_load : pyresult pyval;                (* [json.load(fh)] on the metadata file *)
  read_index : pyresult Index;               (* [faiss.read_index] *)
  sentence_transformers_available : bool;    (* [SentenceTransformer is not None] *)
  SentenceTransformer : pyresult Model;
  sklearn_available : bool;                  (* [TfidfVectorizer is not None] *)
  tfidf_fit : list pyval -> pyresult Tfidf   (* [TfidfVectorizer(max_features=1024).fit] *)
}.

Definition RuntimeError (msg : str) : exn := MkExn "RuntimeError" msg.

(** [_init_tfidf]: the vectorizer is fitted on the texts of the metadata. *)
Definition _init_tfidf (E : env) (metadata : pyval) : logged Tfidf :=
  ms <- lift (iterate metadata) ;;
  texts <- lift (traverse (fun m =>
             bind (match m with PDict _ => get m "text" | _ => Ok (PStr []) end)
                  (fun t => Ok (py_or t (PStr [])))) ms) ;;
  vec <- lift (tfidf_fit E (match texts with [] => [PStr []] | _ => texts end)) ;;
  logger INFO "TF-IDF fallback initialized with %d features" [PInt (n_features vec)] ;;;
  ret vec.

(** [VectorClient.__init__(index_dir, model_name, model, use_chroma_fallback)] *)
Definition __init__ (E : env) (model_name : str) (model : option Model)
    (use_chroma_fallback : bool) : logged client :=
  if negb (index_file_exists E) || negb (meta_file_exists E) then
    raise (MkExn "FileNotFoundError"
      (lit "Index or metadata not found in " ++ index_dir E ++ lit ". " ++
       lit "Expected " ++ index_file E ++ lit " and " ++ meta_file E))
  else if negb (faiss_available E) then
    if use_chroma_fallback then
      raise (RuntimeError
        (lit "FAISS not available on this platform " ++ [8212%N] ++
         lit " Chroma fallback not implemented in this file."))
    else
      raise (RuntimeError (lit
        ("faiss not available. On Windows, pip install may fail. Use conda or install faiss-cpu, "
         ++ "or enable a Chroma fallback. See README for platform-specific instructions.")))
  else
    metadata <- lift (json_load E) ;;
    (match metadata with
     | PList _ => ret tt
     | _ => logger WARNING
              "metadata.json is not a list. Expecting list indexed by vector id." []
     end) ;;;
    n <- lift (py_len metadata) ;;
    logger INFO "Loaded %d metadata entries" [PInt n] ;;;
    logger INFO "Loading FAISS index from %s" [PStr (index_file E)] ;;;
    index <- lift (try_except (read_index E) (fun e =>
               Raise (RuntimeError (lit "Failed to load FAISS index: " ++ exn_str e)))) ;;
    match model with
    | Some m =>
        logger INFO "Using injected embedding model" [] ;;;
        ret (MkClient metadata index (injected m))
    | None =>
        if sentence_transformers_available E then
          logger INFO "Loading sentence-transformers model: %s" [PStr model_name] ;;;
          match SentenceTransformer E with
          | Ok m => ret (MkClient metadata index (sbert m))
          | Raise e =>
              logger WARNING "Failed to load SentenceTransformer('%s'): %s"
                     [PStr model_name; PStr (exn_str e)] ;;;
              if sklearn_available E then
                logger INFO "Falling back to TF-IDF embedder (for testing only)." [] ;;;
                vec <- _init_tfidf E metadata ;;
                ret (MkClient metadata index (tfidf vec))
              else
                raise (RuntimeError (lit
                  "Failed to load sentence-transformers model and TF-IDF fallback not available."))
          end
        else if sklearn_available E then
          logger INFO
            "sentence-transformers not installed; using TF-IDF fallback for embeddings." [] ;;;
          vec <- _init_tfidf E metadata ;;
          ret (MkClient metadata index (tfidf vec))
        else
          raise (RuntimeError (lit
            ("sentence-transformers not installed and TF-IDF fallback not available. "
             ++ "Install sentence-transformers and a compatible torch, "
             ++ "or install scikit-learn for fallback.")))
    end.

Section Search.

(** The numeric kernels of NumPy and FAISS on float32 values:
    [np.linalg.norm] of one row, the division of two numbers, and
    [faiss.normalize_L2]. *)
Variable np_norm : list float -> float.
Variable np_divide : float -> float -> float.
Variable faiss_normalize_L2 : ndarray -> pyresult ndarray.

(** [norms[norms == 0] = 1.0] on one norm. *)
Definition nonzero_norm (norm : float) : float :=
  if PrimFloat.eqb norm 0%float then 1%float else norm.

(** [norms = np.linalg.norm(mat, axis=1, keepdims=True)],
    [norms[norms == 0] = 1.0], [mat / norms]. *)
Definition normalize_rows (mat : ndarray) : ndarray :=
  map (fun row =>
         let norm := nonzero_norm (np_norm row) in
         map (fun x => np_divide x norm) row)
      mat.

(** [for kwargs in (...)]: the first call that does not raise [TypeError]
    wins; any other exception propagates. *)
Fixpoint encode_with (model : Model) (attempts : list kwargs) (texts : list str)
  : pyresult ndarray :=
  match attempts with
  | [] => model_encode model no_kwargs texts
  | kw :: rest =>
      try_except (model_encode model kw texts) (fun e =>
        if exn_is "TypeError" e then encode_with model rest texts else Raise e)
  end.

Definition _encode (self : client) (texts : list str) : pyresult ndarray :=
  match embedder_mode self with
  | sbert model =>
      encode_with model [convert_to_numpy; return_numpy; convert_to_tensor] texts
  | tfidf vectorizer =>
      bind (transform vectorizer texts) (fun mat => Ok (normalize_rows mat))
  | injected model => model_encode model no_kwargs texts
  end.

Definition embed_query (self : client) (text : str) : logged ndarray :=
  v <- lift (_encode self [text]) ;;
  match faiss_normalize_L2 v with
  | Ok v' => ret v'
  | Raise _ =>
      logger DEBUG "faiss.normalize_L2 failed; continuing without explicit normalization" [] ;;;
      ret v
  end.

(** One entry of the list [search] returns. *)
Record hit := MkHit {
  score : pyval;
  id : pyval;
  source_id : pyval;
  title : pyval;
  excerpt : pyval;
  path : pyval;
  chunk_index : pyval
}.

(** The dict literal appended to [results], from the metadata entry. *)
Definition make_hit (score : float) (meta : pyval) : pyresult hit :=
  bind (get meta "id") (fun id =>
  bind (get meta "source_id") (fun source_id =>
  bind (get meta "title") (fun title =>
  bind (get meta "text") (fun text =>
  bind (py_slice_to (py_or text (PStr [])) 800) (fun excerpt =>
  bind (get meta "path") (fun path =>
  bind (get meta "chunk_index") (fun chunk_index =>
  Ok (MkHit (PFloat score) id source_id title excerpt path chunk_index)))))))).

(** The body of [for score, idx in zip(D[0], I[0])]; [None] is [continue]. *)
Definition search_row (self : client) (score : float) (idx : Z) : logged (option hit) :=
  if (idx <? 0)%Z then ret None
  else
    n <- lift (py_len (metadata self)) ;;
    if (idx >=? n)%Z then
      logger WARNING "FAISS returned index %d but metadata has %d entries; skipping"
             [PInt idx; PInt n] ;;;
      ret None
    else
      meta <- lift (getitem_int (metadata self) idx) ;;
      h <- lift (make_hit score meta) ;;
      ret (Some h).

Fixpoint search_rows (self : client) (rows : list (float * Z)) : logged (list hit) :=
  match rows with
  | [] => ret []
  | (score, idx) :: rows' =>
      r <- search_row self score idx ;;
      results <- search_rows self rows' ;;
      ret (match r with Some h => h :: results | None => results end)
  end.

(** [VectorClient.search(query, k)] *)
Definition search (self : client) (query : str) (k : Z) : logged (list hit) :=
  qv <- embed_query self query ;;
  let k := if (k <=? 0)%Z then 1%Z else k in
  DI <- lift (try_except (index_search (index self) qv k) (fun e =>
          Raise (RuntimeError (lit "FAISS search failed: " ++ exn_str e)))) ;;
  search_rows self (combine (fst DI) (snd DI)).

End Search.

End VectorClient.

(** ** retrieval_agent.py *)

Module RetrievalAgent.

Local Open Scope py_scope.

Import VectorClient.

(** One entry of the list [retrieve] returns. *)
Record result := MkResult {
  r_score : pyval;
  r_source_id : pyval;
  r_title : pyval;
  r_excerpt : pyval;
  r_path : pyval;
  r_chunk_index : pyval
}.

Section Retrieve.

Variable np_norm : list float -> float.
Variable np_divide : float -> float -> float.
Variable faiss_normalize_L2 : ndarray -> pyresult ndarray.
Variable E : env.

(** [get_client]: the module global [_client] is passed in and handed back. *)
Definition get_client (_client : option client) : logged client * option client :=
  match _client with
  | Some c => (ret c, _client)
  | None =>
      match (logger INFO "Initializing VectorClient..." [] ;;;
             __init__ E (lit "all-MiniLM-L6-v2") None false) with
      | (l, Ok c) =>
          ((l ++ [Log INFO "VectorClient loaded successfully." []], Ok c), Some c)
      | (l, Raise e) =>
          ((l ++ [Log ERROR "Failed to initialize VectorClient: %s" [PStr (exn_str e)]],
            Raise (RuntimeError
              (lit "VectorClient failed to load." ++ [NL] ++
               lit ("Check your FAISS index + metadata and ensure sentence-transformers "
                    ++ "or TF-IDF fallback works.") ++ [NL] ++
               lit "Error: " ++ exn_str e))),
           None)
      end
  end.

(** The synthetic record both [except] branches return. *)
Definition error_result (message : str) : result :=
  MkResult (PInt 0) PNone (PStr (lit "ERROR")) (PStr message) PNone PNone.

Definition project (r : hit) : result :=
  MkResult (score r) (source_id r) (title r) (excerpt r) (path r) (chunk_index r).

(** [retrieve(query, top_k)]: what was logged, the list returned, and the
    new value of [_client]. *)
Definition retrieve (_client : option client) (query : str) (top_k : Z)
  : list logrec * list result * option client :=
  match get_client _client with
  | ((l, Raise e), _client) =>
      (l ++ [Log ERROR "Could not get VectorClient: %s" [PStr (exn_str e)]],
       [error_result (lit "VectorClient initialization failed: " ++ exn_str e)],
       _client)
  | ((l, Ok client), _client) =>
      match search np_norm np_divide faiss_normalize_L2 client query top_k with
      | (l', Raise e) =>
          (l ++ l' ++ [Log ERROR "Vector search failed: %s" [PStr (exn_str e)]],
           [error_result (lit "Vector search failed: " ++ exn_str e)],
           _client)
      | (l', Ok results) => (l ++ l', map project results, _client)
      end
  end.

End Retrieve.

End RetrievalAgent.

(** ** clean_and_chunk.py: files in, chunk records out *)

Module ProcessFile.

(** The record written for chunk [i]; [stem] is [path.stem], which
    [minimal_meta] gives as [source_id] and as [title]. *)
Definition rec (stem : str) (i : Z) (c : str) : pyval :=
  PDict [(lit "id", PStr (stem ++ lit "_chunk_" ++ decimal i));
         (lit "source_id", PStr stem);
         (lit "title", PStr stem);
         (lit "chunk_index", PInt i);
         (lit "text", PStr c)].

(** The body of [for i, c in enumerate(chunks)]: the lines written so far. *)
Definition write_chunk (stem : str) (written : list pyval) (ic : Z * str) : list pyval :=
  let c := strip (snd ic) in
  if negb (nonempty c) then written
  else written ++ [rec stem (fst ic) c].

(** [process_file(path, out_dir, max_chars, overlap, dry_run)], from the outcome
    of [load_text(path)]: the number returned and, when the output file was
    opened, the records written to it, one per line. *)
Definition process_file (load_text : pyresult str) (stem : str)
    (max_chars overlap : Z) (dry_run : bool) : pyresult (Z * option (list pyval)) :=
  bind load_text (fun text =>
  if negb (nonempty text) then Ok (0%Z, None)
  else
    let text := clean_text text in
    let chunks := chunk_text_by_paragraphs text max_chars overlap in
    if dry_run then Ok (len chunks, None)
    else
      let lines := fold_left (write_chunk stem) (enumerate 0 chunks) [] in
      Ok (len lines, Some lines)).

(** The byte order mark. *)
Definition BOM : char := 65279%N.

(** [raw.lstrip(BOM)] *)
Fixpoint lstrip_bom (raw : str) : str :=
  match raw with
  | c :: raw' => if N.eqb c BOM then lstrip_bom raw' else raw
  | [] => []
  end.

(** The text branch of [load_text], from the decoded content of the file
    (what did not decode has been dropped). *)
Definition load_text_file (raw : str) : str :=
  if starts_with [BOM] raw then lstrip_bom raw else raw.

End ProcessFile.

(** ** llm_client.py *)

Module LLMClient.

Section Client.

(** A client object of the Gemini SDK. *)
Variable gclient : Type.

(** What the module finds when it is imported. *)
Record sdk := MkSdk {
  genai_imported : bool;            (* [genai] and [types] are not [None] *)
  openai_imported : bool;           (* [openai] is not [None] *)
  GEMINI_API_KEY : option str;
  OPENAI_API_KEY : option str;
  genai_Client : pyresult gclient   (* [genai.Client(api_key=GEMINI_API_KEY)] *)
}.

(** The attributes of an [LLMClient]. *)
Record llm := MkLlm {
  model : str;
  prefer : str;
  backend : option str;
  _gclient : option gclient;
  can_gemini : bool;
  can_openai : bool
}.

(** [str.lower] of a string with a character outside ASCII. *)
Variable unicode_lower : str -> str.

Definition ascii_lower (c : char) : char :=
  if ((65 <=? c) && (c <=? 90))%N then (c + 32)%N else c.

(** [s.lower()] *)
Definition lower (s : str) : str :=
  if forallb (fun c => (c <? 128)%N) s then map ascii_lower s else unicode_lower s.

Definition is_some {A} (o : option A) : bool :=
  match o with Some _ => true | None => false end.

(** [LLMClient.__init__(self, model, prefer)] *)
Definition __init__ (S : sdk) (model : str) (prefer : option str) : pyresult llm :=
  let prefer := lower (match prefer with
                       | Some ((_ :: _) as p) => p
                       | _ => lit "gemini"
                       end) in
  let can_gemini := genai_imported S && is_some (GEMINI_API_KEY S) in
  let can_openai := openai_imported S && is_some (OPENAI_API_KEY S) in
  let '(_gclient, backend, can_gemini) :=
    if can_gemini then
      match genai_Client S with
      | Ok g => (Some g, Some (lit "gemini"), can_gemini)
      | Raise _ => (None, None, false)
      end
    else (None, None, can_gemini) in
  match backend with
  | Some _ => Ok (MkLlm model prefer backend _gclient can_gemini can_openai)
  | None =>
      if can_openai && str_eqb prefer (lit "openai")
      then Ok (MkLlm model prefer (Some (lit "openai")) _gclient can_gemini can_openai)
      else if can_gemini
      then Ok (MkLlm model prefer (Some (lit "gemini")) _gclient can_gemini can_openai)
      else Raise (VectorClient.RuntimeError (lit
             "No LLM backend configured. Set GEMINI_API_KEY or OPENAI_API_KEY in .env."))
  end.

Definition ValueError (msg : string) : exn := MkExn "ValueError" (lit msg).

(** [x.lower()] of any object. *)
Definition py_lower (x : pyval) : pyresult str :=
  match x with
  | PStr s => Ok (lower s)
  | _ => Raise (AttributeError x "lower")
  end.

(** One iteration of the loop of [_extract_system_and_user_messages], on the
    pair [(system_instruction, user_prompt)]. *)
Definition extract_step (acc : pyval * pyval) (m : pyval) : pyresult (pyval * pyval) :=
  bind (get m "role") (fun r =>
  bind (py_lower (py_or r (PStr (lit "user")))) (fun role =>
  bind (get m "content") (fun c =>
  bind (get m "text") (fun t =>
  let content := py_or (py_or c t) (PStr []) in
  if str_eqb role (lit "system") then Ok (content, snd acc)
  else if str_eqb role (lit "user") then Ok (fst acc, content)
  else Ok acc)))).

Fixpoint extract_loop (acc : pyval * pyval) (messages : list pyval)
  : pyresult (pyval * pyval) :=
  match messages with
  | [] => Ok acc
  | m :: rest => bind (extract_step acc m) (fun acc => extract_loop acc rest)
  end.

(** [_extract_system_and_user_messages(self, messages)]: the values of
    ["system_instruction"] and ["user_prompt"]. *)
Definition _extract_system_and_user_messages (messages : list pyval)
  : pyresult (pyval * pyval) :=
  bind (extract_loop (PStr [], PStr []) messages) (fun parts =>
  if negb (truthy (snd parts))
  then Raise (ValueError "User prompt not found in messages list.")
  else Ok parts).

(** The calls into the two SDKs, which may answer differently at each attempt.
    [generate_content g attempt model contents config_kwargs] stands for building
    the [GenerateContentConfig], finding and calling [generate_content] on the
    client and reading the text of the response;
    [openai_create attempt model messages temperature max_tokens] for
    [openai.ChatCompletion.create]. *)
Variable S : sdk.
Variable generate_content :
  gclient -> nat -> str -> list pyval -> list (str * pyval) -> pyresult pyval.
Variable openai_create : nat -> str -> list pyval -> float -> Z -> pyresult pyval.
(** ["".join(traceback.format_exception_only(type(e), e))], [e] possibly [None]. *)
Variable format_exception_only : option exn -> str.

(** The body of the [try] of one attempt: its outcome and [self._gclient]
    afterwards. *)
Definition attempt_call (self : llm) (g : option gclient) (attempt : nat)
    (messages : list pyval) (temperature : float) (max_tokens : Z)
  : pyresult pyval * option gclient :=
  match backend self with
  | Some b =>
      if str_eqb b (lit "gemini") then
        match _extract_system_and_user_messages messages with
        | Raise e => (Raise e, g)
        | Ok (system_instruction, prompt) =>
            match (match g with Some c => Ok c | None => genai_Client S end) with
            | Raise e => (Raise e, g)
            | Ok c =>
                let config_kwargs :=
                  [(lit "temperature", PFloat temperature);
                   (lit "max_output_tokens", PInt max_tokens)] ++
                  (if truthy system_instruction
                   then [(lit "system_instruction", system_instruction)] else []) in
                (generate_content c attempt (model self) [prompt] config_kwargs, Some c)
            end
        end
      else if str_eqb b (lit "openai") then
        (bind (openai_create attempt (model self) messages temperature max_tokens)
           (fun resp =>
            bind (getitem_str resp "choices") (fun choices =>
            bind (getitem_int choices 0) (fun choice =>
            bind (getitem_str choice "message") (fun message =>
            getitem_str message "content")))), g)
      else (Raise (VectorClient.RuntimeError (lit "No LLM backend available")), g)
  | None => (Raise (VectorClient.RuntimeError (lit "No LLM backend available")), g)
  end.

(** [for attempt in ...]: the seconds slept, in order, and the outcome. *)
Fixpoint attempts (self : llm) (g : option gclient) (last_exc : option exn)
    (range : list nat) (messages : list pyval) (temperature : float) (max_tokens : Z)
  : list Z * pyresult pyval :=
  match range with
  | [] => ([], Raise (VectorClient.RuntimeError (lit "LLM call failed after retries: " ++
                                    format_exception_only last_exc)))
  | attempt :: rest =>
      match attempt_call self g attempt messages temperature max_tokens with
      | (Ok text, _) => ([], Ok text)
      | (Raise e, g) =>
          let '(slept, r) := attempts self g (Some e) rest messages temperature max_tokens in
          ((2 ^ Z.of_nat attempt)%Z :: slept, r)
      end
  end.

(** [chat_completion(self, messages, temperature, max_tokens)] *)
Definition chat_completion (self : llm) (messages : list pyval) (temperature : float)
    (max_tokens : Z) : list Z * pyresult pyval :=
  attempts self (_gclient self) None (seq 0 3) messages temperature max_tokens.

End Client.

End LLMClient.

(** ** response_agent.py *)

Module ResponseAgent.

Import RetrievalAgent.

Section Answer.

(** [html.unescape]. *)
Variable html_unescape : str -> str.
(** [str(x)] of a float, a list or a dict. *)
Variable repr_value : pyval -> str.
(** [llm.chat_completion(messages, temperature, max_tokens)] of the module's
    [llm]. *)
Variable chat_completion : list pyval -> float -> Z -> pyresult pyval.
(** ["".join(traceback.format_exception_only(type(exc), exc))] *)
Variable format_exception_only : exn -> str.

(** [str(x)], as an f-string renders a value. *)
Definition py_str (x : pyval) : str :=
  match x with
  | PNone => lit "None"
  | PBool true => lit "True"
  | PBool false => lit "False"
  | PInt z => decimal z
  | PStr s => s
  | _ => repr_value x
  end.

(** The mojibake character the cleaner removes. *)
Definition A_CIRC : char := 226%N.

(** [_clean_reply_text(s)]. Only a [str] has [replace]: the two guarded
    steps leave any other object as it is, the third raises. *)
Definition _clean_reply_text (s : pyval) : pyresult str :=
  match s with
  | PNone => Ok []
  | PStr s =>
      let s := replace (lit "\u2019") (lit "'") (replace (lit "\u0027") (lit "'") s) in
      let s := html_unescape s in
      let s := replace [A_CIRC] [] s in
      let s := sub (match_at blank 1 []) [SP] s in
      let s := sub (match_at is_nl 3 []) [NL; NL] s in
      Ok (strip s)
  | _ => Raise (AttributeError s "replace")
  end.

(** One iteration of [for r in retrieved[:3]]: the piece appended. *)
Definition summary_piece (r : result) : pyresult str :=
  match py_or (r_excerpt r) (PStr []) with
  | PStr txt =>
      let first_sent := split (lit ".") txt in
      match first_sent with
      | first :: _ =>
          if nonempty (strip first) then Ok (strip first ++ lit ".")
          else Ok (strip (slice_to txt 160))
      | [] => Ok (strip (slice_to txt 160))
      end
  | txt => Raise (AttributeError txt "split")
  end.

(** [_fallback_summary(user_question, retrieved)] *)
Definition _fallback_summary (user_question : str) (retrieved : list result) : pyresult str :=
  match retrieved with
  | [] => Ok (lit "No supporting documents were found to answer the question.")
  | _ =>
      bind (traverse summary_piece (slice_to retrieved 3)) (fun pieces =>
      let summary := strip (join [SP] pieces) in
      if nonempty summary
      then Ok (lit "(Fallback summary from retrieved documents) " ++ summary)
      else Ok (lit "No usable text in retrieved documents."))
  end.

(** The entry of one source in the prompt. *)
Definition prompt_entry (ir : Z * result) : str :=
  lit "[" ++ decimal (fst ir) ++ lit "] source_id=" ++ py_str (r_source_id (snd ir)) ++
  lit " chunk_index=" ++ py_str (r_chunk_index (snd ir)) ++
  lit " title=" ++ py_str (r_title (snd ir)) ++ [NL] ++
  py_str (r_excerpt (snd ir)) ++ [NL; NL].

(** [build_prompt(user_question, retrieved)] *)
Definition build_prompt (user_question : str) (retrieved : list result) : str :=
  let intro :=
    lit ("You are a legal assistant. Answer the user's question ONLY using the provided "
         ++ "source excerpts. Provide a short, plain-language answer (2") ++ [8211%N] ++
    lit ("6 sentences). Then list citations referencing source_id and chunk_index. "
         ++ "If the answer is not in the sources, say so and do not hallucinate.") in
  let docs_section :=
    fold_left (fun acc ir => acc ++ prompt_entry ir) (enumerate 1 retrieved)
              (lit "SOURCE EXCERPTS:" ++ [NL]) in
  let user_section := lit "QUESTION:" ++ [NL] ++ user_question ++ [NL; NL] in
  let instructions :=
    lit "RESPONSE FORMAT:" ++ [NL] ++
    lit "1) Short answer in plain language." ++ [NL] ++
    lit "2) CITATIONS:" ++ [NL] ++
    lit "   source_id:chunk_index " ++ [8212%N] ++ lit " <short supporting quote>" ++ [NL] ++
    lit "Begin your answer below:" in
  intro ++ [NL; NL] ++ docs_section ++ user_section ++ instructions.

(** One entry of ["citations"]. *)
Definition citation (r : result) : pyval :=
  PDict [(lit "source_id", r_source_id r); (lit "chunk_index", r_chunk_index r);
         (lit "title", r_title r)].

(** The dict both branches of [generate_answer] return. *)
Definition answer (text : str) (retrieved : list result) (debug : list (str * pyval)) : pyval :=
  PDict [(lit "reply", PStr text); (lit "answer", PStr text);
         (lit "citations", PList (map citation retrieved));
         (lit "debug", PDict ((lit "retrieved_count", PInt (len retrieved)) :: debug))].

Definition system_msg : pyval :=
  PDict [(lit "role", PStr (lit "system"));
         (lit "content", PStr (lit "You are a precise legal assistant. Cite sources exactly."))].
Definition user_msg (prompt : str) : pyval :=
  PDict [(lit "role", PStr (lit "user")); (lit "content", PStr prompt)].

(** [0.1], the temperature of every call. *)
Definition temperature : float := 0x1.999999999999ap-4%float.

(** [generate_answer(user_question, retrieved)] *)
Definition generate_answer (user_question : str) (retrieved : list result) : pyresult pyval :=
  let prompt := build_prompt user_question retrieved in
  try_except
    (bind (chat_completion [system_msg; user_msg prompt] temperature 2048%Z) (fun resp_text =>
     bind (_clean_reply_text resp_text) (fun cleaned_text =>
     if negb (nonempty cleaned_text)
     then Raise (MkExn "RuntimeError" (lit "LLM returned empty text."))
     else Ok (answer cleaned_text retrieved []))))
    (fun exc =>
     let tb := strip (format_exception_only exc) in
     bind (_fallback_summary user_question retrieved) (fun fallback =>
     Ok (answer (lit "LLM failed to produce an answer. " ++ fallback) retrieved
                [(lit "llm_error", PStr tb)]))).

End Answer.

End ResponseAgent.

(** ** main.py *)

Module Api.

Import VectorClient RetrievalAgent.

(** What an endpoint answers: a JSON body, or [raise HTTPException(...)]. *)
Inductive response :=
| Json (body : pyval)
| HTTPException (status_code : Z) (detail : string).

(** A result record as JSON. *)
Definition result_json (r : result) : pyval :=
  PDict [(lit "score", r_score r); (lit "source_id", r_source_id r);
         (lit "title", r_title r); (lit "excerpt", r_excerpt r);
         (lit "path", r_path r); (lit "chunk_index", r_chunk_index r)].

Section Endpoints.

(** [int(x)] of a float and of a string. *)
Variable int_of_float : float -> pyresult Z.
Variable int_of_str : str -> pyresult Z.

(** [int(x)] *)
Definition py_int (x : pyval) : pyresult Z :=
  match x with
  | PInt z => Ok z
  | PBool b => Ok (if b then 1 else 0)%Z
  | PFloat f => int_of_float f
  | PStr s => int_of_str s
  | _ => Raise (TypeError x "is not a valid argument of int()")
  end.

(** The [k] the [/retrieve] endpoint asks for: [int(payload.get("k", 5))], [5]
    when that raises, clamped to [1..25]. *)
Definition requested_k (payload : list (str * pyval)) : Z :=
  let k := match py_int (match lookup payload (lit "k") with
                         | Some v => v
                         | None => PInt 5
                         end) with
           | Ok k => k
           | Raise _ => 5%Z
           end in
  Z.max 1 (Z.min k 25).

(** [retrieval_agent.retrieve(q, top_k=k)] on any query object. *)
Variable agent_retrieve : pyval -> Z -> pyresult (list result).

(** [POST /retrieve] *)
Definition retrieve (payload : list (str * pyval)) : response :=
  let q := py_or (match lookup payload (lit "query") with Some v => v | None => PNone end)
                 (PStr []) in
  let k := requested_k payload in
  if negb (truthy q) then Json (PDict [(lit "results", PList [])])
  else
    match agent_retrieve q k with
    | Ok results => Json (PDict [(lit "results", PList (map result_json results))])
    | Raise _ => HTTPException 500 "Retrieval failed. See server logs for details."
    end.

End Endpoints.

(** [Message] and [ChatMessage], as pydantic has validated them. *)
Record Message := MkMessage { role : option str; text : str }.
Record ChatMessage := MkChat {
  session_id : option str;
  messages : list Message;
  mode : option str
}.

(** One entry of ["citations"] when the answer comes without the LLM. *)
Definition retrieved_citation (r : result) : pyresult pyval :=
  bind (py_slice_to (r_excerpt r) 400) (fun excerpt =>
  Ok (PDict [(lit "source_id", r_source_id r); (lit "title", r_title r);
             (lit "chunk_index", r_chunk_index r); (lit "excerpt", excerpt)])).

Section Chat.

Variable np_norm : list float -> float.
Variable np_divide : float -> float -> float.
Variable faiss_normalize_L2 : ndarray -> pyresult ndarray.
Variable E : env.
(** [from app.agents import response_agent]: the module's [generate_answer],
    or what the import raises (it runs [LLMClient(...)]). *)
Variable import_response_agent : pyresult (str -> list result -> pyresult pyval).

(** [payload.messages[-1]] of a non-empty list. *)
Definition latest (ms : list Message) : option Message := nth_error (rev ms) 0.

Definition retrieved_count (retrieved : list result) : str * pyval :=
  (lit "retrieved_count", PInt (len retrieved)).

(** [d.get(k)] of a dict the handler made or received. *)
Definition field (d : pyval) (k : string) : pyresult pyval := get d k.

(** [POST /chat]: the answer, or an exception no handler catches, and the new
    value of [retrieval_agent._client]. *)
Definition chat (_client : option client) (payload : ChatMessage)
  : pyresult response * option client :=
  match latest (messages payload) with
  | None => (Ok (HTTPException 400 "`messages` (non-empty list) is required"), _client)
  | Some m =>
      let user_latest := strip (text m) in
      if negb (nonempty user_latest)
      then (Ok (HTTPException 400 "Latest message text is empty"), _client)
      else
        let '(_, retrieved, _client) :=
          RetrievalAgent.retrieve np_norm np_divide faiss_normalize_L2 E _client user_latest 4 in
        (match import_response_agent with
         | Raise e =>
             bind (traverse retrieved_citation retrieved) (fun citations =>
             Ok (Json (PDict
               [(lit "reply", PStr (lit
                   "LLM not configured or unavailable. Returning retrieved documents only."));
                (lit "citations", PList citations);
                (lit "debug", PDict [retrieved_count retrieved;
                                     (lit "llm_import_error", PStr (exn_str e))])])))
         | Ok generate_answer =>
             try_except
               (bind (generate_answer user_latest retrieved) (fun rag_result =>
                bind (field rag_result "answer") (fun a =>
                bind (field rag_result "reply") (fun r =>
                bind (field rag_result "citations") (fun cs =>
                bind (field rag_result "debug") (fun dbg =>
                Ok (Json (PDict
                  [(lit "reply", py_or (py_or a r) (PStr []));
                   (lit "citations", py_or cs (PList []));
                   (lit "debug", py_or dbg (PDict [retrieved_count retrieved]))]))))))))
               (fun e =>
                bind (traverse retrieved_citation retrieved) (fun citations =>
                Ok (Json (PDict
                  [(lit "reply", PStr (lit
                      "Error while generating answer. Returning retrieved documents and error info."));
                   (lit "citations", PList citations);
                   (lit "debug", PDict [retrieved_count retrieved;
                                        (lit "llm_error", PStr (exn_str e))])]))))
         end, _client)
  end.

End Chat.

End Api.

(** ** Notions the statements use *)

Import Re CleanAndChunk.

(** The trailing [n] characters of [s]. *)
Definition trailing {A} (n : nat) (s : list A) : list A := skipn (length s - n) s.

(** A chunk made of one paragraph of [text] that alone exceeds [max_chars],
    after at most an overlap seed and the separator. *)
Definition single_oversized_paragraph (text : str) (max_chars overlap : Z) (c : str) : Prop :=
  exists p pre, In p (split [NL; NL] text) /\ (max_chars < len p)%Z /\
                (len pre <= overlap + 2)%Z /\ c = strip (pre ++ p).

(** The chunk being grown fits [max_chars], or is one paragraph behind a
    short prefix. *)
Definition current_ok (paragraphs : list str) (max_chars overlap : Z) (cur : str) : Prop :=
  (len cur <= max_chars)%Z \/
  exists p pre, In p paragraphs /\ (len pre <= overlap + 2)%Z /\ cur = pre ++ p.

Definition chunk_ok (paragraphs : list str) (max_chars overlap : Z) (c : str) : Prop :=
  (len c <= max_chars + overlap + 2)%Z \/
  exists p pre, In p paragraphs /\ (max_chars < len p)%Z /\
                (len pre <= overlap + 2)%Z /\ c = strip (pre ++ p).

Definition chunker_ok (paragraphs : list str) (max_chars overlap : Z) (st : chunker) : Prop :=
  Forall (chunk_ok paragraphs max_chars overlap) (chunks st) /\
  current_ok paragraphs max_chars overlap (current_chunk st).

(** Some pair of neighbours of [s] satisfies [P]. *)
Fixpoint adjacent (P : char -> char -> bool) (s : str) : bool :=
  match s with
  | a :: (b :: _) as t => P a b || adjacent P t
  | _ => false
  end.

(** A space or tab stands right before a newline. *)
Definition ws_before_nl (s : str) : bool := adjacent (fun a b => blank a && is_nl b) s.

(** Two spaces or tabs stand side by side. *)
Definition blank_pair (s : str) : bool := adjacent (fun a b => blank a && blank b) s.

(** Three newlines stand in a row. *)
Fixpoint nl_triple (s : str) : bool :=
  match s with
  | a :: t => is_nl a && (2 <=? span is_nl t) || nl_triple t
  | [] => false
  end.

Definition has_cr (s : str) : bool := existsb (fun c => N.eqb c CR) s.

(** What [clean_text] leaves behind. *)
Record cleaned (s : str) : Prop := MkCleaned {
  cleaned_cr : has_cr s = false;
  cleaned_ws : ws_before_nl s = false;
  cleaned_nl : nl_triple s = false;
  cleaned_blank : blank_pair s = false;
  cleaned_strip : strip s = s
}.

(** The first character after the leading blanks is a newline. *)
Definition nl_follows (s : str) : bool := starts_with [NL] (skipn (span blank s) s).

(** The three substitutions of [clean_text], from any scanning state. *)
Definition sub_trailing := sub_from (match_at blank 1 [NL]) [NL].
Definition sub_newlines := sub_from (match_at is_nl 3 []) [NL; NL].
Definition sub_blanks := sub_from (match_at blank 2 []) [SP].

(** A returned position that a metadata collection of length [n] explains. *)
Definition in_range (n : Z) (row : float * Z) : bool :=
  (0 <=? snd row)%Z && (snd row <? n)%Z.

(** The hit of one in-range row. *)
Definition row_hit (self : VectorClient.client) (row : float * Z)
  : pyresult VectorClient.hit :=
  bind (getitem_int (VectorClient.metadata self) (snd row)) (VectorClient.make_hit (fst row)).

(** A metadata entry as the build writes it: a dict whose text, when
    present, is a string. *)
Definition entry_ok (meta : pyval) : Prop :=
  exists kv, meta = PDict kv /\
    match lookup kv (lit "text") with
    | None | Some PNone | Some (PStr _) => True
    | Some _ => False
    end.

(** [str(e)] of the [RuntimeError] that [get_client] raises for the
    constructor's exception [e]. *)
Definition load_failure (e : exn) : str :=
  lit "VectorClient failed to load." ++ [NL] ++
  lit ("Check your FAISS index + metadata and ensure sentence-transformers "
       ++ "or TF-IDF fallback works.") ++ [NL] ++
  lit "Error: " ++ exn_str e.

(** The list [retrieve] returns. *)
Definition returned {L S} (r : L * list RetrievalAgent.result * S)
  : list RetrievalAgent.result := snd (fst r).

(** The warning the constructor logs for metadata that is not a list. *)
Definition not_a_list_warning : logrec :=
  Log WARNING "metadata.json is not a list. Expecting list indexed by vector id." [].

(** Position by position, the artifacts of a build describe the records:
    vector [i] is the normalised row [i] of the embedding of the texts, text
    [i] is the text of record [i], and metadata entry [i] is the projection
    of record [i]. *)
Definition aligned (encode : list pyval -> pyresult CreateEmbeddings.ndarray)
    (normalize_row : list float -> list float)
    (records : list pyval) (built : CreateEmbeddings.artifacts) : Prop :=
  exists texts embs entries,
    traverse (fun r => getitem_str r "text") records = Ok texts /\
    encode texts = Ok embs /\
    CreateEmbeddings.meta_file built = PList entries /\
    length entries = CreateEmbeddings.ntotal (CreateEmbeddings.index_file built) /\
    length entries = length records /\
    forall i rec, nth_error records i = Some rec ->
      exists text row entry,
        getitem_str rec "text" = Ok text /\
        nth_error texts i = Some text /\
        nth_error embs i = Some row /\
        nth_error (CreateEmbeddings.vectors (CreateEmbeddings.index_file built)) i
          = Some (normalize_row row) /\
        CreateEmbeddings.minimal_meta rec = Ok entry /\
        nth_error entries i = Some entry.

(** *** Notions of the further properties *)

(** A paragraph that survives [if not paragraph.strip(): continue]. *)
Definition nonblank (s : str) : bool := existsb (fun c => negb (isspace c)) s.

(** The chunk being grown is empty or carries text; the sealed chunks are
    trimmed and carry text. *)
Definition carries_text (st : chunker) : Prop :=
  Forall (fun c => nonempty c = true /\ strip c = c) (chunks st) /\
  (nonempty (current_chunk st) = true -> nonblank (current_chunk st) = true).

(** 1 when a chunk is being grown, 0 otherwise. *)
Definition open_chunk (st : chunker) : nat := if nonempty (current_chunk st) then 1 else 0.

(** [a] occurs in [b] as a contiguous piece. *)
Definition infix (a b : str) : Prop := exists pre post, b = pre ++ a ++ post.

(** The paragraphs the chunker keeps. *)
Definition kept_paragraphs (text : str) : list str := filter nonblank (split [NL; NL] text).

(** What the paragraphs cost when each is followed by a separator. *)
Definition separated_length (ps : list str) : Z :=
  fold_right (fun p n => (len p + 2 + n)%Z) 0%Z ps.

(** The paragraph [p] has reached a sealed chunk, trimmed, or sits in the
    chunk being grown. *)
Definition covered (st : chunker) (p : str) : Prop :=
  Exists (infix (strip p)) (chunks st) \/ infix p (current_chunk st).

(** The [id] of a written record. *)
Definition record_id (r : pyval) : pyval :=
  match r with
  | PDict kv => match lookup kv (lit "id") with Some v => v | None => PNone end
  | _ => PNone
  end.

(** The characters of [s] that are not whitespace, in order. *)
Definition content (s : str) : str := filter (fun c => negb (isspace c)) s.

(** [s] is whitespace throughout. *)
Definition all_space (s : str) : Prop := Forall (fun c => isspace c = true) s.

(** A record that has a ["text"]. *)
Definition has_text (r : pyval) : Prop := exists t, getitem_str r "text" = Ok t.

(** The metadata entry of chunk [i] of the document [stem]. *)
Definition chunk_entry (stem : str) (i : Z) (c : str) : pyval :=
  PDict [(lit "id", PStr (stem ++ lit "_chunk_" ++ decimal i));
         (lit "source_id", PStr stem);
         (lit "title", PStr stem);
         (lit "path", PNone);
         (lit "chunk_index", PInt i);
         (lit "text", PStr (slice_to c 1200))].

(** The call raised a [TypeError]. *)
Definition raised_type_error {A} (r : pyresult A) : bool :=
  match r with
  | Raise e => exn_is "TypeError" e
  | Ok _ => false
  end.

(** How the constructor chose the embedder of [c]. *)
Definition embedder_chosen (E : VectorClient.env) (model : option VectorClient.Model)
    (c : VectorClient.client) : Prop :=
  match model with
  | Some m => VectorClient.embedder_mode c = VectorClient.injected m
  | None =>
      (VectorClient.sentence_transformers_available E = true /\
       exists m, VectorClient.SentenceTransformer E = Ok m /\
                 VectorClient.embedder_mode c = VectorClient.sbert m) \/
      (VectorClient.sklearn_available E = true /\
       (VectorClient.sentence_transformers_available E = false \/
        exists e, VectorClient.SentenceTransformer E = Raise e) /\
       exists vec, VectorClient.embedder_mode c = VectorClient.tfidf vec)
  end.

(** The hit that cites chunk [idx] of the document [stem]. *)
Definition cited_hit (stem : str) (chunks : list str) (row : float * Z) : VectorClient.hit :=
  VectorClient.MkHit (PFloat (fst row))
    (PStr (stem ++ lit "_chunk_" ++ decimal (snd row)))
    (PStr stem) (PStr stem)
    (PStr (slice_to (nth (Z.to_nat (snd row)) chunks []) 800))
    PNone (PInt (snd row)).

(** The metadata written for the chunks of the document [stem]. *)
Definition chunk_entries (stem : str) (chunks : list str) : list pyval :=
  map (fun ic => chunk_entry stem (fst ic) (snd ic)) (enumerate 0 chunks).

(** [_fallback_summary] can read the excerpt of [r]: it is a string, or falsy. *)
Definition summarisable (r : RetrievalAgent.result) : bool :=
  match py_or (RetrievalAgent.r_excerpt r) (PStr []) with PStr _ => true | _ => false end.

(** The latest message of a chat payload has text besides whitespace. *)
Definition valid_chat (payload : Api.ChatMessage) : bool :=
  match Api.latest (Api.messages payload) with
  | Some m => nonblank (Api.text m)
  | None => false
  end.

(** The seconds [chat_completion] sleeps after [k] failed attempts. *)
Definition backoff (k : nat) : list Z := map (fun a => (2 ^ Z.of_nat a)%Z) (seq 0 k).

(** An object that [x[:n]] accepts. *)
Definition sliceable (x : pyval) : bool :=
  match x with PStr _ | PList _ => true | _ => false end.

(** The module [response_agent] as [import] gives it: its [generate_answer]
    over the [chat_completion] of the client it built, or the exception of
    [LLMClient(...)]. *)
Definition imported (html_unescape : str -> str) (repr_value : pyval -> str)
    (format_exception_only : exn -> str)
    (llm : pyresult (list pyval -> float -> Z -> pyresult pyval))
  : pyresult (str -> list RetrievalAgent.result -> pyresult pyval) :=
  match llm with
  | Ok chat_completion =>
      Ok (ResponseAgent.generate_answer html_unescape repr_value chat_completion
            format_exception_only)
  | Raise e => Raise e
  end.

(** ** Concrete inputs *)

Module Sample.

Import VectorClient.

(** A chunk record as the chunker writes it. *)
Definition chunk_record (id source_id : string) (chunk_index : Z) (text : string) : pyval :=
  PDict [(lit "id", PStr (lit id)); (lit "source_id", PStr (lit source_id));
         (lit "title", PStr (lit source_id)); (lit "chunk_index", PInt chunk_index);
         (lit "text", PStr (lit text))].

Definition two_records : list pyval :=
  [chunk_record "doc_chunk_0" "doc" 0 "first"; chunk_record "doc_chunk_1" "doc" 1 "second"].

(** A metadata entry as the build writes it. *)
Definition metadata_entry (id source_id : string) (chunk_index : Z) (text : str) : pyval :=
  PDict [(lit "id", PStr (lit id)); (lit "source_id", PStr (lit source_id));
         (lit "title", PStr (lit source_id)); (lit "path", PNone);
         (lit "chunk_index", PInt chunk_index); (lit "text", PStr text)].

Definition two_entries : list pyval :=
  [metadata_entry "doc_chunk_0" "doc" 0 (lit "first");
   metadata_entry "doc_chunk_1" "doc" 1 (lit "second")].

(** An encoder that embeds every text as the same one-dimensional vector. *)
Definition constant_encode {A} (texts : list A) : pyresult ndarray :=
  Ok (map (fun _ => [1%float]) texts).

Definition constant_model : Model := MkModel (fun _ => constant_encode).

(** An index that answers every query with the first [k] of four rows: a
    real neighbour, a position beyond the metadata, the "no match" sentinel,
    and another real neighbour. *)
Definition scores : list float := [0.75%float; 0.5%float; 0.25%float; 0.125%float].
Definition positions : list Z := [1; 7; -1; 0]%Z.

Definition skewed_index : Index :=
  MkFaiss (fun _ k => Ok (firstn (Z.to_nat k) scores, firstn (Z.to_nat k) positions)).

Definition skewed_client : client :=
  MkClient (PList two_entries) skewed_index (injected constant_model).

(** A client whose only metadata entry stores a text of 1000 characters. *)
Definition long_text : str := repeat 97%N 1000.

Definition long_client : client :=
  MkClient (PList [metadata_entry "doc_chunk_0" "doc" 0 long_text])
           (MkFaiss (fun _ _ => Ok ([0.5%float], [0%Z])))
           (injected constant_model).

Definition long_hit : hit :=
  MkHit (PFloat 0.5%float) (PStr (lit "doc_chunk_0")) (PStr (lit "doc")) (PStr (lit "doc"))
        (PStr (repeat 97%N 800)) PNone (PInt 0).

Definition empty_index : Index := MkFaiss (fun _ _ => Ok ([], [])).

Definition ImportError : exn := MkExn "ImportError" [].

(** A machine on which the two files exist, FAISS is installed, the index
    loads, and [metadata.json] holds the JSON object [{}]. *)
Definition object_metadata_env : env :=
  MkEnv (lit "data/faiss_test") (lit "data/faiss_test/index.faiss")
        (lit "data/faiss_test/metadata.json")
        true true true
        (Ok (PDict []))
        (Ok empty_index)
        false (Raise ImportError) false (fun _ => Raise ImportError).

(** A machine on which [index.faiss] is absent. *)
Definition missing_index_env : env :=
  MkEnv (lit "data/faiss_test") (lit "data/faiss_test/index.faiss")
        (lit "data/faiss_test/metadata.json")
        false true true
        (Ok (PList two_entries))
        (Raise (MkExn "RuntimeError" (lit "could not open index.faiss")))
        false (Raise ImportError) false (fun _ => Raise ImportError).

Definition index_not_found : exn :=
  MkExn "FileNotFoundError"
    (lit "Index or metadata not found in data/faiss_test. " ++
     lit "Expected data/faiss_test/index.faiss and data/faiss_test/metadata.json").

(** Stand-ins for the numeric kernels. *)
Definition no_normalize (v : ndarray) : pyresult ndarray := Ok v.
Definition sum_norm (row : list float) : float := fold_right PrimFloat.add 0%float row.
Definition divide : float -> float -> float := PrimFloat.div.

(** *** Inputs of the further properties *)
(** Two paragraphs. *)
Definition two_paragraphs : str := lit "ab" ++ [NL; NL] ++ lit "cd".

(** The records [process_file] writes for [two_paragraphs] cut in two. *)
Definition two_lines : list pyval :=
  [ProcessFile.rec (lit "doc") 0 (lit "ab"); ProcessFile.rec (lit "doc") 1 (lit "cd")].

(** What the build writes for [two_records] under the constant encoder. *)
Definition two_built : CreateEmbeddings.artifacts :=
  CreateEmbeddings.MkArtifacts (CreateEmbeddings.MkIndex 1 [[1%float]; [1%float]])
                               (PList two_entries).

(** The client the constructor builds on [object_metadata_env] around an
    injected model. *)
Definition object_metadata_client : client :=
  MkClient (PDict []) empty_index (injected constant_model).

(** A machine without sentence-transformers, with scikit-learn: every fit
    gives the same vectorizer. *)
Definition unit_vectorizer : Tfidf := MkTfidf (fun texts => constant_encode texts) 1.

Definition tfidf_env : env :=
  MkEnv (lit "data/faiss_test") (lit "data/faiss_test/index.faiss")
        (lit "data/faiss_test/metadata.json")
        true true true
        (Ok (PList []))
        (Ok empty_index)
        false (Raise ImportError) true (fun _ => Ok unit_vectorizer).

(** A client over the metadata of the two chunks of [two_paragraphs]; its
    index answers every query with the second chunk. *)
Definition built_client : client :=
  MkClient (PList (chunk_entries (lit "doc") [lit "ab"; lit "cd"]))
           (MkFaiss (fun _ _ => Ok ([0.5%float], [1%Z])))
           (injected constant_model).

(** The client the constructor builds on [tfidf_env]. *)
Definition tfidf_client : client :=
  MkClient (PList []) empty_index (tfidf unit_vectorizer).

(** Chat payloads: a question, and a latest message of blanks. *)
Definition lease_message : Api.Message := Api.MkMessage (Some (lit "user")) (lit " lease? ").
Definition lease_chat : Api.ChatMessage := Api.MkChat None [lease_message] (Some (lit "default")).
Definition blank_chat : Api.ChatMessage :=
  Api.MkChat None [lease_message; Api.MkMessage None (lit "  ")] None.

(** An LLM that answers every call with [None]. *)
Definition silent_llm (messages : list pyval) (temperature : float) (max_tokens : Z)
  : pyresult pyval := Ok PNone.

(** A machine with the OpenAI SDK and key only, and the client built there
    on request. *)
Definition openai_only_sdk : LLMClient.sdk unit :=
  LLMClient.MkSdk unit false true None (Some (lit "sk-test")) (Raise ImportError).

Definition openai_llm : LLMClient.llm unit :=
  LLMClient.MkLlm unit (lit "gpt-4o") (lit "openai") (Some (lit "openai")) None false true.

(** A machine with the Gemini SDK and key, its client, and SDK calls that
    answer with the first content they are given. *)
Definition gemini_sdk : LLMClient.sdk unit :=
  LLMClient.MkSdk unit true false (Some (lit "g-test")) None (Ok tt).

Definition gemini_llm : LLMClient.llm unit :=
  LLMClient.MkLlm unit (lit "gemini-2.5-flash") (lit "gemini") (Some (lit "gemini"))
                  (Some tt) true false.

Definition echo_generate (g : unit) (attempt : nat) (model : str) (contents : list pyval)
    (config_kwargs : list (str * pyval)) : pyresult pyval :=
  Ok (hd PNone contents).

Definition echo_create (attempt : nat) (model : str) (messages : list pyval)
    (temperature : float) (max_tokens : Z) : pyresult pyval :=
  Ok (PDict []).

Definition exception_text (e : option exn) : str :=
  match e with Some e => exn_str e | None => [] end.

End Sample.

(** * Properties *)

(** ** The chunker *)

Section ChunkFacts.

Local Open Scope Z_scope.

(** *** Lengths of stripped strings and slices *)

Lemma lstrip_length (s : str) : (length (lstrip s) <= length s)%nat.
Proof.
  induction s as [|c s IH]; simpl; [lia|].
  destruct (isspace c); simpl; lia.
Qed.

Lemma strip_length (s : str) : (length (strip s) <= length s)%nat.
Proof.
  unfold strip, rstrip.
  rewrite length_rev.
  pose proof (lstrip_length (rev (lstrip s))) as H.
  rewrite length_rev in H.
  pose proof (lstrip_length s). lia.
Qed.

Lemma len_strip (s : str) : len (strip s) <= len s.
Proof. unfold len. pose proof (strip_length s). lia. Qed.

Lemma len_app {A} (a b : list A) : len (a ++ b) = len a + len b.
Proof. unfold len. rewrite length_app. lia. Qed.

Lemma len_nonneg {A} (a : list A) : 0 <= len a.
Proof. unfold len. lia. Qed.

Lemma slice_from_nonneg {A} (s : list A) (start : Z) :
  0 <= start -> slice_from s start = skipn (Z.to_nat start) s.
Proof.
  intros H. unfold slice_from.
  destruct (start <? 0) eqn:E; [lia|].
  destruct (Z.le_gt_cases start (len s)) as [Hle|Hgt].
  - rewrite Z.min_l by lia. reflexivity.
  - rewrite Z.min_r by lia. unfold len in *.
    rewrite Nat2Z.id. rewrite !skipn_all2 by lia. reflexivity.
Qed.

Lemma slice_from_neg {A} (s : list A) (start : Z) :
  start < 0 -> slice_from s start = skipn (Z.to_nat (start + len s)) s.
Proof.
  intros H. unfold slice_from.
  destruct (start <? 0) eqn:E; [|lia].
  destruct (Z.le_gt_cases 0 (start + len s)).
  - rewrite Z.max_r by lia. reflexivity.
  - rewrite Z.max_l by lia. replace (Z.to_nat (start + len s)) with 0%nat by lia.
    reflexivity.
Qed.

Lemma len_skipn {A} (n : nat) (s : list A) : len (skipn n s) = Z.max 0 (len s - Z.of_nat n).
Proof. unfold len. rewrite length_skipn. lia. Qed.

Lemma len_overlap_slice (cur : str) (overlap : Z) :
  0 <= overlap -> len (slice_from cur (len cur - overlap)) <= overlap.
Proof.
  intros H.
  destruct (Z.le_gt_cases overlap (len cur)).
  - rewrite slice_from_nonneg by lia. rewrite len_skipn. lia.
  - rewrite slice_from_neg by lia. rewrite len_skipn.
    pose proof (len_nonneg cur). lia.
Qed.

Lemma len_overlap_text (cur : str) (overlap : Z) :
  0 <= overlap -> len (overlap_text cur overlap) <= overlap.
Proof.
  intros H. unfold overlap_text.
  pose proof (len_strip (slice_from cur (len cur - overlap))).
  pose proof (len_overlap_slice cur overlap H). lia.
Qed.

(** *** The size invariant of the chunking loop *)

Section SizeBound.

Variables (paragraphs : list str) (max_chars overlap : Z).
Hypothesis max_chars_pos : 0 < max_chars.
Hypothesis overlap_nonneg : 0 <= overlap.

Lemma seal_ok (cur : str) :
  current_ok paragraphs max_chars overlap cur ->
  chunk_ok paragraphs max_chars overlap (strip cur).
Proof.
  intros [Hle | (p & pre & Hin & Hpre & ->)].
  - left. pose proof (len_strip cur). lia.
  - destruct (Z.le_gt_cases (len p) max_chars) as [Hp|Hp].
    + left. pose proof (len_strip (pre ++ p)). rewrite len_app in *. lia.
    + right. exists p, pre. repeat split; auto; lia.
Qed.

Lemma chunk_step_ok (st : chunker) (p : str) :
  In p paragraphs ->
  chunker_ok paragraphs max_chars overlap st ->
  chunker_ok paragraphs max_chars overlap (chunk_step max_chars overlap st p).
Proof.
  intros Hin [Hchunks Hcur]. unfold chunk_step.
  destruct (negb (nonempty (strip p))); [split; assumption|].
  destruct ((len (current_chunk st) + len p + 2 >? max_chars) && nonempty (current_chunk st))
    eqn:Hseal.
  - split; simpl.
    + apply Forall_app. split; [assumption|].
      constructor; [apply seal_ok; assumption | constructor].
    + right. exists p, (overlap_text (current_chunk st) overlap ++ [NL; NL]).
      split; [assumption|]. split.
      * rewrite len_app. pose proof (len_overlap_text (current_chunk st) overlap overlap_nonneg).
        change (len [NL; NL]) with 2. lia.
      * rewrite <- app_assoc. reflexivity.
  - destruct (nonempty (current_chunk st)) eqn:Hne; split; simpl; try assumption.
    + left. rewrite andb_true_r in Hseal.
      rewrite Z.gtb_ltb in Hseal. apply Z.ltb_ge in Hseal.
      rewrite len_app. unfold len in *. simpl length. lia.
    + right. exists p, []. split; [assumption|]. split; [|reflexivity].
      change (len (@nil char)) with 0. lia.
Qed.

Lemma chunk_fold_ok (ps : list str) (st : chunker) :
  incl ps paragraphs ->
  chunker_ok paragraphs max_chars overlap st ->
  chunker_ok paragraphs max_chars overlap (fold_left (chunk_step max_chars overlap) ps st).
Proof.
  revert st. induction ps as [|p ps IH]; intros st Hincl Hst; simpl; [assumption|].
  apply IH.
  - intros x Hx. apply Hincl. right. assumption.
  - apply chunk_step_ok; [apply Hincl; left; reflexivity | assumption].
Qed.

Lemma chunk_loop_ok :
  chunker_ok paragraphs max_chars overlap (chunk_loop max_chars overlap paragraphs).
Proof.
  apply chunk_fold_ok; [apply incl_refl|].
  split; simpl; [constructor|].
  left. change (len (@nil char)) with 0. lia.
Qed.

End SizeBound.

(** C4 (as amended). For [max_chars > 0] and [overlap >= 0], every chunk that
    [chunk_text_by_paragraphs] emits has length at most
    [max_chars + overlap + 2] (the overlap seed, the two-character paragraph
    separator and the chunk body), unless it is a single paragraph that alone
    exceeds [max_chars], behind at most the seed and the separator. *)
Theorem chunk_size_soft_bound (text : str) (max_chars overlap : Z) :
  0 < max_chars -> 0 <= overlap ->
  forall c, In c (chunk_text_by_paragraphs text max_chars overlap) ->
    len c <= max_chars + overlap + 2 \/
    single_oversized_paragraph text max_chars overlap c.
Proof.
  intros Hmax Hov c Hin.
  unfold chunk_text_by_paragraphs in Hin.
  destruct text as [|c0 text0]; [contradiction|].
  set (text := c0 :: text0) in *.
  destruct (chunk_loop_ok (split [NL; NL] text) max_chars overlap Hmax Hov) as [Hchunks Hcur].
  assert (Hall : Forall (chunk_ok (split [NL; NL] text) max_chars overlap)
                   (chunks (chunk_loop max_chars overlap (split [NL; NL] text)) ++
                    [strip (current_chunk (chunk_loop max_chars overlap (split [NL; NL] text)))])).
  { apply Forall_app. split; [assumption|].
    constructor; [apply seal_ok; assumption | constructor]. }
  rewrite Forall_forall in Hall.
  apply Hall.
  destruct (nonempty _); [assumption|].
  apply in_or_app. left. assumption.
Qed.

Lemma chunk_size_soft_bound_witness :
  len (lit "ab" ++ [NL; NL] ++ lit "cd") <= 3 + 2 + 2 \/
  single_oversized_paragraph (lit "ab" ++ [NL; NL] ++ lit "cd") 3 2
    (lit "ab" ++ [NL; NL] ++ lit "cd").
Proof.
  apply (chunk_size_soft_bound (lit "ab" ++ [NL; NL] ++ lit "cd") 3 2);
    [lia | lia | vm_compute; right; left; reflexivity].
Defined.

(** C4 as first stated fails: with [max_chars = 3] and [overlap = 2] the text
    ["ab\n\ncd"] yields the chunk ["ab\n\ncd"] of length 6 > 3 + 2, although no
    paragraph of the text exceeds [max_chars]. *)
Lemma chunk_size_claimed_bound_fails :
  ~ (forall c, In c (chunk_text_by_paragraphs (lit "ab" ++ [NL; NL] ++ lit "cd") 3 2) ->
       len c <= 3 + 2 \/
       exists p, In p (split [NL; NL] (lit "ab" ++ [NL; NL] ++ lit "cd")) /\ 3 < len p).
Proof.
  intros H.
  destruct (H (lit "ab" ++ [NL; NL] ++ lit "cd")) as [Hlen | (p & Hp & Hlen)].
  - vm_compute. right. left. reflexivity.
  - vm_compute in Hlen. apply Hlen. reflexivity.
  - vm_compute in Hp.
    destruct Hp as [<- | [<- | []]]; vm_compute in Hlen; discriminate.
Qed.

Example three_short_paragraphs :
  chunk_text_by_paragraphs (lit "A" ++ [NL; NL] ++ lit "B" ++ [NL; NL] ++ lit "C") 2048 150
  = [lit "A" ++ [NL; NL] ++ lit "B" ++ [NL; NL] ++ lit "C"].
Proof. reflexivity. Qed.

(** *** The overlap seed *)

Lemma skipn_all_eq {A} (s : list A) (n : nat) : skipn n s = s -> s = [] \/ n = 0%nat.
Proof.
  intros H. destruct n; [right; reflexivity|]. left.
  assert (Hl : length (skipn (S n) s) = length s) by (rewrite H; reflexivity).
  rewrite length_skipn in Hl. destruct s; [reflexivity|]. simpl in Hl. lia.
Qed.

(** Sealing a chunk starts the next one from the overlap seed. *)
Lemma chunk_step_seals (max_chars overlap : Z) (st : chunker) (paragraph : str) :
  nonempty (strip paragraph) = true ->
  nonempty (current_chunk st) = true ->
  max_chars < len (current_chunk st) + len paragraph + 2 ->
  chunk_step max_chars overlap st paragraph =
    MkChunker (chunks st ++ [strip (current_chunk st)])
              (overlap_text (current_chunk st) overlap ++ [NL; NL] ++ paragraph).
Proof.
  intros Hp Hc Hbig. unfold chunk_step. rewrite Hp, Hc. cbn [negb].
  rewrite Z.gtb_ltb. destruct (Z.ltb_spec max_chars (len (current_chunk st) + len paragraph + 2));
    [reflexivity | lia].
Qed.

(** C10 (as amended). For a sealed chunk of length [L > 0], the slice
    [current_chunk[L - overlap:]] is the trailing [overlap - L] characters of
    the chunk, and not the whole chunk, when [L < overlap < 2*L]; it is the
    whole chunk when [overlap = L] and when [overlap >= 2*L]. The seed of the
    next chunk is that slice, stripped. *)
Theorem overlap_seed_slice (current : str) (overlap : Z) :
  0 < len current ->
  (len current < overlap < 2 * len current ->
     slice_from current (len current - overlap)
       = trailing (Z.to_nat (overlap - len current)) current /\
     len (slice_from current (len current - overlap)) = overlap - len current /\
     slice_from current (len current - overlap) <> current) /\
  (overlap = len current \/ 2 * len current <= overlap ->
     slice_from current (len current - overlap) = current) /\
  overlap_text current overlap = strip (slice_from current (len current - overlap)).
Proof.
  intros HL. split; [|split].
  - intros Hov.
    assert (Heq : slice_from current (len current - overlap)
                  = trailing (Z.to_nat (overlap - len current)) current).
    { rewrite slice_from_neg by lia. unfold trailing. f_equal. unfold len in *. lia. }
    split; [exact Heq|]. split.
    + rewrite slice_from_neg by lia. rewrite len_skipn. unfold len in *. lia.
    + rewrite slice_from_neg by lia. intros H.
      apply skipn_all_eq in H. destruct H as [-> | H].
      * unfold len in HL. simpl in HL. lia.
      * unfold len in *. lia.
  - intros [-> | Hov].
    + rewrite Z.sub_diag. rewrite slice_from_nonneg by lia. reflexivity.
    + rewrite slice_from_neg by lia.
      replace (Z.to_nat (len current - overlap + len current)) with 0%nat by lia.
      reflexivity.
  - reflexivity.
Qed.

Lemma overlap_seed_slice_witness :
  (len (lit "abcd") < 6 < 2 * len (lit "abcd") ->
     slice_from (lit "abcd") (len (lit "abcd") - 6)
       = trailing (Z.to_nat (6 - len (lit "abcd"))) (lit "abcd") /\
     len (slice_from (lit "abcd") (len (lit "abcd") - 6)) = 6 - len (lit "abcd") /\
     slice_from (lit "abcd") (len (lit "abcd") - 6) <> lit "abcd") /\
  (6 = len (lit "abcd") \/ 2 * len (lit "abcd") <= 6 ->
     slice_from (lit "abcd") (len (lit "abcd") - 6) = lit "abcd") /\
  overlap_text (lit "abcd") 6 = strip (slice_from (lit "abcd") (len (lit "abcd") - 6)).
Proof.
  apply (overlap_seed_slice (lit "abcd") 6). reflexivity.
Defined.

Example overlap_six_of_four : slice_from (lit "abcd") (len (lit "abcd") - 6) = lit "cd".
Proof. reflexivity. Qed.

(** C10 as first stated fails at [overlap = L]: for the chunk ["ab"] and
    [overlap = 2] the start index is [0], not negative, and the slice is the
    whole chunk rather than its trailing [0] characters. *)
Lemma overlap_equal_length_takes_whole_chunk :
  ~ (len (lit "ab") <= 2 < 2 * len (lit "ab") ->
     slice_from (lit "ab") (len (lit "ab") - 2)
       = trailing (Z.to_nat (2 - len (lit "ab"))) (lit "ab") /\
     slice_from (lit "ab") (len (lit "ab") - 2) <> lit "ab").
Proof.
  intros H. destruct H as [_ Hne].
  - vm_compute. split; [discriminate | reflexivity].
  - apply Hne. reflexivity.
Qed.

(** The same chunk inside the chunker: sealed with [overlap = 2], it seeds
    the next chunk whole. *)
Example seed_of_equal_overlap :
  chunk_text_by_paragraphs (lit "ab" ++ [NL; NL] ++ lit "cd") 3 2
  = [lit "ab"; lit "ab" ++ [NL; NL] ++ lit "cd"].
Proof. reflexivity. Qed.

End ChunkFacts.

(** ** The cleaner *)

(** A disjunction of tests that is false: both tests are. *)
Tactic Notation "both_false" hyp(H) "as" simple_intropattern(pat) :=
  apply orb_false_iff in H; destruct H as pat.

Section CleanFacts.

Local Open Scope nat_scope.

(** *** Characters *)

Lemma blank_not_nl (c : char) : blank c = true -> is_nl c = false.
Proof.
  unfold blank, is_nl, SP, TAB, NL. intros H.
  apply orb_true_iff in H. destruct H as [H|H]; apply N.eqb_eq in H; subst; reflexivity.
Qed.

Lemma nl_not_blank (c : char) : is_nl c = true -> blank c = false.
Proof.
  intros H. destruct (blank c) eqn:E; [|reflexivity].
  apply blank_not_nl in E. congruence.
Qed.

Lemma is_nl_eq (c : char) : is_nl c = true -> c = NL.
Proof. unfold is_nl. apply N.eqb_eq. Qed.

(** *** [span] *)

Lemma span_le (cls : char -> bool) (s : str) : span cls s <= length s.
Proof. induction s as [|c s IH]; simpl; [lia|]. destruct (cls c); simpl; lia. Qed.

Lemma span_skipn (cls : char -> bool) (s : str) : span cls (skipn (span cls s) s) = 0.
Proof.
  induction s as [|c s IH]; simpl; [reflexivity|].
  destruct (cls c) eqn:E; simpl; [assumption | rewrite E; reflexivity].
Qed.

Lemma span_inside (cls : char -> bool) (s : str) (k : nat) :
  k < span cls s -> exists c t, skipn k s = c :: t /\ cls c = true.
Proof.
  revert k. induction s as [|c s IH]; simpl; intros k H; [lia|].
  destruct (cls c) eqn:E; [|lia].
  destruct k as [|k]; simpl; [eauto|]. apply IH. lia.
Qed.

(** *** The three patterns *)

Lemma give_back_empty (s : str) (m k : nat) :
  give_back [] s m k = if k <? m then None else Some (k + 0).
Proof. destruct k; simpl; reflexivity. Qed.

Lemma match_run (cls : char -> bool) (m : nat) (s : str) :
  match_at cls m [] s = if span cls s <? m then None else Some (span cls s).
Proof.
  unfold match_at. rewrite give_back_empty. rewrite Nat.add_0_r. reflexivity.
Qed.

Lemma give_back_blank_nl (s : str) (k : nat) :
  k < span blank s -> give_back [NL] s 1 k = None.
Proof.
  induction k as [|k IH]; intros H; [reflexivity|].
  cbn [give_back].
  destruct (S k <? 1) eqn:E; [reflexivity|].
  destruct (span_inside blank s (S k) H) as (c & t & -> & Hc).
  cbn [starts_with]. apply blank_not_nl in Hc. unfold is_nl in Hc.
  rewrite N.eqb_sym in Hc. rewrite Hc. cbn [andb].
  apply IH. lia.
Qed.

Lemma match_blank_nl (s : str) :
  match_at blank 1 [NL] s =
    if (1 <=? span blank s) && nl_follows s then Some (span blank s + 1) else None.
Proof.
  unfold match_at, nl_follows.
  destruct (span blank s) as [|n] eqn:E; [reflexivity|].
  cbn [give_back]. change (S n <? 1) with false. cbn iota.
  change (1 <=? S n) with true. cbn [andb].
  destruct (starts_with [NL] (skipn (S n) s)); [reflexivity|].
  apply give_back_blank_nl. lia.
Qed.

(** *** [replace] *)

Lemma replace_cr_free (old new s : str) :
  has_cr s = false -> replace (CR :: old) new s = s.
Proof.
  unfold replace. induction s as [|c s IH]; intros H; [reflexivity|].
  cbn [has_cr existsb] in H. both_false H as [Hc Hs].
  cbn [replace_from starts_with]. rewrite N.eqb_sym, Hc. cbn [andb].
  f_equal. apply IH. assumption.
Qed.

Lemma replace_cr_removes (s : str) : has_cr (replace [CR] [NL] s) = false.
Proof.
  unfold replace. induction s as [|c s IH]; [reflexivity|].
  cbn [replace_from starts_with]. rewrite andb_true_r.
  destruct (N.eqb CR c) eqn:E; cbn [length Nat.sub app has_cr existsb].
  - exact IH.
  - rewrite N.eqb_sym, E. exact IH.
Qed.

(** *** [sub] in general *)

Lemma sub_from_skip (m : str -> option nat) (r : str) (k : nat) (s : str) :
  sub_from m r k s = sub_from m r 0 (skipn k s).
Proof.
  revert k. induction s as [|c s IH]; intros k.
  - destruct k; reflexivity.
  - destruct k as [|k]; [reflexivity|]. cbn [sub_from skipn]. apply IH.
Qed.

Lemma sub_no_match (m : str -> option nat) (r : str) (Q : str -> Prop) :
  (forall c s, Q (c :: s) -> Q s) ->
  (forall s, Q s -> m s = None) ->
  forall s, Q s -> sub m r s = s.
Proof.
  intros Htl Hm. unfold sub. induction s as [|c s IH]; intros H; [reflexivity|].
  cbn [sub_from]. rewrite (Hm _ H). f_equal. apply IH. eapply Htl, H.
Qed.

Lemma has_cr_app (a b : str) : has_cr (a ++ b) = has_cr a || has_cr b.
Proof. apply existsb_app. Qed.

Lemma sub_from_has_cr (m : str -> option nat) (r : str) :
  has_cr r = false ->
  forall s k, has_cr s = false -> has_cr (sub_from m r k s) = false.
Proof.
  intros Hr. induction s as [|c s IH]; intros k H; [reflexivity|].
  cbn [has_cr existsb] in H. both_false H as [Hc Hs].
  cbn [sub_from]. destruct k as [|k]; [|apply IH; assumption].
  destruct (m (c :: s)) as [[|j]|].
  - cbn [has_cr existsb]. rewrite Hc. apply IH. assumption.
  - rewrite has_cr_app, Hr. apply IH. assumption.
  - cbn [has_cr existsb]. rewrite Hc. apply IH. assumption.
Qed.

(** *** The forbidden neighbourhoods, one character at a time *)

Lemma span_cons (cls : char -> bool) (c : char) (s : str) :
  span cls (c :: s) = if cls c then S (span cls s) else 0.
Proof. reflexivity. Qed.

Lemma adjacent_cons (P : char -> char -> bool) (a b : char) (t : str) :
  adjacent P (a :: b :: t) = P a b || adjacent P (b :: t).
Proof. reflexivity. Qed.

Lemma ws_before_nl_cons (c : char) (s : str) :
  ws_before_nl (c :: s) = blank c && (1 <=? span is_nl s) || ws_before_nl s.
Proof.
  unfold ws_before_nl.
  destruct s as [|b t]; [cbn; rewrite andb_false_r; reflexivity|].
  rewrite adjacent_cons, span_cons. destruct (is_nl b); reflexivity.
Qed.

Lemma blank_pair_cons (c : char) (s : str) :
  blank_pair (c :: s) = blank c && (1 <=? span blank s) || blank_pair s.
Proof.
  unfold blank_pair.
  destruct s as [|b t]; [cbn; rewrite andb_false_r; reflexivity|].
  rewrite adjacent_cons, span_cons. destruct (blank b); reflexivity.
Qed.

Lemma nl_triple_cons (c : char) (s : str) :
  nl_triple (c :: s) = is_nl c && (2 <=? span is_nl s) || nl_triple s.
Proof. reflexivity. Qed.

Lemma starts_with_nl (s : str) : starts_with [NL] s = (1 <=? span is_nl s).
Proof.
  destruct s as [|c s]; [reflexivity|].
  cbn [starts_with span]. unfold is_nl. rewrite N.eqb_sym, andb_true_r.
  destruct (N.eqb c NL); reflexivity.
Qed.

Lemma nl_follows_cons (c : char) (s : str) :
  nl_follows (c :: s) = if blank c then nl_follows s else is_nl c.
Proof.
  unfold nl_follows. rewrite span_cons.
  destruct (blank c) eqn:E; [reflexivity|].
  cbn [skipn]. rewrite starts_with_nl, span_cons.
  destruct (is_nl c); reflexivity.
Qed.

(** Behind a run of blanks no newline follows, when no blank stands before
    a newline. *)
Lemma ws_free_run_end (s : str) :
  ws_before_nl s = false -> 1 <= span blank s -> nl_follows s = false.
Proof.
  induction s as [|c s IH]; intros Hws Hrun; [simpl in Hrun; lia|].
  rewrite ws_before_nl_cons in Hws. both_false Hws as [Hc Hs].
  rewrite span_cons in Hrun. rewrite nl_follows_cons.
  destruct (blank c) eqn:E; [|lia].
  cbn [andb] in Hc.
  destruct (span blank s) as [|n] eqn:En.
  - unfold nl_follows. rewrite En. cbn [skipn]. rewrite starts_with_nl. exact Hc.
  - apply IH; [assumption | lia].
Qed.

Lemma nl_triple_free_span (s : str) : nl_triple s = false -> span is_nl s <= 2.
Proof.
  destruct s as [|c s]; intros H; [simpl; lia|].
  rewrite nl_triple_cons in H. both_false H as [H _].
  rewrite span_cons. destruct (is_nl c); [|lia].
  cbn [andb] in H. apply Nat.leb_gt in H. lia.
Qed.

Lemma blank_pair_free_span (s : str) : blank_pair s = false -> span blank s <= 1.
Proof.
  destruct s as [|c s]; intros H; [simpl; lia|].
  rewrite blank_pair_cons in H. both_false H as [H _].
  rewrite span_cons. destruct (blank c); [|lia].
  cbn [andb] in H. apply Nat.leb_gt in H. lia.
Qed.

(** *** [re.sub(r"\n{3,}", "\n\n", _)] *)

Lemma sub_newlines_spec (s : str) : forall k,
  k = 0 \/ k = span is_nl s ->
  span is_nl (sub_newlines k s) = (if k =? 0 then Nat.min (span is_nl s) 2 else 0) /\
  nl_triple (sub_newlines k s) = false /\
  (ws_before_nl s = false -> ws_before_nl (sub_newlines k s) = false).
Proof.
  unfold sub_newlines.
  induction s as [|c s IH]; intros k Hk.
  - destruct k; repeat split; reflexivity.
  - destruct k as [|k].
    + (* scanning *)
      cbn [sub_from]. rewrite match_run.
      destruct (span is_nl (c :: s) <? 3) eqn:Hm.
      * (* the run is shorter than three: the character is copied *)
        apply Nat.ltb_lt in Hm.
        destruct (IH 0 (or_introl eq_refl)) as (Hspan & Htri & Hws).
        cbn [Nat.eqb] in Hspan |- *.
        rewrite span_cons in Hm |- *. rewrite nl_triple_cons, span_cons.
        repeat split.
        -- destruct (is_nl c); [|reflexivity]. rewrite Hspan. lia.
        -- rewrite Htri, Hspan. destruct (is_nl c); [|reflexivity].
           cbn [andb orb]. rewrite orb_false_r. apply Nat.leb_gt. lia.
        -- intros H. rewrite ws_before_nl_cons in H |- *.
           both_false H as [Hc Hs].
           rewrite (Hws Hs), orb_false_r, Hspan.
           destruct (blank c); [|reflexivity]. cbn [andb] in Hc |- *.
           apply Nat.leb_gt in Hc. apply Nat.leb_gt. lia.
      * (* three newlines or more: the run is replaced *)
        apply Nat.ltb_ge in Hm. rewrite span_cons in Hm.
        destruct (is_nl c) eqn:Ec; [|lia].
        rewrite span_cons, Ec.
        destruct (IH (span is_nl s) (or_intror eq_refl)) as (Hspan & Htri & Hws).
        destruct (span is_nl s =? 0) eqn:E0; [apply Nat.eqb_eq in E0; lia|].
        cbn [app Nat.eqb].
        repeat split.
        -- cbn [span]. change (is_nl NL) with true. cbn iota. rewrite Hspan. lia.
        -- rewrite !nl_triple_cons, span_cons. change (is_nl NL) with true.
           cbn iota. rewrite Hspan, Htri. reflexivity.
        -- intros H. rewrite ws_before_nl_cons in H.
           both_false H as [_ Hs].
           rewrite !ws_before_nl_cons. change (blank NL) with false.
           cbn [andb orb]. apply Hws, Hs.
    + (* inside a replaced run *)
      destruct Hk as [Hk|Hk]; [discriminate|].
      rewrite span_cons in Hk. destruct (is_nl c) eqn:Ec; [|discriminate].
      injection Hk as Hk. subst k.
      cbn [sub_from Nat.eqb].
      destruct (IH (span is_nl s) (or_intror eq_refl)) as (Hspan & Htri & Hws).
      repeat split.
      * rewrite Hspan. destruct (span is_nl s =? 0) eqn:E0; [|reflexivity].
        apply Nat.eqb_eq in E0. rewrite E0. reflexivity.
      * exact Htri.
      * intros H. rewrite ws_before_nl_cons in H.
        both_false H as [_ Hs]. apply Hws, Hs.
Qed.

(** *** [re.sub(r"[ \t]{2,}", " ", _)] *)

Lemma sub_blanks_spec (s : str) : forall k,
  k = 0 \/ k = span blank s ->
  span blank (sub_blanks k s) = (if k =? 0 then Nat.min (span blank s) 1 else 0) /\
  span is_nl (sub_blanks k s) = span is_nl (skipn k s) /\
  blank_pair (sub_blanks k s) = false /\
  (ws_before_nl s = false -> ws_before_nl (sub_blanks k s) = false) /\
  (nl_triple s = false -> nl_triple (sub_blanks k s) = false).
Proof.
  unfold sub_blanks.
  induction s as [|c s IH]; intros k Hk.
  - destruct k; repeat split; reflexivity.
  - destruct k as [|k].
    + cbn [sub_from skipn]. rewrite match_run.
      destruct (span blank (c :: s) <? 2) eqn:Hm.
      * (* a lone blank, or no blank: the character is copied *)
        apply Nat.ltb_lt in Hm.
        destruct (IH 0 (or_introl eq_refl)) as (Hb & Hn & Hpair & Hws & Htri).
        cbn [Nat.eqb skipn] in Hb, Hn |- *.
        rewrite span_cons in Hm.
        repeat split.
        -- rewrite !span_cons. destruct (blank c); [|reflexivity]. rewrite Hb. lia.
        -- rewrite !span_cons. destruct (is_nl c); [|reflexivity]. rewrite Hn. reflexivity.
        -- rewrite blank_pair_cons, Hpair, Hb, orb_false_r.
           destruct (blank c); [|reflexivity].
           cbn [andb]. apply Nat.leb_gt. lia.
        -- intros H. rewrite ws_before_nl_cons in H |- *.
           both_false H as [Hc Hs].
           rewrite (Hws Hs), Hn, Hc. reflexivity.
        -- intros H. rewrite nl_triple_cons in H |- *.
           both_false H as [Hc Hs].
           rewrite (Htri Hs), Hn, Hc. reflexivity.
      * (* two blanks or more: the run becomes one space *)
        apply Nat.ltb_ge in Hm. rewrite span_cons in Hm.
        destruct (blank c) eqn:Ec; [|lia].
        rewrite span_cons, Ec.
        destruct (IH (span blank s) (or_intror eq_refl)) as (Hb & Hn & Hpair & Hws & Htri).
        destruct (span blank s =? 0) eqn:E0; [apply Nat.eqb_eq in E0; lia|].
        cbn [app Nat.eqb].
        assert (Hsp : blank SP = true) by reflexivity.
        assert (Hsn : is_nl SP = false) by reflexivity.
        repeat split.
        -- rewrite span_cons, Hsp, Hb. lia.
        -- rewrite !span_cons, Hsn, (blank_not_nl c Ec). reflexivity.
        -- rewrite blank_pair_cons, Hpair, Hb. reflexivity.
        -- intros H. rewrite ws_before_nl_cons in H.
           both_false H as [_ Hs].
           rewrite ws_before_nl_cons, (Hws Hs), Hn, orb_false_r, Hsp.
           cbn [andb]. rewrite <- starts_with_nl.
           apply (ws_free_run_end s Hs). lia.
        -- intros H. rewrite nl_triple_cons in H.
           both_false H as [_ Hs].
           rewrite nl_triple_cons, (Htri Hs), Hsn. reflexivity.
    + (* inside a replaced run *)
      destruct Hk as [Hk|Hk]; [discriminate|].
      rewrite span_cons in Hk. destruct (blank c) eqn:Ec; [|discriminate].
      injection Hk as Hk. subst k.
      cbn [sub_from Nat.eqb skipn].
      destruct (IH (span blank s) (or_intror eq_refl)) as (Hb & Hn & Hpair & Hws & Htri).
      repeat split.
      * rewrite Hb. destruct (span blank s =? 0) eqn:E0; [|reflexivity].
        apply Nat.eqb_eq in E0. rewrite E0. reflexivity.
      * exact Hn.
      * exact Hpair.
      * intros H. rewrite ws_before_nl_cons in H.
        both_false H as [_ Hs]. apply Hws, Hs.
      * intros H. rewrite nl_triple_cons in H.
        both_false H as [_ Hs]. apply Htri, Hs.
Qed.

(** *** [re.sub(r"[ \t]+\n", "\n", _)] *)

Lemma sub_trailing_spec (s : str) : forall k,
  k = 0 \/ (k = span blank s + 1 /\ nl_follows s = true) ->
  ws_before_nl (sub_trailing k s) = false /\
  (k = 0 -> (1 <=? span is_nl (sub_trailing k s)) = nl_follows s).
Proof.
  unfold sub_trailing.
  induction s as [|c s IH]; intros k Hk.
  - destruct k; split; intros; try reflexivity; discriminate.
  - destruct k as [|k].
    + cbn [sub_from]. rewrite match_blank_nl.
      destruct ((1 <=? span blank (c :: s)) && nl_follows (c :: s)) eqn:Hm.
      * (* blanks up to a newline: dropped *)
        apply andb_true_iff in Hm. destruct Hm as [Hrun Hnl].
        apply Nat.leb_le in Hrun.
        rewrite span_cons in Hrun |- *. destruct (blank c) eqn:Ec; [|lia].
        rewrite nl_follows_cons, Ec in Hnl |- *.
        replace (S (span blank s) + 1) with (S (span blank s + 1)) by lia.
        destruct (IH (span blank s + 1)) as (Hws & _); [right; split; [reflexivity|assumption]|].
        cbn [app]. split.
        -- rewrite ws_before_nl_cons, Hws. reflexivity.
        -- intros _. rewrite Hnl. reflexivity.
      * (* the character is copied *)
        destruct (IH 0 (or_introl eq_refl)) as (Hws & Hhead).
        specialize (Hhead eq_refl).
        assert (Hcopy : ws_before_nl (c :: sub_from (match_at blank 1 [NL]) [NL] 0 s) = false /\
                        (1 <=? span is_nl (c :: sub_from (match_at blank 1 [NL]) [NL] 0 s))
                        = nl_follows (c :: s)).
        { rewrite ws_before_nl_cons, Hws, Hhead, orb_false_r.
          rewrite nl_follows_cons in Hm |- *. rewrite !span_cons in *.
          destruct (blank c) eqn:Ec.
          - cbn [andb] in Hm. change (1 <=? S (span blank s)) with true in Hm.
            cbn [andb] in Hm. rewrite Hm, (blank_not_nl c Ec). split; reflexivity.
          - cbn [andb]. split; [reflexivity|]. destruct (is_nl c); reflexivity. }
        destruct (span blank (c :: s) + 1) eqn:E1; [lia|].
        destruct Hcopy. split; [assumption | intros _; assumption].
    + (* inside a dropped run *)
      destruct Hk as [Hk|[Hk Hnl]]; [discriminate|].
      cbn [sub_from]. split; [|intros; discriminate].
      rewrite span_cons in Hk. rewrite nl_follows_cons in Hnl.
      destruct (blank c) eqn:Ec.
      * apply IH. right. split; [lia | assumption].
      * apply IH. left. lia.
Qed.

(** *** [strip] *)

Lemma lstrip_suffix (s : str) : exists pre, s = pre ++ lstrip s.
Proof.
  induction s as [|c s [pre IH]]; [exists []; reflexivity|].
  cbn [lstrip]. destruct (isspace c).
  - exists (c :: pre). cbn [app]. f_equal. exact IH.
  - exists []. reflexivity.
Qed.

Lemma rstrip_prefix (s : str) : exists post, s = rstrip s ++ post.
Proof.
  unfold rstrip. destruct (lstrip_suffix (rev s)) as [pre H].
  exists (rev pre). rewrite <- rev_app_distr, <- H, rev_involutive. reflexivity.
Qed.

Lemma strip_factor (s : str) : exists pre post, s = pre ++ strip s ++ post.
Proof.
  unfold strip. destruct (lstrip_suffix s) as [pre H].
  destruct (rstrip_prefix (lstrip s)) as [post H'].
  exists pre, post. rewrite <- H'. exact H.
Qed.

Lemma lstrip_head (s : str) (c : char) (t : str) : lstrip s = c :: t -> isspace c = false.
Proof.
  induction s as [|a s IH]; cbn [lstrip]; [discriminate|].
  destruct (isspace a) eqn:E; [exact IH|].
  intros H. injection H as -> _. exact E.
Qed.

Lemma lstrip_idempotent (s : str) : lstrip (lstrip s) = lstrip s.
Proof.
  destruct (lstrip s) as [|c t] eqn:E; [reflexivity|].
  cbn [lstrip]. rewrite (lstrip_head s c t E). reflexivity.
Qed.

Lemma lstrip_app (a b : str) :
  lstrip (a ++ b) = if forallb isspace a then lstrip b else lstrip a ++ b.
Proof.
  induction a as [|c a IH]; [reflexivity|].
  cbn [app lstrip forallb]. destruct (isspace c); [exact IH | reflexivity].
Qed.

Lemma lstrip_all_space (a : str) : forallb isspace a = true -> lstrip a = [].
Proof.
  induction a as [|c a IH]; [reflexivity|].
  cbn [forallb lstrip]. destruct (isspace c); [exact IH | discriminate].
Qed.

Lemma rstrip_cons (c : char) (t : str) : isspace c = false -> rstrip (c :: t) = c :: rstrip t.
Proof.
  intros Hc. unfold rstrip. cbn [rev]. rewrite lstrip_app.
  destruct (forallb isspace (rev t)) eqn:E.
  - rewrite (lstrip_all_space _ E). cbn [lstrip]. rewrite Hc. reflexivity.
  - rewrite rev_app_distr. reflexivity.
Qed.

Lemma rstrip_idempotent (s : str) : rstrip (rstrip s) = rstrip s.
Proof. unfold rstrip. rewrite rev_involutive, lstrip_idempotent. reflexivity. Qed.

Lemma strip_idempotent (s : str) : strip (strip s) = strip s.
Proof.
  unfold strip.
  assert (H : lstrip (rstrip (lstrip s)) = rstrip (lstrip s)).
  { destruct (lstrip s) as [|c t] eqn:E; [reflexivity|].
    pose proof (lstrip_head s c t E) as Hc.
    rewrite (rstrip_cons c t Hc). cbn [lstrip]. rewrite Hc. reflexivity. }
  rewrite H. apply rstrip_idempotent.
Qed.

(** *** The forbidden neighbourhoods pass to every factor *)

Lemma span_app_le (cls : char -> bool) (a b : str) : span cls a <= span cls (a ++ b).
Proof.
  induction a as [|c a IH]; [simpl; lia|].
  cbn [app]. rewrite !span_cons. destruct (cls c); lia.
Qed.

Lemma leb_false_mono (n a b : nat) : a <= b -> (n <=? b) = false -> (n <=? a) = false.
Proof. intros H Hb. apply Nat.leb_gt in Hb. apply Nat.leb_gt. lia. Qed.

Lemma ws_before_nl_app (a b : str) :
  ws_before_nl (a ++ b) = false -> ws_before_nl a = false /\ ws_before_nl b = false.
Proof.
  induction a as [|c a IH]; intros H; [split; [reflexivity | exact H]|].
  cbn [app] in H. rewrite ws_before_nl_cons in H |- *.
  both_false H as [Hc Hs].
  destruct (IH Hs) as [Ha Hb]. split; [|exact Hb].
  rewrite Ha, orb_false_r. destruct (blank c); [|reflexivity].
  cbn [andb] in Hc |- *. exact (leb_false_mono 1 _ _ (span_app_le is_nl a b) Hc).
Qed.

Lemma blank_pair_app (a b : str) :
  blank_pair (a ++ b) = false -> blank_pair a = false /\ blank_pair b = false.
Proof.
  induction a as [|c a IH]; intros H; [split; [reflexivity | exact H]|].
  cbn [app] in H. rewrite blank_pair_cons in H |- *.
  both_false H as [Hc Hs].
  destruct (IH Hs) as [Ha Hb]. split; [|exact Hb].
  rewrite Ha, orb_false_r. destruct (blank c); [|reflexivity].
  cbn [andb] in Hc |- *. exact (leb_false_mono 1 _ _ (span_app_le blank a b) Hc).
Qed.

Lemma nl_triple_app (a b : str) :
  nl_triple (a ++ b) = false -> nl_triple a = false /\ nl_triple b = false.
Proof.
  induction a as [|c a IH]; intros H; [split; [reflexivity | exact H]|].
  cbn [app] in H. rewrite nl_triple_cons in H |- *.
  both_false H as [Hc Hs].
  destruct (IH Hs) as [Ha Hb]. split; [|exact Hb].
  rewrite Ha, orb_false_r. destruct (is_nl c); [|reflexivity].
  cbn [andb] in Hc |- *. exact (leb_false_mono 2 _ _ (span_app_le is_nl a b) Hc).
Qed.

Lemma has_cr_factor (pre u post : str) : has_cr (pre ++ u ++ post) = false -> has_cr u = false.
Proof.
  rewrite !has_cr_app. intros H.
  both_false H as [_ H].
  both_false H as [H _]. exact H.
Qed.

(** *** Normal forms of [clean_text] *)

Lemma clean_text_cleaned (s : str) : cleaned (clean_text s).
Proof.
  destruct s as [|c0 s0]; [constructor; reflexivity|].
  unfold clean_text. set (s := c0 :: s0).
  set (s2 := replace [CR] [NL] (replace [CR; NL] [NL] s)).
  set (s3 := sub (match_at blank 1 [NL]) [NL] s2).
  set (s4 := sub (match_at is_nl 3 []) [NL; NL] s3).
  set (s5 := sub (match_at blank 2 []) [SP] s4).
  assert (Hcr : has_cr s5 = false).
  { repeat (apply sub_from_has_cr; [reflexivity|]). apply replace_cr_removes. }
  destruct (sub_trailing_spec s2 0 (or_introl eq_refl)) as [Hws3 _].
  destruct (sub_newlines_spec s3 0 (or_introl eq_refl)) as (_ & Htri4 & Hws4).
  destruct (sub_blanks_spec s4 0 (or_introl eq_refl)) as (_ & _ & Hpair5 & Hws5 & Htri5).
  change (sub_trailing 0 s2) with s3 in Hws3.
  specialize (Hws4 Hws3). change (sub_newlines 0 s3) with s4 in Htri4, Hws4.
  specialize (Hws5 Hws4). specialize (Htri5 Htri4).
  change (sub_blanks 0 s4) with s5 in Hpair5, Hws5, Htri5.
  destruct (strip_factor s5) as (pre & post & Hfac).
  rewrite Hfac in Hcr, Hws5, Htri5, Hpair5.
  constructor.
  - exact (has_cr_factor _ _ _ Hcr).
  - apply ws_before_nl_app in Hws5. destruct Hws5 as [_ H].
    apply ws_before_nl_app in H. tauto.
  - apply nl_triple_app in Htri5. destruct Htri5 as [_ H].
    apply nl_triple_app in H. tauto.
  - apply blank_pair_app in Hpair5. destruct Hpair5 as [_ H].
    apply blank_pair_app in H. tauto.
  - apply strip_idempotent.
Qed.

Lemma cleaned_fixed (s : str) : cleaned s -> clean_text s = s.
Proof.
  intros [Hcr Hws Htri Hpair Hstrip].
  destruct s as [|c0 s0]; [reflexivity|].
  unfold clean_text. set (s := c0 :: s0) in *.
  rewrite (replace_cr_free [NL] [NL] s Hcr).
  rewrite (replace_cr_free [] [NL] s Hcr).
  rewrite (sub_no_match (match_at blank 1 [NL]) [NL] (fun t => ws_before_nl t = false));
    [ | | | exact Hws].
  - rewrite (sub_no_match (match_at is_nl 3 []) [NL; NL] (fun t => nl_triple t = false));
      [ | | | exact Htri].
    + rewrite (sub_no_match (match_at blank 2 []) [SP] (fun t => blank_pair t = false));
        [exact Hstrip | | | exact Hpair].
      * intros c t H. rewrite blank_pair_cons in H. apply orb_false_iff in H. tauto.
      * intros t H. rewrite match_run.
        apply blank_pair_free_span in H.
        destruct (span blank t <? 2) eqn:E; [reflexivity|]. apply Nat.ltb_ge in E. lia.
    + intros c t H. rewrite nl_triple_cons in H. apply orb_false_iff in H. tauto.
    + intros t H. rewrite match_run.
      apply nl_triple_free_span in H.
      destruct (span is_nl t <? 3) eqn:E; [reflexivity|]. apply Nat.ltb_ge in E. lia.
  - intros c t H. rewrite ws_before_nl_cons in H. apply orb_false_iff in H. tauto.
  - intros t H. rewrite match_blank_nl.
    destruct (1 <=? span blank t) eqn:E; [|reflexivity].
    apply Nat.leb_le in E. rewrite (ws_free_run_end t H E). reflexivity.
Qed.

(** C5. [clean_text] is idempotent: cleaning a text that is already clean
    changes nothing, for every string. *)
Theorem clean_text_idempotent (s : str) : clean_text (clean_text s) = clean_text s.
Proof. apply cleaned_fixed, clean_text_cleaned. Qed.

Example clean_text_sample :
  clean_text (lit "a  b " ++ [CR; NL; CR; NL; CR; NL; NL] ++ lit "  c" ++ [TAB; SP; NL] ++ lit " d  ")
  = lit "a b" ++ [NL; NL] ++ lit " c" ++ [NL] ++ lit " d".
Proof. reflexivity. Qed.

End CleanFacts.

(** ** Calls that may raise *)

(** A chain of calls returned: so did its first call. *)
Ltac bind_ok H :=
  match type of H with
  | bind ?m _ = Ok _ =>
      let x := fresh "x" in
      let E := fresh "E" in
      destruct m as [x|] eqn:E; cbn [bind] in H; [|discriminate H]
  end.

Section CallFacts.

Lemma snd_lbind {A B} (m : logged A) (k : A -> logged B) :
  snd (lbind m k) = bind (snd m) (fun a => snd (k a)).
Proof.
  destruct m as [l [a|e]]; cbn; [|reflexivity].
  destruct (k a); reflexivity.
Qed.

Lemma snd_lift {A} (r : pyresult A) : snd (lift r) = r.
Proof. reflexivity. Qed.

Lemma traverse_length {A B} (f : A -> pyresult B) (l : list A) (bs : list B) :
  traverse f l = Ok bs -> length bs = length l.
Proof.
  revert bs. induction l as [|a l IH]; intros bs; cbn [traverse].
  - intros E. injection E as <-. reflexivity.
  - destruct (f a) as [b|]; cbn [bind]; [|discriminate].
    destruct (traverse f l) as [bs'|]; cbn [bind]; [|discriminate].
    intros E. injection E as <-. cbn [length]. f_equal. apply IH. reflexivity.
Qed.

Lemma traverse_nth {A B} (f : A -> pyresult B) (l : list A) (bs : list B) :
  traverse f l = Ok bs ->
  forall i a, nth_error l i = Some a -> exists b, f a = Ok b /\ nth_error bs i = Some b.
Proof.
  revert bs. induction l as [|x l IH]; intros bs; cbn [traverse].
  - intros _ [|i] a H; discriminate.
  - destruct (f x) as [b|] eqn:Hx; cbn [bind]; [|discriminate].
    destruct (traverse f l) as [bs'|]; cbn [bind]; [|discriminate].
    intros E. injection E as <-. intros [|i] a H; cbn [nth_error] in *.
    + injection H as <-. exists b. split; [exact Hx | reflexivity].
    + apply (IH bs' eq_refl i a H).
Qed.

Lemma traverse_total {A B} (f : A -> pyresult B) (l : list A) :
  Forall (fun a => exists b, f a = Ok b) l -> exists bs, traverse f l = Ok bs.
Proof.
  induction 1 as [|a l [b Hb] _ [bs IH]].
  - exists []. reflexivity.
  - exists (b :: bs). cbn [traverse]. rewrite Hb. cbn [bind]. rewrite IH. reflexivity.
Qed.

End CallFacts.

(** ** The vector client *)

Section SearchFacts.

Import VectorClient.
Local Open Scope Z_scope.

Variable np_norm : list float -> float.
Variable np_divide : float -> float -> float.
Variable faiss_normalize_L2 : ndarray -> pyresult ndarray.

(** The TF-IDF rows are never divided by zero, and come back one per row of
    the vectorizer's output. *)
Lemma nonzero_norm_not_zero (norm : float) : PrimFloat.eqb (nonzero_norm norm) 0%float = false.
Proof.
  unfold nonzero_norm. destruct (PrimFloat.eqb norm 0%float) eqn:E; [reflexivity | exact E].
Qed.

Lemma normalize_rows_length (mat : ndarray) :
  length (normalize_rows np_norm np_divide mat) = length mat.
Proof. apply length_map. Qed.

(** C6. For every query, [search] with [k <= 0] (in particular [k = 0])
    returns exactly what [search] with [k = 1] returns. *)
Theorem search_clamps_k (self : client) (query : str) (k : Z) :
  k <= 0 ->
  search np_norm np_divide faiss_normalize_L2 self query k =
  search np_norm np_divide faiss_normalize_L2 self query 1.
Proof.
  intros Hk. unfold search.
  destruct (Z.leb_spec k 0); [reflexivity | lia].
Qed.

Lemma search_row_skip (self : client) (n : Z) (score : float) (idx : Z) :
  py_len (metadata self) = Ok n ->
  snd (search_row self score idx) =
    if in_range n (score, idx) then bind (row_hit self (score, idx)) (fun h => Ok (Some h))
    else Ok None.
Proof.
  intros Hn. unfold search_row, in_range, row_hit. cbn [fst snd].
  destruct (Z.ltb_spec idx 0) as [Hneg|Hpos].
  - destruct (Z.leb_spec 0 idx); [lia|]. reflexivity.
  - destruct (Z.leb_spec 0 idx); [|lia]. cbn [andb].
    rewrite snd_lbind, snd_lift, Hn. cbn [bind].
    rewrite Z.geb_leb.
    destruct (Z.leb_spec n idx) as [Hbig|Hin]; destruct (Z.ltb_spec idx n); try lia.
    + reflexivity.
    + rewrite snd_lbind, snd_lift.
      destruct (getitem_int (metadata self) idx) as [meta|e]; cbn [bind]; [|reflexivity].
      rewrite snd_lbind, snd_lift.
      destruct (make_hit score meta); reflexivity.
Qed.

Lemma search_rows_skip (self : client) (n : Z) (rows : list (float * Z)) :
  py_len (metadata self) = Ok n ->
  snd (search_rows self rows) = traverse (row_hit self) (filter (in_range n) rows).
Proof.
  intros Hn. induction rows as [|[score idx] rows IH]; [reflexivity|].
  cbn [search_rows filter].
  rewrite snd_lbind, (search_row_skip self n score idx Hn).
  destruct (in_range n (score, idx)).
  - cbn [traverse]. destruct (row_hit self (score, idx)) as [h|e]; cbn [bind]; [|reflexivity].
    rewrite snd_lbind, IH.
    destruct (traverse (row_hit self) (filter (in_range n) rows)); reflexivity.
  - cbn [bind]. rewrite snd_lbind, IH.
    destruct (traverse (row_hit self) (filter (in_range n) rows)); reflexivity.
Qed.

Lemma snd_search (self : client) (query : str) (k : Z) :
  snd (search np_norm np_divide faiss_normalize_L2 self query k) =
    bind (snd (embed_query np_norm np_divide faiss_normalize_L2 self query)) (fun qv =>
    bind (try_except (index_search (index self) qv (if k <=? 0 then 1 else k)) (fun e =>
            Raise (RuntimeError (lit "FAISS search failed: " ++ exn_str e)))) (fun DI =>
    snd (search_rows self (combine (fst DI) (snd DI))))).
Proof.
  unfold search. rewrite snd_lbind.
  destruct (snd (embed_query np_norm np_divide faiss_normalize_L2 self query)) as [qv|e];
    cbn [bind]; [|reflexivity].
  rewrite snd_lbind, snd_lift. reflexivity.
Qed.

Lemma make_hit_entry_ok (score : float) (meta : pyval) :
  entry_ok meta -> exists h, make_hit score meta = Ok h.
Proof.
  intros (kv & -> & Htext). unfold make_hit. cbn [get bind].
  destruct (lookup kv (lit "text")) as [[| | | |s| |]|]; try contradiction;
    try (eexists; reflexivity).
  unfold py_or. destruct (truthy (PStr s)); eexists; reflexivity.
Qed.

Lemma row_hit_in_range (self : client) (md : list pyval) (row : float * Z) :
  metadata self = PList md -> Forall entry_ok md ->
  in_range (len md) row = true -> exists h, row_hit self row = Ok h.
Proof.
  intros Hmd Hok Hin. unfold in_range in Hin.
  apply andb_true_iff in Hin. destruct Hin as [H0 Hn].
  apply Z.leb_le in H0. apply Z.ltb_lt in Hn.
  assert (E : (snd row <? 0) = false) by (apply Z.ltb_ge; lia).
  unfold row_hit. rewrite Hmd. unfold getitem_int. cbv zeta. rewrite !E.
  destruct (nth_error md (Z.to_nat (snd row))) as [meta|] eqn:Hnth.
  - cbn [bind]. apply make_hit_entry_ok.
    rewrite Forall_forall in Hok. apply Hok. eapply nth_error_In, Hnth.
  - apply nth_error_None in Hnth. unfold len in Hn. lia.
Qed.

(** C7. Whatever rows the index returns, [search] drops every row whose
    position is negative and every row whose position is at or beyond the
    length of the metadata, without raising on them, and builds its result
    from the remaining rows in the order the index returned them; over
    metadata entries as the build writes them the search returns one hit for
    each remaining row. *)
Theorem search_skips_unexplained_positions
    (self : client) (query : str) (k n : Z) (qv : ndarray) (D : list float) (I : list Z) :
  py_len (metadata self) = Ok n ->
  snd (embed_query np_norm np_divide faiss_normalize_L2 self query) = Ok qv ->
  index_search (index self) qv (if k <=? 0 then 1 else k) = Ok (D, I) ->
  snd (search np_norm np_divide faiss_normalize_L2 self query k)
    = traverse (row_hit self) (filter (in_range n) (combine D I)) /\
  (forall md, metadata self = PList md -> Forall entry_ok md ->
     exists hits,
       snd (search np_norm np_divide faiss_normalize_L2 self query k) = Ok hits /\
       length hits = length (filter (in_range n) (combine D I))).
Proof.
  intros Hn Hq HDI.
  assert (Hs : snd (search np_norm np_divide faiss_normalize_L2 self query k)
               = traverse (row_hit self) (filter (in_range n) (combine D I))).
  { rewrite snd_search, Hq. cbn [bind]. rewrite HDI. cbn [try_except bind fst snd].
    apply search_rows_skip, Hn. }
  split; [exact Hs|].
  intros md Hmd Hok. rewrite Hs.
  assert (Hlen : n = len md).
  { rewrite Hmd in Hn. cbn [py_len] in Hn. injection Hn as <-. reflexivity. }
  destruct (traverse_total (row_hit self) (filter (in_range n) (combine D I))) as [hits Hhits].
  - rewrite Forall_forall. intros row Hrow. apply filter_In in Hrow.
    destruct Hrow as [_ Hin]. rewrite Hlen in Hin.
    exact (row_hit_in_range self md row Hmd Hok Hin).
  - exists hits. split; [exact Hhits|]. exact (traverse_length _ _ _ Hhits).
Qed.

(** *** Excerpts *)

Lemma slice_to_len {A} (s : list A) (stop : Z) : 0 <= stop -> len (slice_to s stop) <= stop.
Proof.
  intros H. unfold slice_to, len.
  destruct (stop <? 0) eqn:E; [lia|].
  rewrite length_firstn. lia.
Qed.

Lemma py_slice_to_len (x y : pyval) (stop : Z) :
  0 <= stop -> py_slice_to x stop = Ok y -> exists n, py_len y = Ok n /\ n <= stop.
Proof.
  intros H. destruct x; cbn; intros E; try discriminate; injection E as <-; cbn;
    eexists; (split; [reflexivity | apply slice_to_len, H]).
Qed.

Lemma make_hit_excerpt (score : float) (meta : pyval) (h : hit) :
  make_hit score meta = Ok h -> exists n, py_len (excerpt h) = Ok n /\ n <= 800.
Proof.
  unfold make_hit. intros H. repeat bind_ok H.
  injection H as <-. cbn [excerpt].
  match goal with
  | E : py_slice_to _ 800 = Ok _ |- _ => apply (py_slice_to_len _ _ 800 ltac:(lia) E)
  end.
Qed.

Lemma search_row_excerpt (self : client) (score : float) (idx : Z) (h : hit) :
  snd (search_row self score idx) = Ok (Some h) ->
  exists n, py_len (excerpt h) = Ok n /\ n <= 800.
Proof.
  unfold search_row. destruct (idx <? 0); [discriminate|].
  rewrite snd_lbind, snd_lift.
  destruct (py_len (metadata self)) as [n|]; cbn [bind]; [|discriminate].
  destruct (idx >=? n); [discriminate|].
  rewrite snd_lbind, snd_lift.
  destruct (getitem_int (metadata self) idx) as [meta|]; cbn [bind]; [|discriminate].
  rewrite snd_lbind, snd_lift.
  destruct (make_hit score meta) as [h'|] eqn:Hh; cbn [bind]; [|discriminate].
  intros E. injection E as <-. eapply make_hit_excerpt, Hh.
Qed.

Lemma search_rows_excerpt (self : client) (rows : list (float * Z)) (results : list hit) :
  snd (search_rows self rows) = Ok results ->
  Forall (fun h => exists n, py_len (excerpt h) = Ok n /\ n <= 800) results.
Proof.
  revert results. induction rows as [|[score idx] rows IH]; intros results.
  - cbn. intros E. injection E as <-. constructor.
  - cbn [search_rows]. rewrite snd_lbind.
    destruct (snd (search_row self score idx)) as [r|] eqn:Hr; cbn [bind]; [|discriminate].
    rewrite snd_lbind.
    destruct (snd (search_rows self rows)) as [rest|]; cbn [bind]; [|discriminate].
    intros E. injection E as <-.
    specialize (IH rest eq_refl).
    destruct r as [h|]; [|exact IH].
    constructor; [|exact IH]. eapply search_row_excerpt, Hr.
Qed.

(** C8. In every list a successful [search] returns, the excerpt of every
    result has length at most 800, however long the stored text is. *)
Theorem search_excerpt_bound (self : client) (query : str) (k : Z) (results : list hit) :
  snd (search np_norm np_divide faiss_normalize_L2 self query k) = Ok results ->
  forall h, In h results -> exists n, py_len (excerpt h) = Ok n /\ n <= 800.
Proof.
  rewrite snd_search. intros H.
  destruct (snd (embed_query np_norm np_divide faiss_normalize_L2 self query)) as [qv|];
    cbn [bind] in H; [|discriminate].
  destruct (try_except _ _) as [DI|]; cbn [bind] in H; [|discriminate].
  apply search_rows_excerpt in H. rewrite Forall_forall in H. exact H.
Qed.

End SearchFacts.

Section SearchExamples.

Import VectorClient Sample.
Local Open Scope Z_scope.

Lemma search_clamps_k_witness :
  search sum_norm divide no_normalize skewed_client (lit "lease") 0 =
  search sum_norm divide no_normalize skewed_client (lit "lease") 1.
Proof.
  apply (search_clamps_k sum_norm divide no_normalize skewed_client (lit "lease") 0). lia.
Defined.

Lemma search_skips_unexplained_positions_witness :
  snd (search sum_norm divide no_normalize skewed_client (lit "lease") 4)
    = traverse (row_hit skewed_client) (filter (in_range 2) (combine scores positions)) /\
  (forall md, metadata skewed_client = PList md -> Forall entry_ok md ->
     exists hits,
       snd (search sum_norm divide no_normalize skewed_client (lit "lease") 4) = Ok hits /\
       length hits = length (filter (in_range 2) (combine scores positions))).
Proof.
  apply (search_skips_unexplained_positions sum_norm divide no_normalize
           skewed_client (lit "lease") 4 2 [[1%float]] scores positions);
    reflexivity.
Defined.

(** Of the four rows the index returns, the one beyond the metadata is logged
    and dropped, the sentinel is dropped silently, and the two neighbours
    stay in their order. *)
Example search_skewed_rows :
  search sum_norm divide no_normalize skewed_client (lit "lease") 4 =
    ([Log WARNING "FAISS returned index %d but metadata has %d entries; skipping"
          [PInt 7; PInt 2]],
     Ok [MkHit (PFloat 0.75%float) (PStr (lit "doc_chunk_1")) (PStr (lit "doc"))
               (PStr (lit "doc")) (PStr (lit "second")) PNone (PInt 1);
         MkHit (PFloat 0.125%float) (PStr (lit "doc_chunk_0")) (PStr (lit "doc"))
               (PStr (lit "doc")) (PStr (lit "first")) PNone (PInt 0)]).
Proof. reflexivity. Qed.

Lemma search_excerpt_bound_witness :
  exists n, py_len (excerpt long_hit) = Ok n /\ n <= 800.
Proof.
  apply (search_excerpt_bound sum_norm divide no_normalize long_client (lit "lease") 1 [long_hit]);
    [vm_compute; reflexivity | left; reflexivity].
Defined.

End SearchExamples.

(** ** The retrieval agent *)

Section RetrieveFacts.

Import VectorClient RetrievalAgent.
Local Open Scope Z_scope.

Variable np_norm : list float -> float.
Variable np_divide : float -> float -> float.
Variable faiss_normalize_L2 : ndarray -> pyresult ndarray.
Variable E : env.

Lemma get_client_cached (c : client) : get_client E (Some c) = (([], Ok c), Some c).
Proof. reflexivity. Qed.

Lemma get_client_init_raises (l : list logrec) (e : exn) :
  __init__ E (lit "all-MiniLM-L6-v2") None false = (l, Raise e) ->
  snd (fst (get_client E None)) = Raise (RuntimeError (load_failure e)).
Proof.
  intros H. unfold get_client. cbn [lbind logger].
  rewrite H. reflexivity.
Qed.

(** C2. For every query and every [top_k]: when the client cannot be
    initialised, and when the search on the client raises (in particular when
    the index search raises), [retrieve] returns a list of exactly one record
    whose title is ["ERROR"], whose excerpt carries the error message, whose
    score is [0] and whose [source_id], [path] and [chunk_index] are [None].
    [retrieve] itself returns a list in every case. *)
Theorem retrieve_returns_error_record (_client : option client) (query : str) (top_k : Z) :
  (forall l e,
     _client = None ->
     __init__ E (lit "all-MiniLM-L6-v2") None false = (l, Raise e) ->
     returned (retrieve np_norm np_divide faiss_normalize_L2 E _client query top_k) =
       [MkResult (PInt 0) PNone (PStr (lit "ERROR"))
          (PStr (lit "VectorClient initialization failed: " ++ load_failure e))
          PNone PNone]) /\
  (forall c e,
     snd (fst (get_client E _client)) = Ok c ->
     snd (search np_norm np_divide faiss_normalize_L2 c query top_k) = Raise e ->
     returned (retrieve np_norm np_divide faiss_normalize_L2 E _client query top_k) =
       [MkResult (PInt 0) PNone (PStr (lit "ERROR"))
          (PStr (lit "Vector search failed: " ++ exn_str e))
          PNone PNone]) /\
  (forall c l qv e,
     snd (fst (get_client E _client)) = Ok c ->
     embed_query np_norm np_divide faiss_normalize_L2 c query = (l, Ok qv) ->
     index_search (index c) qv (if top_k <=? 0 then 1 else top_k) = Raise e ->
     returned (retrieve np_norm np_divide faiss_normalize_L2 E _client query top_k) =
       [MkResult (PInt 0) PNone (PStr (lit "ERROR"))
          (PStr (lit "Vector search failed: " ++ lit "FAISS search failed: " ++ exn_str e))
          PNone PNone]).
Proof.
  split; [|split].
  - intros l e -> H. unfold retrieve, returned.
    pose proof (get_client_init_raises l e H) as Hg.
    destruct (get_client E None) as [[lg r] st]. cbn [fst snd] in Hg. subst r.
    reflexivity.
  - intros c e Hg Hs. unfold retrieve, returned.
    destruct (get_client E _client) as [[lg r] st]. cbn [fst snd] in Hg. subst r.
    destruct (search np_norm np_divide faiss_normalize_L2 c query top_k) as [ls rs].
    cbn [snd] in Hs. subst rs. reflexivity.
  - intros c l qv e Hg Hq Hi. unfold retrieve, returned.
    destruct (get_client E _client) as [[lg r] st]. cbn [fst snd] in Hg. subst r.
    unfold search. rewrite Hq. cbn [lbind lift]. rewrite Hi. reflexivity.
Qed.

(** A failed initialisation is not cached: the next call tries again. *)
Lemma retrieve_keeps_no_failed_client (l : list logrec) (e : exn) (query : str) (top_k : Z) :
  __init__ E (lit "all-MiniLM-L6-v2") None false = (l, Raise e) ->
  snd (retrieve np_norm np_divide faiss_normalize_L2 E None query top_k) = None.
Proof.
  intros H. unfold retrieve, get_client. cbn [lbind logger]. rewrite H. reflexivity.
Qed.

End RetrieveFacts.

Section RetrieveExamples.

Import VectorClient RetrievalAgent Sample.
Local Open Scope Z_scope.

Lemma retrieve_returns_error_record_witness :
  returned (retrieve sum_norm divide no_normalize missing_index_env None (lit "anything") 5) =
    [MkResult (PInt 0) PNone (PStr (lit "ERROR"))
       (PStr (lit "VectorClient initialization failed: " ++ load_failure index_not_found))
       PNone PNone].
Proof.
  apply (proj1 (retrieve_returns_error_record sum_norm divide no_normalize missing_index_env
                  None (lit "anything") 5) [] index_not_found);
    reflexivity.
Defined.

(** An index whose search raises. *)
Example retrieve_on_failing_search :
  returned (retrieve sum_norm divide no_normalize missing_index_env
              (Some (MkClient (PList two_entries)
                       (MkFaiss (fun _ _ => Raise (MkExn "RuntimeError" (lit "corrupted"))))
                       (injected constant_model)))
              (lit "anything") 5) =
    [MkResult (PInt 0) PNone (PStr (lit "ERROR"))
       (PStr (lit "Vector search failed: FAISS search failed: corrupted"))
       PNone PNone].
Proof. reflexivity. Qed.

End RetrieveExamples.

(** ** The constructor of the vector client *)

Section InitFacts.

Import VectorClient Sample.
Local Open Scope Z_scope.

(** C1 (as amended). When both files exist, FAISS is installed and the JSON
    content of the metadata file is not a list, the constructor logs a
    warning and goes on: it raises where the value has no length ([None], a
    boolean, a number), and for a JSON object or string it keeps the
    malformed metadata, so that with a readable index and an injected model
    the construction succeeds. *)
Theorem init_metadata_not_a_list
    (E : env) (model_name : str) (model : option Model) (use_chroma_fallback : bool)
    (metadata : pyval) :
  index_file_exists E = true -> meta_file_exists E = true -> faiss_available E = true ->
  json_load E = Ok metadata ->
  (forall l, metadata <> PList l) ->
  (forall e, py_len metadata = Raise e ->
     __init__ E model_name model use_chroma_fallback = ([not_a_list_warning], Raise e)) /\
  (forall n idx m,
     py_len metadata = Ok n -> read_index E = Ok idx -> model = Some m ->
     __init__ E model_name model use_chroma_fallback =
       ([not_a_list_warning;
         Log INFO "Loaded %d metadata entries" [PInt n];
         Log INFO "Loading FAISS index from %s" [PStr (index_file E)];
         Log INFO "Using injected embedding model" []],
        Ok (MkClient metadata idx (injected m)))).
Proof.
  intros Hi Hm Hf Hj Hnl. unfold __init__. rewrite Hi, Hm, Hf, Hj. cbn [negb orb lift lbind].
  assert (Hw : match metadata with
               | PList _ => ret tt
               | _ => logger WARNING
                        "metadata.json is not a list. Expecting list indexed by vector id." []
               end = ([not_a_list_warning], Ok tt)).
  { destruct metadata; try reflexivity. exfalso. eapply Hnl. reflexivity. }
  rewrite Hw. cbn [lbind app]. split.
  - intros e He. rewrite He. reflexivity.
  - intros n idx m Hn Hidx ->. rewrite Hn, Hidx. reflexivity.
Qed.

Lemma init_metadata_not_a_list_witness :
  __init__ object_metadata_env (lit "all-MiniLM-L6-v2") (Some constant_model) false =
    ([not_a_list_warning;
      Log INFO "Loaded %d metadata entries" [PInt 0];
      Log INFO "Loading FAISS index from %s" [PStr (index_file object_metadata_env)];
      Log INFO "Using injected embedding model" []],
     Ok (MkClient (PDict []) empty_index (injected constant_model))).
Proof.
  apply (proj2 (init_metadata_not_a_list object_metadata_env (lit "all-MiniLM-L6-v2")
                  (Some constant_model) false (PDict [])
                  eq_refl eq_refl eq_refl eq_refl
                  (fun l (H : PDict [] = PList l) =>
                     eq_ind (PDict []) (fun v => match v with PDict _ => True | _ => False end)
                            I (PList l) H)));
    reflexivity.
Defined.

(** C1 as first stated fails: with both files present and the JSON object
    [{}] as metadata, the constructor returns a client. *)
Lemma init_accepts_object_metadata :
  ~ (index_file_exists object_metadata_env = true ->
     meta_file_exists object_metadata_env = true ->
     json_load object_metadata_env = Ok (PDict []) ->
     (forall l, PDict [] <> PList l) ->
     exists e, snd (__init__ object_metadata_env (lit "all-MiniLM-L6-v2")
                      (Some constant_model) false) = Raise e).
Proof.
  intros H. destruct H as [e He]; try reflexivity; try discriminate.
Qed.

(** A JSON number as metadata does stop the constructor, at [len]. *)
Example init_rejects_number_metadata (E : env) :
  index_file_exists E = true -> meta_file_exists E = true -> faiss_available E = true ->
  json_load E = Ok (PInt 3) ->
  snd (__init__ E (lit "all-MiniLM-L6-v2") None false)
    = Raise (TypeError (PInt 3) "object has no len()").
Proof.
  intros Hi Hm Hf Hj. unfold __init__. rewrite Hi, Hm, Hf, Hj. reflexivity.
Qed.

End InitFacts.

(** ** The index build *)

Section BuildFacts.

Import CreateEmbeddings.

Variable faiss_available : bool.
Variable SentenceTransformer : pyresult (list pyval -> pyresult ndarray).
Variable normalize_row : list float -> list float.

(** The contract of [model.encode]: one row per input text. *)
Hypothesis encode_rows : forall encode texts embs,
  SentenceTransformer = Ok encode -> encode texts = Ok embs -> length embs = length texts.

Lemma build_faiss_index_vectors (embs : ndarray) (index : IndexFlatIP) :
  build_faiss_index faiss_available normalize_row embs = Ok index ->
  vectors index = map normalize_row embs.
Proof.
  unfold build_faiss_index. destruct (negb faiss_available); [discriminate|].
  intros E. injection E as <-. reflexivity.
Qed.

(** C3. For every batch of records, a completed build has inserted one vector
    per record, in the order of the records, and has written one metadata
    entry per record in the same order: the metadata list is as long as the
    index has vectors, and entry [i] projects the record whose text was
    embedded into vector [i]. *)
Theorem build_keeps_index_and_metadata_aligned (records : list pyval) (built : artifacts) :
  main faiss_available SentenceTransformer normalize_row records = Ok (Some built) ->
  exists encode, SentenceTransformer = Ok encode /\ aligned encode normalize_row records built.
Proof.
  unfold main. destruct records as [|r0 records0]; [discriminate|].
  set (records := r0 :: records0).
  destruct (traverse (fun r => getitem_str r "text") records) as [texts|] eqn:Htexts;
    cbn [bind]; [|discriminate].
  destruct SentenceTransformer as [encode|] eqn:Hst; cbn [bind]; [|discriminate].
  destruct (encode texts) as [embs|] eqn:Hembs; cbn [bind]; [|discriminate].
  destruct (build_faiss_index faiss_available normalize_row embs) as [index|] eqn:Hindex;
    cbn [bind]; [|discriminate].
  destruct (traverse minimal_meta records) as [entries|] eqn:Hmeta; cbn [bind]; [|discriminate].
  intros E. injection E as <-.
  exists encode. split; [reflexivity|].
  exists texts, embs, entries. cbn [meta_file index_file].
  pose proof (build_faiss_index_vectors embs index Hindex) as Hvec.
  pose proof (traverse_length _ _ _ Htexts) as Hlt.
  pose proof (traverse_length _ _ _ Hmeta) as Hlm.
  pose proof (encode_rows encode texts embs eq_refl Hembs) as Hle.
  repeat split; try assumption.
  - unfold ntotal. rewrite Hvec, length_map. congruence.
  - intros i rec Hrec.
    destruct (traverse_nth _ _ _ Htexts i rec Hrec) as (text & Htext & Hti).
    destruct (traverse_nth _ _ _ Hmeta i rec Hrec) as (entry & Hentry & Hei).
    assert (Hi : i < length embs).
    { rewrite Hle, Hlt. apply nth_error_Some. congruence. }
    destruct (nth_error embs i) as [row|] eqn:Hrow;
      [|apply nth_error_None in Hrow; lia].
    exists text, row, entry. repeat split; try assumption.
    rewrite Hvec. apply map_nth_error. exact Hrow.
Qed.

(** A build over chunk records completes whenever FAISS is installed and the
    model loads and encodes. *)
Lemma main_completes (records : list pyval) (encode : list pyval -> pyresult ndarray) :
  faiss_available = true ->
  SentenceTransformer = Ok encode ->
  records <> [] ->
  Forall (fun r => exists kv text, r = PDict kv /\ lookup kv (lit "text") = Some (PStr text))
         records ->
  (forall texts, exists embs, encode texts = Ok embs) ->
  exists built,
    main faiss_available SentenceTransformer normalize_row records = Ok (Some built).
Proof.
  intros Hf Hst Hne Hwf Henc.
  assert (Htexts : exists texts, traverse (fun r => getitem_str r "text") records = Ok texts).
  { clear Hne. induction Hwf as [|r rs (kv & text & -> & Hlk) _ [texts IH]].
    - exists []. reflexivity.
    - exists (PStr text :: texts). cbn [traverse getitem_str]. rewrite Hlk. cbn [bind].
      rewrite IH. reflexivity. }
  assert (Hmeta : exists entries, traverse minimal_meta records = Ok entries).
  { clear Hne Htexts. induction Hwf as [|r rs (kv & text & -> & Hlk) _ [entries IH]].
    - exists []. reflexivity.
    - eexists. cbn [traverse]. unfold minimal_meta at 1. cbn [get bind].
      rewrite Hlk. cbn [py_slice_to bind]. rewrite IH. reflexivity. }
  destruct Htexts as [texts Htexts]. destruct Hmeta as [entries Hmeta].
  destruct (Henc texts) as [embs' Hembs].
  unfold main. destruct records as [|r0 rs]; [contradiction|].
  rewrite Htexts, Hst. cbn [bind]. rewrite Hembs. cbn [bind].
  unfold build_faiss_index. rewrite Hf. cbn [negb bind]. rewrite Hmeta. cbn [bind].
  eexists. reflexivity.
Qed.

End BuildFacts.

Section BuildExamples.

Import CreateEmbeddings Sample.

Example build_two_records :
  main true (Ok constant_encode) (fun row => row) two_records =
    Ok (Some (MkArtifacts (MkIndex 1 [[1%float]; [1%float]]) (PList two_entries))).
Proof. reflexivity. Qed.

Lemma build_keeps_index_and_metadata_aligned_witness :
  exists encode, Ok constant_encode = Ok encode /\
    aligned encode (fun row => row) two_records
      (MkArtifacts (MkIndex 1 [[1%float]; [1%float]]) (PList two_entries)).
Proof.
  apply (build_keeps_index_and_metadata_aligned true (Ok constant_encode) (fun row => row)).
  - intros encode texts embs E H. injection E as <-. unfold constant_encode in H.
    injection H as <-. apply length_map.
  - reflexivity.
Defined.

End BuildExamples.

(** * Further properties of the code *)

(** ** More on the chunker *)

Section ChunkerFacts.

Local Open Scope nat_scope.

(** *** Blank and non-blank strings *)

Lemma nonblank_app (a b : str) : nonblank (a ++ b) = nonblank a || nonblank b.
Proof. apply existsb_app. Qed.

Lemma lstrip_blank (s : str) : nonblank s = false -> lstrip s = [].
Proof.
  induction s as [|c s IH]; [reflexivity|].
  cbn [nonblank existsb lstrip]. destruct (isspace c); cbn [negb orb]; [exact IH | discriminate].
Qed.

Lemma lstrip_nonblank (s : str) :
  nonblank s = true -> exists c t, lstrip s = c :: t /\ isspace c = false.
Proof.
  induction s as [|c s IH]; [discriminate|].
  cbn [nonblank existsb lstrip]. destruct (isspace c) eqn:E; cbn [negb orb].
  - exact IH.
  - intros _. exists c, s. split; [reflexivity | exact E].
Qed.

Lemma strip_nonempty (s : str) : nonempty (strip s) = nonblank s.
Proof.
  destruct (nonblank s) eqn:E.
  - destruct (lstrip_nonblank s E) as (c & t & Hl & Hc).
    unfold strip. rewrite Hl, (rstrip_cons c t Hc). reflexivity.
  - unfold strip. rewrite (lstrip_blank s E). reflexivity.
Qed.

Lemma lstrip_fixed (s : str) : lstrip (strip s) = strip s.
Proof.
  unfold strip. destruct (lstrip s) as [|c t] eqn:E; [reflexivity|].
  pose proof (lstrip_head s c t E) as Hc.
  rewrite (rstrip_cons c t Hc). cbn [lstrip]. rewrite Hc. reflexivity.
Qed.

Lemma nonblank_nonempty (s : str) : nonblank s = true -> nonempty s = true.
Proof. destruct s; [discriminate | reflexivity]. Qed.

(** *** Every chunk is trimmed and carries text *)

Lemma sealed_carries_text (cur : str) :
  nonblank cur = true -> nonempty (strip cur) = true /\ strip (strip cur) = strip cur.
Proof.
  intros H. split; [rewrite strip_nonempty; exact H | apply strip_idempotent].
Qed.

Lemma chunk_step_carries_text (max_chars overlap : Z) (st : chunker) (p : str) :
  carries_text st -> carries_text (chunk_step max_chars overlap st p).
Proof.
  intros [Hchunks Hcur]. unfold chunk_step.
  rewrite strip_nonempty.
  destruct (nonblank p) eqn:Hp; cbn [negb]; [|split; assumption].
  destruct ((len (current_chunk st) + len p + 2 >? max_chars)%Z && nonempty (current_chunk st))
    eqn:Hseal.
  - apply andb_true_iff in Hseal. destruct Hseal as [_ Hne].
    split; cbn [chunks current_chunk].
    + apply Forall_app. split; [assumption|].
      constructor; [apply sealed_carries_text, Hcur, Hne | constructor].
    + intros _. rewrite !nonblank_app, Hp, !orb_true_r. reflexivity.
  - destruct (nonempty (current_chunk st)) eqn:Hne; split; cbn [chunks current_chunk];
      try assumption; intros _.
    + rewrite !nonblank_app, Hp, !orb_true_r. reflexivity.
    + exact Hp.
Qed.

Lemma chunk_fold_carries_text (max_chars overlap : Z) (ps : list str) (st : chunker) :
  carries_text st -> carries_text (fold_left (chunk_step max_chars overlap) ps st).
Proof.
  revert st. induction ps as [|p ps IH]; intros st H; [exact H|].
  apply IH, chunk_step_carries_text, H.
Qed.

Lemma emitted_chunks_carry_text (text : str) (max_chars overlap : Z) :
  Forall (fun c => c <> [] /\ strip c = c) (chunk_text_by_paragraphs text max_chars overlap).
Proof.
  unfold chunk_text_by_paragraphs. destruct text as [|c0 text0]; [constructor|].
  set (st := chunk_loop max_chars overlap (split [NL; NL] (c0 :: text0))).
  assert (H : carries_text st).
  { apply chunk_fold_carries_text. split; [constructor | discriminate]. }
  destruct H as [Hchunks Hcur].
  assert (Hc : Forall (fun c => c <> [] /\ strip c = c) (chunks st)).
  { eapply Forall_impl; [|exact Hchunks]. intros c [Hne Hs]. split; [|exact Hs].
    destruct c; [discriminate | discriminate]. }
  destruct (nonempty (strip (current_chunk st))) eqn:Hlast; [|exact Hc].
  apply Forall_app. split; [exact Hc|].
  constructor; [|constructor]. split; [|apply strip_idempotent].
  destruct (strip (current_chunk st)); discriminate.
Qed.

(** X1. Whatever the text and the two sizes, no chunk that
    [chunk_text_by_paragraphs] returns is empty, and every one is trimmed:
    stripping it again changes nothing. *)
Theorem chunks_are_trimmed_and_nonempty (text : str) (max_chars overlap : Z) :
  Forall (fun c => c <> [] /\ strip c = c) (chunk_text_by_paragraphs text max_chars overlap).
Proof. apply emitted_chunks_carry_text. Qed.

(** *** Blank input *)

Lemma split_from_chars (sep : str) (P : char -> Prop) (s : str) : forall k cur,
  Forall P cur -> Forall P s -> Forall (Forall P) (split_from sep k cur s).
Proof.
  induction s as [|c s IH]; intros k cur Hcur Hs.
  - constructor; [exact Hcur | constructor].
  - inversion Hs as [|? ? Hc Hs']; subst.
    cbn [split_from]. destruct k as [|k]; [|apply IH; assumption].
    destruct (starts_with sep (c :: s)).
    + constructor; [exact Hcur|]. apply IH; [constructor | assumption].
    + apply IH; [|assumption]. apply Forall_app. split; [assumption|].
      constructor; [assumption | constructor].
Qed.

Lemma nonblank_false_iff (s : str) : nonblank s = false <-> Forall (fun c => isspace c = true) s.
Proof.
  induction s as [|c s IH]; cbn [nonblank existsb].
  - split; [constructor | reflexivity].
  - fold (nonblank s). destruct (isspace c) eqn:E; cbn [negb orb].
    + rewrite IH. split; [intros H; constructor; assumption | intros H; inversion H; assumption].
    + split; [discriminate|]. intros H. inversion H. congruence.
Qed.

Lemma chunk_fold_blank (max_chars overlap : Z) (ps : list str) (st : chunker) :
  Forall (fun p => nonblank p = false) ps ->
  fold_left (chunk_step max_chars overlap) ps st = st.
Proof.
  revert st. induction ps as [|p ps IH]; intros st H; [reflexivity|].
  inversion H as [|? ? Hp Hps]; subst. cbn [fold_left].
  unfold chunk_step at 2. rewrite strip_nonempty, Hp. cbn [negb]. apply IH, Hps.
Qed.

(** A text of whitespace only has no chunk. *)
Lemma blank_text_no_chunks (text : str) (max_chars overlap : Z) :
  nonblank text = false -> chunk_text_by_paragraphs text max_chars overlap = [].
Proof.
  intros H. unfold chunk_text_by_paragraphs. destruct text as [|c0 text0]; [reflexivity|].
  unfold chunk_loop. rewrite chunk_fold_blank; [reflexivity|].
  apply nonblank_false_iff in H.
  pose proof (split_from_chars [NL; NL] (fun c => isspace c = true) (c0 :: text0) 0 []
                (Forall_nil _) H) as Hs.
  eapply Forall_impl; [|exact Hs]. intros p Hp. apply nonblank_false_iff, Hp.
Qed.

End ChunkerFacts.

(** *** [split] and [join] *)

Section SplitJoin.

Local Open Scope nat_scope.

Lemma starts_with_app (p s : str) : starts_with p s = true -> s = p ++ skipn (length p) s.
Proof.
  revert s. induction p as [|x p IH]; intros s H; [reflexivity|].
  destruct s as [|y s]; [discriminate|]. cbn [starts_with] in H.
  apply andb_true_iff in H. destruct H as [Hxy Hp]. apply N.eqb_eq in Hxy. subst y.
  cbn [app length skipn]. f_equal. apply IH, Hp.
Qed.

Lemma starts_with_length (p s : str) : starts_with p s = true -> length p <= length s.
Proof.
  intros H. apply starts_with_app in H.
  assert (E : length s = length (p ++ skipn (length p) s)) by (rewrite <- H; reflexivity).
  rewrite length_app in E. lia.
Qed.

Lemma split_from_nonempty (sep : str) (s : str) : forall k cur, split_from sep k cur s <> [].
Proof.
  induction s as [|c s IH]; intros k cur; cbn [split_from]; [discriminate|].
  destruct k; [|apply IH]. destruct (starts_with sep (c :: s)); [discriminate | apply IH].
Qed.

Lemma join_cons (sep p : str) (rest : list str) :
  rest <> [] -> join sep (p :: rest) = p ++ sep ++ join sep rest.
Proof. destruct rest; [contradiction | reflexivity]. Qed.

Lemma join_split_from (sep : str) (s : str) : forall k cur,
  sep <> [] -> k <= length s ->
  join sep (split_from sep k cur s) = cur ++ skipn k s.
Proof.
  induction s as [|c s IH]; intros k cur Hsep Hk.
  - cbn [length] in Hk. replace k with 0 by lia. cbn. symmetry. apply app_nil_r.
  - cbn [split_from]. destruct k as [|k].
    + destruct (starts_with sep (c :: s)) eqn:Hm.
      * destruct sep as [|x sep']; [contradiction|].
        pose proof (starts_with_length _ _ Hm) as Hlen.
        pose proof (starts_with_app _ _ Hm) as Happ.
        cbn [length skipn] in Hlen, Happ.
        rewrite join_cons by apply split_from_nonempty.
        cbn [length Nat.sub]. rewrite Nat.sub_0_r.
        rewrite IH by (try discriminate; lia).
        cbn [app skipn] in Happ |- *. apply (f_equal (app cur)). symmetry. exact Happ.
      * rewrite IH by (assumption || lia). cbn [skipn]. rewrite <- app_assoc. reflexivity.
    + cbn [skipn]. apply IH; [assumption | cbn [length] in Hk; lia].
Qed.

(** Splitting and joining on the same separator gives the text back. *)
Lemma join_split (sep s : str) : sep <> [] -> join sep (split sep s) = s.
Proof.
  intros H. unfold split. rewrite join_split_from by (assumption || lia). reflexivity.
Qed.

End SplitJoin.

Section ChunkerShape.

Local Open Scope Z_scope.

(** *** A text that fits is one chunk *)

Lemma separated_length_nonneg (ps : list str) : 0 <= separated_length ps.
Proof.
  induction ps as [|p ps IH]; cbn [separated_length fold_right]; [lia|].
  fold (separated_length ps). pose proof (len_nonneg p). lia.
Qed.

Lemma len_join (ps : list str) :
  ps <> [] -> len (join [NL; NL] ps) + 2 = separated_length ps.
Proof.
  induction ps as [|p ps IH]; intros H; [contradiction|].
  cbn [separated_length fold_right]. fold (separated_length ps).
  destruct ps as [|q ps].
  - cbn [join separated_length fold_right]. lia.
  - rewrite join_cons by discriminate. rewrite !len_app.
    change (len [NL; NL]) with 2. rewrite <- IH by discriminate. lia.
Qed.

Lemma join_snoc (sep p : str) (ps : list str) :
  ps <> [] -> join sep (ps ++ [p]) = join sep ps ++ sep ++ p.
Proof.
  induction ps as [|q ps IH]; intros H; [contradiction|].
  destruct ps as [|r ps]; [reflexivity|].
  change ((q :: r :: ps) ++ [p]) with (q :: (r :: ps) ++ [p]).
  rewrite !join_cons by (try discriminate; destruct ps; discriminate).
  rewrite IH by discriminate. rewrite <- !app_assoc. reflexivity.
Qed.

Lemma join_nonempty (sep : str) (ps : list str) :
  ps <> [] -> Forall (fun p => nonblank p = true) ps -> nonblank (join sep ps) = true.
Proof.
  intros Hne H. destruct ps as [|p ps]; [contradiction|].
  inversion H as [|? ? Hp _]; subst.
  destruct ps; [exact Hp|].
  rewrite join_cons by discriminate. rewrite nonblank_app, Hp. reflexivity.
Qed.

Lemma chunk_fold_fits (max_chars overlap : Z) (rest : list str) : forall kept,
  Forall (fun p => nonblank p = true) kept ->
  len (join [NL; NL] kept) + separated_length rest
    <= max_chars + (match kept with [] => 2 | _ => 0 end) ->
  fold_left (chunk_step max_chars overlap) rest (MkChunker [] (join [NL; NL] kept))
    = MkChunker [] (join [NL; NL] (kept ++ filter nonblank rest)).
Proof.
  induction rest as [|p rest IH]; intros kept Hkept Hfit.
  - cbn [fold_left filter]. rewrite app_nil_r. reflexivity.
  - cbn [fold_left filter]. cbn [separated_length fold_right] in Hfit.
    fold (separated_length rest) in Hfit.
    pose proof (separated_length_nonneg rest) as Hrest.
    unfold chunk_step at 2. cbn [current_chunk chunks]. rewrite strip_nonempty.
    destruct (nonblank p) eqn:Hp; cbn [negb].
    + destruct kept as [|k0 kept0].
      * cbn [join nonempty andb app]. rewrite andb_false_r.
        apply (IH [p]); [constructor; [exact Hp | constructor]|].
        change (0 + (len p + 2 + separated_length rest) <= max_chars + 2) in Hfit.
        change (len p + separated_length rest <= max_chars + 0). lia.
      * change (len (join [NL; NL] (k0 :: kept0)) + (len p + 2 + separated_length rest)
                <= max_chars + 0) in Hfit.
        set (kept := k0 :: kept0) in *.
        assert (Hcur : nonempty (join [NL; NL] kept) = true).
        { apply nonblank_nonempty, join_nonempty; [discriminate | exact Hkept]. }
        rewrite Hcur, andb_true_r.
        destruct (Z.gtb_spec (len (join [NL; NL] kept) + len p + 2) max_chars); [lia|].
        replace (join [NL; NL] kept ++ [NL; NL] ++ p) with (join [NL; NL] (kept ++ [p]))
          by (apply join_snoc; discriminate).
        replace (kept ++ p :: filter nonblank rest) with ((kept ++ [p]) ++ filter nonblank rest)
          by (rewrite <- app_assoc; reflexivity).
        apply IH.
        -- apply Forall_app. split; [exact Hkept | constructor; [exact Hp | constructor]].
        -- rewrite join_snoc by discriminate. rewrite !len_app. change (len [NL; NL]) with 2.
           destruct (kept ++ [p]) eqn:E; [destruct kept; discriminate|]. lia.
    + apply IH; [exact Hkept|]. pose proof (len_nonneg p). destruct kept; lia.
Qed.

(** X2. A text no longer than [max_chars] is never cut: the chunker returns
    one chunk, the paragraphs that are not blank joined by blank lines and
    trimmed, or nothing when every paragraph is blank. The overlap plays no
    part. *)
Theorem fitting_text_is_one_chunk (text : str) (max_chars overlap : Z) :
  len text <= max_chars ->
  chunk_text_by_paragraphs text max_chars overlap =
    match kept_paragraphs text with
    | [] => []
    | kept => [strip (join [NL; NL] kept)]
    end.
Proof.
  intros Hfit. unfold chunk_text_by_paragraphs, kept_paragraphs.
  destruct text as [|c0 text0]; [reflexivity|].
  set (text := c0 :: text0) in *.
  unfold chunk_loop.
  change (MkChunker [] []) with (MkChunker [] (join [NL; NL] [])).
  rewrite chunk_fold_fits.
  - cbn [app current_chunk chunks].
    destruct (filter nonblank (split [NL; NL] text)) as [|k kept] eqn:E; [reflexivity|].
    rewrite strip_nonempty, join_nonempty; [reflexivity | discriminate |].
    rewrite <- E. apply Forall_forall. intros p Hp. apply filter_In in Hp. tauto.
  - constructor.
  - cbn [join]. change (len (@nil char)) with 0.
    rewrite <- len_join by apply split_from_nonempty.
    rewrite join_split by discriminate. lia.
Qed.

(** *** No more chunks than paragraphs *)

Lemma chunk_fold_count (max_chars overlap : Z) (rest : list str) : forall st n,
  (length (chunks st) + open_chunk st <= n)%nat ->
  (length (chunks (fold_left (chunk_step max_chars overlap) rest st))
   + open_chunk (fold_left (chunk_step max_chars overlap) rest st)
   <= n + length (filter nonblank rest))%nat.
Proof.
  induction rest as [|p rest IH]; intros st n H; [cbn [fold_left filter length]; lia|].
  cbn [fold_left filter].
  assert (Hstep : (length (chunks (chunk_step max_chars overlap st p))
                   + open_chunk (chunk_step max_chars overlap st p)
                   <= n + (if nonblank p then 1 else 0))%nat).
  { unfold chunk_step. rewrite strip_nonempty.
    destruct (nonblank p) eqn:Hp; cbn [negb]; [|lia].
    unfold open_chunk in *.
    destruct (nonempty (current_chunk st)) eqn:Hne; rewrite ?andb_true_r, ?andb_false_r;
      rewrite ?Hne in H.
    - assert (Hx : forall a : str, nonempty (a ++ [NL; NL] ++ p) = true)
        by (intros a; destruct a; reflexivity).
      destruct (len (current_chunk st) + len p + 2 >? max_chars);
        cbn [chunks current_chunk]; rewrite ?length_app, Hx; cbn [length]; lia.
    - cbn [chunks current_chunk]. rewrite (nonblank_nonempty p Hp). lia. }
  specialize (IH _ _ Hstep).
  destruct (nonblank p); cbn [length]; lia.
Qed.

(** X3. The chunker never returns more chunks than the text has paragraphs
    that are not blank: a chunk is sealed only when a further paragraph
    arrives. *)
Theorem chunk_count_bound (text : str) (max_chars overlap : Z) :
  (length (chunk_text_by_paragraphs text max_chars overlap)
   <= length (kept_paragraphs text))%nat.
Proof.
  unfold chunk_text_by_paragraphs, kept_paragraphs.
  destruct text as [|c0 text0]; [cbn; lia|].
  set (ps := split [NL; NL] (c0 :: text0)).
  pose proof (chunk_fold_count max_chars overlap ps (MkChunker [] []) 0%nat
                ltac:(cbn; lia)) as H.
  cbn [Nat.add] in H.
  fold (chunk_loop max_chars overlap ps) in H.
  set (st := chunk_loop max_chars overlap ps) in *.
  unfold open_chunk in H.
  destruct (nonempty (strip (current_chunk st))) eqn:Hlast.
  - rewrite length_app. cbn [length].
    destruct (nonempty (current_chunk st)) eqn:Hne; [lia|].
    destruct (current_chunk st); discriminate.
  - destruct (nonempty (current_chunk st)); lia.
Qed.

End ChunkerShape.

Section ChunkerExamples.

Import Sample.
Local Open Scope Z_scope.

Lemma fitting_text_is_one_chunk_witness :
  chunk_text_by_paragraphs two_paragraphs 10 2 = [two_paragraphs].
Proof.
  exact (fitting_text_is_one_chunk two_paragraphs 10 2 ltac:(vm_compute; discriminate)).
Defined.

End ChunkerExamples.

Section Coverage.

Local Open Scope nat_scope.

Lemma lstrip_keeps (x q y : str) (c : char) (t : str) :
  q = c :: t -> isspace c = false -> exists x', lstrip (x ++ q ++ y) = x' ++ q ++ y.
Proof.
  intros -> Hc. rewrite lstrip_app. destruct (forallb isspace x).
  - exists []. cbn [app lstrip]. rewrite Hc. reflexivity.
  - exists (lstrip x). reflexivity.
Qed.

Lemma rstrip_keeps (x q y : str) (c : char) (t : str) :
  rev q = c :: t -> isspace c = false -> exists y', rstrip (x ++ q ++ y) = x ++ q ++ y'.
Proof.
  intros Hq Hc. unfold rstrip. rewrite !rev_app_distr, <- app_assoc.
  destruct (lstrip_keeps (rev y) (rev q) (rev x) c t Hq Hc) as [y' Hy].
  rewrite Hy. exists (rev y'). rewrite !rev_app_distr, rev_involutive, rev_involutive.
  rewrite <- app_assoc. reflexivity.
Qed.

Lemma stripped_ends (p : str) :
  nonblank p = true ->
  exists c t c' t', strip p = c :: t /\ isspace c = false /\
                    rev (strip p) = c' :: t' /\ isspace c' = false.
Proof.
  intros Hp.
  assert (Hne : nonempty (strip p) = true) by (rewrite strip_nonempty; exact Hp).
  assert (Hl : lstrip (strip p) = strip p) by apply lstrip_fixed.
  assert (Hr : lstrip (rev (strip p)) = rev (strip p)).
  { pose proof (rstrip_idempotent (lstrip p)) as H. fold (strip p) in H.
    unfold rstrip at 1 in H. apply (f_equal (@rev char)) in H.
    rewrite rev_involutive in H. exact H. }
  remember (strip p) as q eqn:Eq. clear Eq.
  destruct q as [|c t]; [discriminate|].
  destruct (rev (c :: t)) as [|c' t'] eqn:E'.
  - apply (f_equal (@rev char)) in E'. rewrite rev_involutive in E'. discriminate.
  - exists c, t, c', t'. repeat split.
    + apply (lstrip_head (c :: t) c t Hl).
    + apply (lstrip_head (c' :: t') c' t' Hr).
Qed.

Lemma strip_infix (p s : str) :
  nonblank p = true -> infix p s -> infix (strip p) (strip s).
Proof.
  intros Hp (a & b & ->).
  destruct (strip_factor p) as (l & r & Hfac).
  destruct (stripped_ends p Hp) as (c & t & c' & t' & Hq & Hc & Hq' & Hc').
  remember (strip p) as q eqn:Eq. clear Eq. subst p.
  replace (a ++ (l ++ q ++ r) ++ b) with ((a ++ l) ++ q ++ (r ++ b))
    by (rewrite <- !app_assoc; reflexivity).
  unfold strip.
  destruct (lstrip_keeps (a ++ l) q (r ++ b) c t Hq Hc) as [x' Hx].
  rewrite Hx.
  destruct (rstrip_keeps x' q (r ++ b) c' t' Hq' Hc') as [y' Hy].
  rewrite Hy. exists x', y'. reflexivity.
Qed.

Lemma infix_nonblank (p s : str) : nonblank p = true -> infix p s -> nonblank s = true.
Proof.
  intros Hp (a & b & ->). rewrite !nonblank_app, Hp, orb_true_r. reflexivity.
Qed.

Lemma chunk_step_keeps_covered (max_chars overlap : Z) (st : chunker) (p q : str) :
  nonblank q = true -> covered st q -> covered (chunk_step max_chars overlap st p) q.
Proof.
  intros Hq Hcov. unfold chunk_step.
  destruct (negb (nonempty (strip p))); [exact Hcov|].
  destruct ((len (current_chunk st) + len p + 2 >? max_chars)%Z && nonempty (current_chunk st)).
  - left. cbn [chunks]. apply Exists_app. destruct Hcov as [H|H]; [left; exact H|].
    right. constructor. apply strip_infix; assumption.
  - destruct Hcov as [H|H]; [left; destruct (nonempty _); exact H|].
    destruct (nonempty (current_chunk st)) eqn:Hne.
    + right. cbn [current_chunk]. destruct H as (a & b & E). rewrite E.
      exists a, (b ++ [NL; NL] ++ p). rewrite <- !app_assoc. reflexivity.
    + destruct (current_chunk st); [|discriminate].
      pose proof (infix_nonblank q [] Hq H). discriminate.
Qed.

Lemma chunk_step_covers (max_chars overlap : Z) (st : chunker) (p : str) :
  nonblank p = true -> covered (chunk_step max_chars overlap st p) p.
Proof.
  intros Hp. right. unfold chunk_step. rewrite strip_nonempty, Hp. cbn [negb].
  destruct ((len (current_chunk st) + len p + 2 >? max_chars)%Z && nonempty (current_chunk st));
    [|destruct (nonempty (current_chunk st))]; cbn [current_chunk].
  - exists (overlap_text (current_chunk st) overlap ++ [NL; NL]), [].
    rewrite app_nil_r, <- app_assoc. reflexivity.
  - exists (current_chunk st ++ [NL; NL]), [].
    rewrite app_nil_r, <- app_assoc. reflexivity.
  - exists [], []. rewrite app_nil_r. reflexivity.
Qed.

Lemma chunk_fold_covers (max_chars overlap : Z) (rest : list str) : forall st done,
  Forall (fun p => nonblank p = true -> covered st p) done ->
  Forall (fun p => nonblank p = true ->
                   covered (fold_left (chunk_step max_chars overlap) rest st) p)
         (done ++ rest).
Proof.
  induction rest as [|p rest IH]; intros st done H.
  - rewrite app_nil_r. exact H.
  - cbn [fold_left].
    replace (done ++ p :: rest) with ((done ++ [p]) ++ rest)
      by (rewrite <- app_assoc; reflexivity).
    apply IH. apply Forall_app. split.
    + eapply Forall_impl; [|exact H]. intros q Hq Hnb.
      apply chunk_step_keeps_covered; [exact Hnb | apply Hq, Hnb].
    + constructor; [|constructor]. apply chunk_step_covers.
Qed.

(** X4. No paragraph is lost: every paragraph of the text that is not blank
    occurs, trimmed, inside one of the chunks returned, whatever the sizes. *)
Theorem every_paragraph_reaches_a_chunk (text : str) (max_chars overlap : Z) (p : str) :
  In p (kept_paragraphs text) ->
  exists c, In c (chunk_text_by_paragraphs text max_chars overlap) /\ infix (strip p) c.
Proof.
  unfold kept_paragraphs. intros Hin. apply filter_In in Hin. destruct Hin as [Hin Hp].
  unfold chunk_text_by_paragraphs.
  destruct text as [|c0 text0].
  { cbn in Hin. destruct Hin as [<-|[]]. discriminate. }
  set (ps := split [NL; NL] (c0 :: text0)) in *.
  pose proof (chunk_fold_covers max_chars overlap ps (MkChunker [] []) [] (Forall_nil _)) as H.
  cbn [app] in H. fold (chunk_loop max_chars overlap ps) in H.
  set (st := chunk_loop max_chars overlap ps) in *.
  rewrite Forall_forall in H. destruct (H p Hin Hp) as [Hc|Hc].
  - apply Exists_exists in Hc. destruct Hc as (c & Hc & Hinf).
    exists c. split; [|exact Hinf].
    destruct (nonempty (strip (current_chunk st))); [apply in_or_app; left|]; exact Hc.
  - rewrite strip_nonempty, (infix_nonblank p _ Hp Hc).
    exists (strip (current_chunk st)). split.
    + apply in_or_app. right. left. reflexivity.
    + apply strip_infix; assumption.
Qed.

End Coverage.

Section CoverageExamples.

Import Sample.
Local Open Scope Z_scope.

Lemma every_paragraph_reaches_a_chunk_witness :
  exists c, In c (chunk_text_by_paragraphs two_paragraphs 3 0) /\ infix (strip (lit "cd")) c.
Proof.
  apply (every_paragraph_reaches_a_chunk two_paragraphs 3 0 (lit "cd")).
  vm_compute. right; left; reflexivity.
Defined.

End CoverageExamples.

(** ** Files in, chunk records out *)

Section IngestFacts.

Import ProcessFile.
Local Open Scope Z_scope.

(** *** Decimal rendering *)

Lemma lit_inj (a b : string) : lit a = lit b -> a = b.
Proof.
  unfold lit. intros H.
  rewrite <- (string_of_list_ascii_of_string a), <- (string_of_list_ascii_of_string b).
  f_equal. revert H. generalize (list_ascii_of_string a) (list_ascii_of_string b).
  induction l as [|x l IH]; intros [|y l'] H; try discriminate; [reflexivity|].
  cbn [map] in H. injection H as Hxy Hl. f_equal; [|apply IH, Hl].
  rewrite <- (ascii_N_embedding x), <- (ascii_N_embedding y). f_equal. exact Hxy.
Qed.

Lemma to_int_proper (z : Z) : Z.to_int z <> Decimal.Pos Decimal.Nil /\ Z.to_int z <> Decimal.Neg Decimal.Nil.
Proof.
  destruct z as [|p|p]; cbn; split; try discriminate; intros H; injection H as H;
    exact (DecimalPos.Unsigned.to_uint_nonnil p H).
Qed.

Lemma decimal_inj (i j : Z) : decimal i = decimal j -> i = j.
Proof.
  unfold decimal. intros H. apply lit_inj in H.
  apply DecimalZ.to_int_inj.
  destruct (to_int_proper i) as [Hi Hi']. destruct (to_int_proper j) as [Hj Hj'].
  pose proof (NilZero.isi _ Hi Hi') as Ei. pose proof (NilZero.isi _ Hj Hj') as Ej.
  rewrite H in Ei. rewrite Ei in Ej. injection Ej as Ej. exact Ej.
Qed.

(** *** The records of a file *)

Lemma enumerate_nth {A} (l : list A) : forall start i a,
  nth_error l i = Some a -> nth_error (enumerate start l) i = Some (start + Z.of_nat i, a).
Proof.
  induction l as [|x l IH]; intros start i a H; [destruct i; discriminate|].
  destruct i as [|i]; cbn [nth_error enumerate] in *.
  - injection H as <-. rewrite Z.add_0_r. reflexivity.
  - rewrite (IH (start + 1) i a H). f_equal. f_equal. lia.
Qed.

Lemma write_chunks (stem : str) (ics : list (Z * str)) : forall written,
  Forall (fun ic => snd ic <> [] /\ strip (snd ic) = snd ic) ics ->
  fold_left (write_chunk stem) ics written
    = written ++ map (fun ic => rec stem (fst ic) (snd ic)) ics.
Proof.
  induction ics as [|[i c] ics IH]; intros written H; cbn [fold_left map].
  - rewrite app_nil_r. reflexivity.
  - inversion H as [|? ? [Hne Hs] Hrest]; subst. cbn [fst snd] in *.
    unfold write_chunk at 2. cbn [fst snd]. rewrite Hs.
    destruct c as [|c0 c]; [contradiction|]. cbn [nonempty negb].
    rewrite IH by exact Hrest. rewrite <- app_assoc. reflexivity.
Qed.

Lemma enumerate_snd {A} (P : A -> Prop) (l : list A) : forall start,
  Forall P l -> Forall (fun ic => P (snd ic)) (enumerate start l).
Proof.
  induction l as [|a l IH]; intros start H; cbn [enumerate]; [constructor|].
  inversion H; subst. constructor; [assumption | apply IH; assumption].
Qed.

Lemma enumerate_length {A} (l : list A) : forall start, length (enumerate start l) = length l.
Proof. induction l as [|a l IH]; intros start; cbn [enumerate length]; [reflexivity | f_equal; apply IH]. Qed.

(** X5. For a file with text, [process_file] writes exactly one record per
    chunk, in order, and record [i] carries chunk [i] under [chunk_index = i]:
    the guard that skips empty chunks never fires. The number returned is
    the number of chunks, with or without [dry_run], and a dry run opens no
    file. *)
Theorem process_file_numbers_chunks (text stem : str) (max_chars overlap : Z) :
  text <> [] ->
  exists lines,
    process_file (Ok text) stem max_chars overlap false
      = Ok (len (chunk_text_by_paragraphs (clean_text text) max_chars overlap), Some lines) /\
    process_file (Ok text) stem max_chars overlap true
      = Ok (len (chunk_text_by_paragraphs (clean_text text) max_chars overlap), None) /\
    forall i c,
      nth_error (chunk_text_by_paragraphs (clean_text text) max_chars overlap) i = Some c ->
      nth_error lines i = Some (rec stem (Z.of_nat i) c).
Proof.
  intros Hne. unfold process_file. cbn [bind].
  destruct text as [|c0 text0]; [contradiction|]. cbn [nonempty negb].
  set (chunks := chunk_text_by_paragraphs (clean_text (c0 :: text0)) max_chars overlap).
  pose proof (emitted_chunks_carry_text (clean_text (c0 :: text0)) max_chars overlap) as Hch.
  fold chunks in Hch.
  rewrite write_chunks by (apply (enumerate_snd (fun c => c <> [] /\ strip c = c)); exact Hch).
  cbn [app].
  eexists. split; [|split; [reflexivity|]].
  - unfold len. rewrite length_map, enumerate_length. reflexivity.
  - intros i c Hi. erewrite map_nth_error; [|apply enumerate_nth; exact Hi].
    reflexivity.
Qed.

Lemma record_ids_from (stem : str) (l : list str) : forall start x,
  In x (map (fun ic => record_id (rec stem (fst ic) (snd ic))) (enumerate start l)) ->
  exists i, start <= i /\ x = PStr (stem ++ lit "_chunk_" ++ decimal i).
Proof.
  induction l as [|c l IH]; intros start x H; [contradiction|].
  cbn [enumerate map] in H. destruct H as [<-|H].
  - exists start. split; [lia | reflexivity].
  - destruct (IH _ _ H) as (i & Hi & ->). exists i. split; [lia | reflexivity].
Qed.

Lemma record_ids_distinct (stem : str) (l : list str) : forall start,
  NoDup (map (fun ic => record_id (rec stem (fst ic) (snd ic))) (enumerate start l)).
Proof.
  induction l as [|c l IH]; intros start; cbn [enumerate map]; constructor.
  - intros H. destruct (record_ids_from _ _ _ _ H) as (i & Hi & E).
    cbn in E. injection E as E. apply app_inv_head in E.
    apply (app_inv_head (lit "_chunk_")) in E.
    apply decimal_inj in E. lia.
  - apply IH.
Qed.

(** X6. The records [process_file] writes for one file have pairwise
    distinct ids. *)
Theorem process_file_ids_distinct (text stem : str) (max_chars overlap : Z) (n : Z)
    (lines : list pyval) :
  process_file (Ok text) stem max_chars overlap false = Ok (n, Some lines) ->
  NoDup (map record_id lines).
Proof.
  unfold process_file. cbn [bind].
  destruct (negb (nonempty text)); [discriminate|].
  set (chunks := chunk_text_by_paragraphs (clean_text text) max_chars overlap).
  pose proof (emitted_chunks_carry_text (clean_text text) max_chars overlap) as Hch.
  fold chunks in Hch.
  rewrite write_chunks by (apply (enumerate_snd (fun c => c <> [] /\ strip c = c)); exact Hch).
  cbn [app]. intros E. injection E as _ <-. rewrite map_map.
  apply record_ids_distinct.
Qed.

(** *** Reading a text file *)

(** X7. The text branch of [load_text] removes every leading byte order
    mark, and nothing else: what it returns does not start with one, and the
    file content is that text behind some number of marks. *)
Theorem load_text_file_strips_bom (raw : str) :
  starts_with [BOM] (load_text_file raw) = false /\
  exists n, raw = repeat BOM n ++ load_text_file raw.
Proof.
  unfold load_text_file. destruct (starts_with [BOM] raw) eqn:E.
  - clear E. induction raw as [|c raw [IH1 [n IH2]]].
    + split; [reflexivity | exists 0%nat; reflexivity].
    + cbn [lstrip_bom]. destruct (N.eqb c BOM) eqn:Ec.
      * apply N.eqb_eq in Ec. subst c. split; [exact IH1|].
        exists (S n). cbn [repeat app]. f_equal. exact IH2.
      * split; [|exists 0%nat; reflexivity].
        cbn [starts_with]. rewrite N.eqb_sym, Ec. reflexivity.
  - split; [exact E | exists 0%nat; reflexivity].
Qed.

End IngestFacts.

Section IngestExamples.

Import ProcessFile Sample.
Local Open Scope Z_scope.

Lemma process_file_numbers_chunks_witness :
  exists lines,
    process_file (Ok two_paragraphs) (lit "doc") 3 0 false
      = Ok (len (chunk_text_by_paragraphs (clean_text two_paragraphs) 3 0), Some lines) /\
    process_file (Ok two_paragraphs) (lit "doc") 3 0 true
      = Ok (len (chunk_text_by_paragraphs (clean_text two_paragraphs) 3 0), None) /\
    forall i c,
      nth_error (chunk_text_by_paragraphs (clean_text two_paragraphs) 3 0) i = Some c ->
      nth_error lines i = Some (rec (lit "doc") (Z.of_nat i) c).
Proof.
  apply (process_file_numbers_chunks two_paragraphs (lit "doc") 3 0). discriminate.
Defined.

Lemma process_file_ids_distinct_witness : NoDup (map record_id two_lines).
Proof.
  apply (process_file_ids_distinct two_paragraphs (lit "doc") 3 0 2 two_lines).
  vm_compute. reflexivity.
Defined.

End IngestExamples.

(** ** More on the cleaner *)

Section CleanerFacts.

Local Open Scope nat_scope.

(** *** Normal forms *)

(** X8. What [clean_text] returns is always in normal form (no carriage
    return, no blank before a newline, no three newlines in a row, no two
    adjacent blanks, trimmed), and the texts it leaves unchanged are exactly
    the texts in normal form. *)
Theorem clean_text_normal_form (s : str) :
  cleaned (clean_text s) /\ (clean_text s = s <-> cleaned s).
Proof.
  split; [apply clean_text_cleaned|]. split.
  - intros E. rewrite <- E. apply clean_text_cleaned.
  - apply cleaned_fixed.
Qed.

(** *** Only whitespace is touched *)

Lemma content_app (a b : str) : content (a ++ b) = content a ++ content b.
Proof. apply filter_app. Qed.

Lemma content_space (s : str) : all_space s -> content s = [].
Proof.
  induction 1 as [|c s Hc _ IH]; [reflexivity|].
  cbn [content filter]. rewrite Hc. exact IH.
Qed.

Lemma content_cons_space (c : char) (s : str) : isspace c = true -> content (c :: s) = content s.
Proof. intros H. cbn [content filter]. rewrite H. reflexivity. Qed.

Lemma all_space_firstn_cons (c : char) (s : str) (k : nat) :
  all_space (firstn (S k) (c :: s)) -> isspace c = true /\ all_space (firstn k s).
Proof. cbn [firstn]. intros H. inversion H; subst. split; assumption. Qed.

Lemma starts_with_firstn (p s : str) : starts_with p s = true -> firstn (length p) s = p.
Proof.
  intros H. rewrite (starts_with_app p s H) at 1.
  rewrite firstn_app, Nat.sub_diag, firstn_all. cbn [firstn]. apply app_nil_r.
Qed.

Lemma replace_from_content (old new : str) :
  all_space old -> all_space new -> old <> [] ->
  forall s k, all_space (firstn k s) -> content (replace_from old new k s) = content s.
Proof.
  intros Hold Hnew Hne. induction s as [|c s IH]; intros k Hk; [reflexivity|].
  cbn [replace_from]. destruct k as [|k].
  - destruct (starts_with old (c :: s)) eqn:Hm.
    + apply starts_with_firstn in Hm.
      destruct old as [|x old']; [contradiction|].
      cbn [length] in Hm. rewrite <- Hm in Hold.
      apply all_space_firstn_cons in Hold. destruct Hold as [Hc Hrest].
      rewrite content_app, (content_space new Hnew), (content_cons_space c s Hc).
      cbn [app length Nat.sub]. rewrite Nat.sub_0_r. apply IH.
      cbn [firstn] in Hm. injection Hm as _ Hm. rewrite Hm.
      rewrite <- Hm. exact Hrest.
    + cbn [content filter]. destruct (negb (isspace c)); [f_equal|];
        apply (IH 0); constructor.
  - apply all_space_firstn_cons in Hk. destruct Hk as [Hc Hrest].
    rewrite (content_cons_space c s Hc). apply IH, Hrest.
Qed.

Lemma sub_from_content (m : str -> option nat) (r : str) :
  all_space r ->
  (forall s j, m s = Some (S j) -> all_space (firstn (S j) s)) ->
  forall s k, all_space (firstn k s) -> content (sub_from m r k s) = content s.
Proof.
  intros Hr Hm. induction s as [|c s IH]; intros k Hk; [reflexivity|].
  cbn [sub_from]. destruct k as [|k].
  - destruct (m (c :: s)) as [[|j]|] eqn:E.
    + cbn [content filter]. destruct (negb (isspace c)); [f_equal|]; apply (IH 0); constructor.
    + apply Hm in E. apply all_space_firstn_cons in E. destruct E as [Hc Hrest].
      rewrite content_app, (content_space r Hr), (content_cons_space c s Hc).
      apply IH, Hrest.
    + cbn [content filter]. destruct (negb (isspace c)); [f_equal|]; apply (IH 0); constructor.
  - apply all_space_firstn_cons in Hk. destruct Hk as [Hc Hrest].
    rewrite (content_cons_space c s Hc). apply IH, Hrest.
Qed.

Lemma firstn_span (cls : char -> bool) (s : str) :
  Forall (fun c => cls c = true) (firstn (span cls s) s).
Proof.
  induction s as [|c s IH]; [constructor|].
  cbn [span]. destruct (cls c) eqn:E; [|constructor].
  cbn [firstn]. constructor; assumption.
Qed.

Lemma blank_isspace (c : char) : blank c = true -> isspace c = true.
Proof.
  unfold blank, SP, TAB. intros H. apply orb_true_iff in H.
  destruct H as [H|H]; apply N.eqb_eq in H; subst; reflexivity.
Qed.

Lemma nl_isspace (c : char) : is_nl c = true -> isspace c = true.
Proof. intros H. apply is_nl_eq in H. subst. reflexivity. Qed.

Lemma match_run_space (cls : char -> bool) (n : nat) :
  (forall c, cls c = true -> isspace c = true) ->
  forall s j, match_at cls n [] s = Some (S j) -> all_space (firstn (S j) s).
Proof.
  intros Hcls s j. rewrite match_run. destruct (span cls s <? n); [discriminate|].
  intros E. injection E as E. rewrite <- E.
  eapply Forall_impl; [|apply firstn_span]. exact Hcls.
Qed.

Lemma match_blank_nl_space (s : str) (j : nat) :
  match_at blank 1 [NL] s = Some (S j) -> all_space (firstn (S j) s).
Proof.
  rewrite match_blank_nl.
  destruct ((1 <=? span blank s) && nl_follows s) eqn:E; [|discriminate].
  apply andb_true_iff in E. destruct E as [_ Hnl].
  intros H. injection H as H. rewrite <- H.
  unfold nl_follows in Hnl. apply starts_with_app in Hnl. cbn [length] in Hnl.
  rewrite <- (firstn_skipn (span blank s) s) at 2. rewrite Hnl.
  rewrite firstn_app.
  assert (Hlen : length (firstn (span blank s) s) = span blank s).
  { apply firstn_length_le, span_le. }
  rewrite Hlen. replace (span blank s + 1 - span blank s) with 1 by lia.
  rewrite firstn_all2 by (rewrite Hlen; lia).
  apply Forall_app. split.
  - eapply Forall_impl; [|apply firstn_span]. exact blank_isspace.
  - cbn [app firstn]. constructor; [reflexivity | constructor].
Qed.

Lemma lstrip_content (s : str) : content (lstrip s) = content s.
Proof.
  induction s as [|c s IH]; [reflexivity|].
  cbn [lstrip]. destruct (isspace c) eqn:E; [|reflexivity].
  rewrite (content_cons_space c s E). exact IH.
Qed.

Lemma strip_content (s : str) : content (strip s) = content s.
Proof.
  unfold strip, rstrip, content.
  rewrite filter_rev. fold (content (lstrip (rev (lstrip s)))).
  rewrite lstrip_content. unfold content. rewrite filter_rev, rev_involutive.
  apply lstrip_content.
Qed.

Lemma clean_text_content (s : str) : content (clean_text s) = content s.
Proof.
  destruct s as [|c0 s0]; [reflexivity|]. unfold clean_text. set (s := c0 :: s0).
  rewrite strip_content. unfold sub, replace.
  assert (Hnl : all_space [NL]) by (repeat constructor).
  rewrite (sub_from_content _ [SP]);
    [ | repeat constructor | apply match_run_space, blank_isspace | constructor ].
  rewrite (sub_from_content _ [NL; NL]);
    [ | repeat constructor | apply match_run_space, nl_isspace | constructor ].
  rewrite (sub_from_content _ [NL]);
    [ | exact Hnl | exact match_blank_nl_space | constructor ].
  rewrite (replace_from_content [CR] [NL]);
    [ | repeat constructor | exact Hnl | discriminate | constructor ].
  apply (replace_from_content [CR; NL] [NL]);
    [ repeat constructor | exact Hnl | discriminate | constructor ].
Qed.

(** X9. [clean_text] only touches whitespace: the characters that are not
    whitespace come out the same, in the same order. *)
Theorem clean_text_keeps_content (s : str) : content (clean_text s) = content s.
Proof. apply clean_text_content. Qed.

Lemma nonblank_content (s : str) : nonblank s = nonempty (content s).
Proof.
  induction s as [|c s IH]; [reflexivity|].
  cbn [nonblank existsb content filter]. destruct (isspace c); cbn [negb orb]; [exact IH | reflexivity].
Qed.

End CleanerFacts.

Section BlankFile.

Import ProcessFile.
Local Open Scope Z_scope.

(** X10. A file that holds only whitespace is not skipped by the guard on
    empty text: [process_file] opens the output file, writes no record and
    returns 0. *)
Theorem process_file_blank_text (text stem : str) (max_chars overlap : Z) :
  text <> [] -> nonblank text = false ->
  process_file (Ok text) stem max_chars overlap false = Ok (0, Some []).
Proof.
  intros Hne Hblank. unfold process_file. cbn [bind].
  destruct text as [|c0 text0]; [contradiction|]. cbn [nonempty negb].
  rewrite blank_text_no_chunks; [reflexivity|].
  rewrite nonblank_content, clean_text_content, <- nonblank_content. exact Hblank.
Qed.

Lemma process_file_blank_text_witness :
  process_file (Ok (lit "  ")) (lit "doc") 10 2 false = Ok (0, Some []).
Proof.
  apply (process_file_blank_text (lit "  ") (lit "doc") 10 2); [discriminate | reflexivity].
Defined.

End BlankFile.

(** ** More on the index build *)

Section BuildMore.

Import CreateEmbeddings.
Local Open Scope Z_scope.

Variable faiss_available : bool.
Variable SentenceTransformer : pyresult (list pyval -> pyresult ndarray).
Variable normalize_row : list float -> list float.

Lemma minimal_meta_fields (rec entry : pyval) :
  minimal_meta rec = Ok entry ->
  get entry "id" = get rec "id" /\
  get entry "source_id" = get rec "source_id" /\
  get entry "title" = get rec "title" /\
  get entry "path" = get rec "path" /\
  get entry "chunk_index" = get rec "chunk_index" /\
  get entry "text" = bind (get rec "text") (fun t => py_slice_to t 1200).
Proof.
  unfold minimal_meta. intros H.
  destruct rec; try discriminate. cbn [get bind] in H |- *.
  destruct (py_slice_to _ 1200) as [t|] eqn:Et; cbn [bind] in H; [|discriminate].
  injection H as <-. repeat split; reflexivity.
Qed.

(** X11. In a completed build, metadata entry [i] copies the [id],
    [source_id], [title], [path] and [chunk_index] of record [i] ([None] for
    a key the record lacks) and stores the first 1200 characters of its text;
    no stored text is longer than 1200. *)
Theorem metadata_projects_records (records : list pyval) (built : artifacts) :
  main faiss_available SentenceTransformer normalize_row records = Ok (Some built) ->
  exists entries,
    meta_file built = PList entries /\
    (forall i rec, nth_error records i = Some rec ->
       exists entry, nth_error entries i = Some entry /\
         get entry "id" = get rec "id" /\
         get entry "source_id" = get rec "source_id" /\
         get entry "title" = get rec "title" /\
         get entry "path" = get rec "path" /\
         get entry "chunk_index" = get rec "chunk_index" /\
         get entry "text" = bind (get rec "text") (fun t => py_slice_to t 1200)) /\
    (forall entry, In entry entries ->
       exists text n, get entry "text" = Ok text /\ py_len text = Ok n /\ n <= 1200).
Proof.
  unfold main. destruct records as [|r0 records0]; [discriminate|].
  set (records := r0 :: records0). intros H. repeat bind_ok H.
  injection H as <-. cbn [meta_file].
  match goal with E : traverse minimal_meta records = Ok ?l |- _ =>
    rename E into Hmeta; exists l end.
  split; [reflexivity|]. split.
  - intros i rec Hi.
    destruct (traverse_nth _ _ _ Hmeta i rec Hi) as (entry & Hentry & Hnth).
    exists entry. split; [exact Hnth | apply minimal_meta_fields, Hentry].
  - intros entry Hin. apply In_nth_error in Hin. destruct Hin as [i Hi].
    assert (Hlen : (i < length records)%nat).
    { rewrite <- (traverse_length _ _ _ Hmeta). apply nth_error_Some. congruence. }
    destruct (nth_error records i) as [rec|] eqn:Hrec;
      [|apply nth_error_None in Hrec; lia].
    destruct (traverse_nth _ _ _ Hmeta i rec Hrec) as (entry' & Hentry & Hnth).
    rewrite Hi in Hnth. injection Hnth as <-.
    destruct (minimal_meta_fields rec entry Hentry) as (_ & _ & _ & _ & _ & Htext).
    unfold minimal_meta in Hentry. repeat bind_ok Hentry. cbn [bind] in Htext.
    match goal with
    | Es : py_slice_to ?t 1200 = Ok ?x |- _ =>
        exists x; destruct (py_slice_to_len t x 1200 ltac:(lia) Es) as (n & Hn & Hle);
        exists n; rewrite Htext, Es; auto
    end.
Qed.

(** X12. The build stops at the first record whose ["text"] cannot be read:
    [main] raises what [r["text"]] raises there (a [KeyError] for a record
    without the key), and neither index nor metadata is written. *)
Theorem main_needs_text (pre post : list pyval) (r : pyval) (e : exn) :
  Forall has_text pre ->
  getitem_str r "text" = Raise e ->
  main faiss_available SentenceTransformer normalize_row (pre ++ r :: post) = Raise e.
Proof.
  intros Hpre Hr. unfold main.
  assert (Ht : traverse (fun r => getitem_str r "text") (pre ++ r :: post) = Raise e).
  { induction Hpre as [|p pre [t Hp] _ IH]; cbn [app traverse].
    - rewrite Hr. reflexivity.
    - rewrite Hp. cbn [bind]. rewrite IH. reflexivity. }
  destruct (pre ++ r :: post) eqn:E; [destruct pre; discriminate|].
  rewrite Ht. reflexivity.
Qed.

End BuildMore.

Section Pipeline.

Import ProcessFile CreateEmbeddings.
Local Open Scope Z_scope.

Variable SentenceTransformer : pyresult (list pyval -> pyresult ndarray).
Variable normalize_row : list float -> list float.

Lemma minimal_meta_rec (stem : str) (i : Z) (c : str) :
  minimal_meta (rec stem i c) = Ok (chunk_entry stem i c).
Proof. reflexivity. Qed.

Lemma traverse_map {A B C} (f : B -> pyresult C) (g : A -> B) (h : A -> C) (l : list A) :
  (forall a, f (g a) = Ok (h a)) -> traverse f (map g l) = Ok (map h l).
Proof.
  intros H. induction l as [|a l IH]; [reflexivity|].
  cbn [map traverse]. rewrite H, IH. reflexivity.
Qed.

(** X13. Chunking and building compose: run on the records [process_file]
    wrote for a file, with FAISS installed and an encoder that answers,
    [main] completes, and metadata entry [i] is the entry of chunk [i] of the
    cleaned text: id [<stem>_chunk_<i>], the stem as source and title, no
    path, and the chunk cut to 1200 characters. *)
Theorem chunks_to_metadata (text stem : str) (max_chars overlap n : Z) (lines : list pyval)
    (encode : list pyval -> pyresult ndarray) :
  process_file (Ok text) stem max_chars overlap false = Ok (n, Some lines) ->
  lines <> [] ->
  SentenceTransformer = Ok encode ->
  (forall texts, exists embs, encode texts = Ok embs) ->
  exists index entries,
    main true SentenceTransformer normalize_row lines
      = Ok (Some (MkArtifacts index (PList entries))) /\
    length entries = length (chunk_text_by_paragraphs (clean_text text) max_chars overlap) /\
    forall i c,
      nth_error (chunk_text_by_paragraphs (clean_text text) max_chars overlap) i = Some c ->
      nth_error entries i = Some (chunk_entry stem (Z.of_nat i) c).
Proof.
  intros Hp Hne Hst Henc.
  unfold process_file in Hp. cbn [bind] in Hp.
  destruct (negb (nonempty text)); [discriminate|].
  set (chunks := chunk_text_by_paragraphs (clean_text text) max_chars overlap) in *.
  pose proof (emitted_chunks_carry_text (clean_text text) max_chars overlap) as Hch.
  fold chunks in Hch.
  rewrite write_chunks in Hp
    by (apply (enumerate_snd (fun c => c <> [] /\ strip c = c)); exact Hch).
  cbn [app] in Hp. injection Hp as _ <-.
  set (lines := map (fun ic => rec stem (fst ic) (snd ic)) (enumerate 0 chunks)) in *.
  assert (Htexts : traverse (fun r => getitem_str r "text") lines
                   = Ok (map (fun ic => PStr (snd ic)) (enumerate 0 chunks))).
  { apply traverse_map. intros [i c]. reflexivity. }
  assert (Hmeta : traverse minimal_meta lines
                  = Ok (map (fun ic => chunk_entry stem (fst ic) (snd ic)) (enumerate 0 chunks))).
  { apply traverse_map. intros [i c]. apply minimal_meta_rec. }
  destruct (Henc (map (fun ic => PStr (snd ic)) (enumerate 0 chunks))) as [embs Hembs].
  unfold main. destruct lines as [|l0 lines0] eqn:El; [contradiction|]. rewrite <- El in *.
  rewrite Htexts, Hst. cbn [bind]. rewrite Hembs. cbn [bind build_faiss_index negb].
  rewrite Hmeta. cbn [bind].
  eexists _, _. split; [reflexivity|]. split.
  - rewrite length_map. apply enumerate_length.
  - intros i c Hi. erewrite map_nth_error; [|apply enumerate_nth; exact Hi]. reflexivity.
Qed.

End Pipeline.

Section PipelineExamples.

Import ProcessFile CreateEmbeddings Sample.
Local Open Scope Z_scope.

Lemma metadata_projects_records_witness :
  exists entries,
    meta_file two_built = PList entries /\
    (forall i rec, nth_error two_records i = Some rec ->
       exists entry, nth_error entries i = Some entry /\
         get entry "id" = get rec "id" /\
         get entry "source_id" = get rec "source_id" /\
         get entry "title" = get rec "title" /\
         get entry "path" = get rec "path" /\
         get entry "chunk_index" = get rec "chunk_index" /\
         get entry "text" = bind (get rec "text") (fun t => py_slice_to t 1200)) /\
    (forall entry, In entry entries ->
       exists text n, get entry "text" = Ok text /\ py_len text = Ok n /\ n <= 1200).
Proof.
  apply (metadata_projects_records true (Ok constant_encode) (fun row => row)
           two_records two_built).
  reflexivity.
Defined.

Lemma main_needs_text_witness :
  main true (Ok constant_encode) (fun row => row)
       ([chunk_record "doc_chunk_0" "doc" 0 "first"] ++ PDict [] :: [])
    = Raise (KeyError (lit "'text'")).
Proof.
  apply (main_needs_text true (Ok constant_encode) (fun row => row)
           [chunk_record "doc_chunk_0" "doc" 0 "first"] [] (PDict [])
           (KeyError (lit "'text'")));
    [constructor; [eexists; reflexivity | constructor] | reflexivity].
Defined.

Lemma chunks_to_metadata_witness :
  exists index entries,
    main true (Ok constant_encode) (fun row => row) two_lines
      = Ok (Some (MkArtifacts index (PList entries))) /\
    length entries = length (chunk_text_by_paragraphs (clean_text two_paragraphs) 3 0) /\
    forall i c,
      nth_error (chunk_text_by_paragraphs (clean_text two_paragraphs) 3 0) i = Some c ->
      nth_error entries i = Some (chunk_entry (lit "doc") (Z.of_nat i) c).
Proof.
  apply (chunks_to_metadata (Ok constant_encode) (fun row => row)
           two_paragraphs (lit "doc") 3 0 2 two_lines constant_encode);
    [vm_compute; reflexivity | discriminate | reflexivity
    | intros texts; eexists; reflexivity].
Defined.

End PipelineExamples.

(** ** More on the vector client *)

Section ConstructorFacts.

Import VectorClient.
Local Open Scope Z_scope.

Lemma lbind_ok {A B} (m : logged A) (k : A -> logged B) (l : list logrec) (b : B) :
  lbind m k = (l, Ok b) ->
  exists l1 a l2, m = (l1, Ok a) /\ k a = (l2, Ok b) /\ l = l1 ++ l2.
Proof.
  destruct m as [l1 [a|e]]; cbn [lbind]; [|discriminate].
  destruct (k a) as [l2 r] eqn:Ek. intros H. injection H as <- ->.
  exists l1, a, l2. auto.
Qed.

Lemma lift_ok {A} (r : pyresult A) (l : list logrec) (a : A) :
  lift r = (l, Ok a) -> r = Ok a.
Proof. unfold lift. intros H. injection H as _ H. exact H. Qed.

(** X14. A constructor that returns has found everything it needs: both
    files exist, FAISS is installed, the client holds the loaded metadata and
    the loaded index, and the embedder is the injected model when one was
    given, else the sentence-transformers model, else (sentence-transformers
    absent or failing, scikit-learn installed) a TF-IDF vectorizer. *)
Theorem init_success (E : env) (model_name : str) (model : option Model)
    (use_chroma_fallback : bool) (l : list logrec) (c : client) :
  __init__ E model_name model use_chroma_fallback = (l, Ok c) ->
  index_file_exists E = true /\ meta_file_exists E = true /\ faiss_available E = true /\
  json_load E = Ok (metadata c) /\ read_index E = Ok (index c) /\
  embedder_chosen E model c.
Proof.
  unfold __init__. intros H.
  destruct (index_file_exists E); [|discriminate].
  destruct (meta_file_exists E); [|discriminate].
  cbn [negb orb] in H.
  destruct (faiss_available E); [|destruct use_chroma_fallback; discriminate].
  cbn [negb] in H.
  apply lbind_ok in H. destruct H as (l1 & md & l2 & Hmd & H & _). apply lift_ok in Hmd.
  apply lbind_ok in H. destruct H as (l3 & [] & l4 & _ & H & _).
  apply lbind_ok in H. destruct H as (l5 & n & l6 & _ & H & _).
  apply lbind_ok in H. destruct H as (l7 & [] & l8 & _ & H & _).
  apply lbind_ok in H. destruct H as (l9 & [] & l10 & _ & H & _).
  apply lbind_ok in H. destruct H as (l11 & idx & l12 & Hidx & H & _). apply lift_ok in Hidx.
  assert (Hread : read_index E = Ok idx).
  { revert Hidx. destruct (read_index E); unfold try_except; intros Hx; [exact Hx | discriminate Hx]. }
  assert (Htfidf : forall l', lbind (_init_tfidf E md) (fun vec => ret (MkClient md idx (tfidf vec)))
                              = (l', Ok c) ->
            metadata c = md /\ index c = idx /\ exists vec, embedder_mode c = tfidf vec).
  { intros l' E'. apply lbind_ok in E'. destruct E' as (? & vec & ? & _ & E' & _).
    unfold ret in E'. injection E' as _ <-. cbn. repeat split. exists vec. reflexivity. }
  destruct model as [m|].
  - apply lbind_ok in H. destruct H as (? & [] & ? & _ & H & _).
    unfold ret in H. injection H as _ <-. cbn. repeat split; assumption.
  - unfold embedder_chosen.
    destruct (sentence_transformers_available E) eqn:Hst.
    + apply lbind_ok in H. destruct H as (? & [] & ? & _ & H & _).
      destruct (SentenceTransformer E) as [m|e] eqn:Hm.
      * unfold ret in H. injection H as _ <-. cbn [metadata index embedder_mode].
        repeat (split; [solve [auto]|]).
        left. split; [reflexivity|]. exists m. split; reflexivity.
      * apply lbind_ok in H. destruct H as (? & [] & ? & _ & H & _).
        destruct (sklearn_available E) eqn:Hsk; [|discriminate].
        apply lbind_ok in H. destruct H as (? & [] & ? & _ & H & _).
        destruct (Htfidf _ H) as (-> & -> & vec & Hvec).
        repeat (split; [solve [auto]|]).
        right. split; [reflexivity|]. split; [right; exists e; reflexivity | eauto].
    + destruct (sklearn_available E) eqn:Hsk; [|discriminate].
      apply lbind_ok in H. destruct H as (? & [] & ? & _ & H & _).
      destruct (Htfidf _ H) as (-> & -> & vec & Hvec).
      repeat (split; [solve [auto]|]).
      right. split; [reflexivity|]. split; [left; reflexivity | eauto].
Qed.

(** X15. The constructor fails in a fixed order. A missing index or metadata
    file raises [FileNotFoundError] before anything is read or logged; with
    both files present, a missing FAISS raises [RuntimeError], again before
    anything is logged; and, once metadata with a length is loaded, an index
    that does not load raises a [RuntimeError] that carries the loader's
    message. *)
Theorem init_fails_fast (E : env) (model_name : str) (model : option Model)
    (use_chroma_fallback : bool) :
  (index_file_exists E = false \/ meta_file_exists E = false ->
   exists msg, __init__ E model_name model use_chroma_fallback
               = ([], Raise (MkExn "FileNotFoundError" msg))) /\
  (index_file_exists E = true -> meta_file_exists E = true -> faiss_available E = false ->
   exists msg, __init__ E model_name model use_chroma_fallback
               = ([], Raise (RuntimeError msg))) /\
  (forall md n e,
     index_file_exists E = true -> meta_file_exists E = true -> faiss_available E = true ->
     json_load E = Ok md -> py_len md = Ok n -> read_index E = Raise e ->
     snd (__init__ E model_name model use_chroma_fallback)
       = Raise (RuntimeError (lit "Failed to load FAISS index: " ++ exn_str e))).
Proof.
  unfold __init__. split; [|split].
  - intros [H|H]; rewrite H; [|rewrite orb_true_r]; eexists; reflexivity.
  - intros -> -> ->. cbn [negb orb]. destruct use_chroma_fallback; eexists; reflexivity.
  - intros md n e -> -> -> Hmd Hn Hidx. cbn [negb orb]. rewrite Hmd, Hidx.
    rewrite !snd_lbind, snd_lift. cbn [bind].
    rewrite snd_lbind. destruct md; cbn [snd bind logger ret];
      rewrite snd_lbind, snd_lift, Hn; reflexivity.
Qed.

End ConstructorFacts.

Section EmbedderFacts.

Import VectorClient.
Local Open Scope Z_scope.

Variable np_norm : list float -> float.
Variable np_divide : float -> float -> float.
Variable faiss_normalize_L2 : ndarray -> pyresult ndarray.

(** *** The TF-IDF corpus *)

Lemma tfidf_texts (ms : list pyval) (texts : list pyval) :
  traverse (fun m =>
    bind (match m with PDict _ => get m "text" | _ => Ok (PStr []) end)
         (fun t => Ok (py_or t (PStr [])))) ms = Ok texts ->
  length texts = length ms /\ Forall (fun t => t = PStr [] \/ truthy t = true) texts.
Proof.
  intros H. split; [exact (traverse_length _ _ _ H)|].
  revert texts H. induction ms as [|m ms IH]; intros texts H; cbn [traverse] in H.
  - injection H as <-. constructor.
  - destruct (match m with PDict _ => get m "text" | _ => Ok (PStr []) end) as [t|];
      cbn [bind] in H; [|discriminate].
    destruct (traverse _ ms) as [rest|] eqn:Hrest; cbn [bind] in H; [|discriminate].
    injection H as <-. constructor; [|apply IH; reflexivity].
    unfold py_or. destruct (truthy t) eqn:Et; [right; exact Et | left; reflexivity].
Qed.

(** X16. When [_init_tfidf] returns, the vectorizer was fitted on one text
    per metadata entry, or on the single empty string when there is no
    entry: the corpus is never empty, and every text in it is the empty
    string or a truthy value taken from the metadata. *)
Theorem tfidf_never_fits_empty_corpus (E : env) (md : pyval) (l : list logrec) (vec : Tfidf) :
  _init_tfidf E md = (l, Ok vec) ->
  exists ms corpus,
    iterate md = Ok ms /\
    tfidf_fit E corpus = Ok vec /\
    corpus <> [] /\
    length corpus = Nat.max 1 (length ms) /\
    Forall (fun t => t = PStr [] \/ truthy t = true) corpus.
Proof.
  unfold _init_tfidf. intros H.
  apply lbind_ok in H. destruct H as (? & ms & ? & Hms & H & _). apply lift_ok in Hms.
  apply lbind_ok in H. destruct H as (? & texts & ? & Ht & H & _). apply lift_ok in Ht.
  apply lbind_ok in H. destruct H as (? & vec' & ? & Hfit & H & _). apply lift_ok in Hfit.
  apply lbind_ok in H. destruct H as (? & [] & ? & _ & H & _).
  unfold ret in H. injection H as _ <-.
  destruct (tfidf_texts ms texts Ht) as [Hlen Hall].
  exists ms. destruct texts as [|t texts].
  - exists [PStr []]. repeat split; try assumption; try discriminate.
    + cbn [length] in *. rewrite <- Hlen. reflexivity.
    + constructor; [left; reflexivity | constructor].
  - exists (t :: texts). repeat split; try assumption; try discriminate.
    rewrite <- Hlen. cbn [length]. lia.
Qed.

(** *** Encoding *)

(** A sentence-transformers model is tried with each keyword in turn; only
    a [TypeError] moves on to the next. *)
Lemma encode_sbert_tries_keywords (self : client) (model : Model) (texts : list str) :
  embedder_mode self = sbert model ->
  _encode np_norm np_divide self texts =
    if negb (raised_type_error (model_encode model convert_to_numpy texts))
    then model_encode model convert_to_numpy texts
    else if negb (raised_type_error (model_encode model return_numpy texts))
    then model_encode model return_numpy texts
    else if negb (raised_type_error (model_encode model convert_to_tensor texts))
    then model_encode model convert_to_tensor texts
    else model_encode model no_kwargs texts.
Proof.
  intros Hmode. unfold _encode. rewrite Hmode. cbn [encode_with].
  assert (Hstep : forall kw (rest : pyresult ndarray),
            try_except (model_encode model kw texts)
              (fun e => if exn_is "TypeError" e then rest else Raise e)
            = if negb (raised_type_error (model_encode model kw texts))
              then model_encode model kw texts else rest).
  { intros kw rest. destruct (model_encode model kw texts) as [a|e]; cbn; [reflexivity|].
    destruct (exn_is "TypeError" e); reflexivity. }
  rewrite !Hstep. reflexivity.
Qed.

(** A failing [faiss.normalize_L2] leaves the query vector as encoded. *)
Lemma embed_query_survives_normalization (self : client) (text : str) :
  snd (embed_query np_norm np_divide faiss_normalize_L2 self text) =
    bind (_encode np_norm np_divide self [text]) (fun v =>
      Ok (match faiss_normalize_L2 v with Ok v' => v' | Raise _ => v end)).
Proof.
  unfold embed_query. rewrite snd_lbind, snd_lift.
  destruct (_encode np_norm np_divide self [text]) as [v|e]; cbn [bind]; [|reflexivity].
  destruct (faiss_normalize_L2 v); reflexivity.
Qed.

(** *** The size of a result *)

Lemma search_rows_length (self : client) (rows : list (float * Z)) (hits : list hit) :
  snd (search_rows self rows) = Ok hits -> (length hits <= length rows)%nat.
Proof.
  revert hits. induction rows as [|[score idx] rows IH]; intros hits.
  - cbn. intros E. injection E as <-. cbn. lia.
  - cbn [search_rows]. rewrite snd_lbind.
    destruct (snd (search_row self score idx)) as [r|]; cbn [bind]; [|discriminate].
    rewrite snd_lbind.
    destruct (snd (search_rows self rows)) as [rest|]; cbn [bind]; [|discriminate].
    intros E. injection E as <-. specialize (IH rest eq_refl).
    destruct r; cbn [length]; lia.
Qed.

(** X17. When the index returns at most the number of rows it was asked
    for, [search] returns at most [max(1, k)] results. *)
Theorem search_returns_at_most_k (self : client) (query : str) (k : Z) (qv : ndarray)
    (D : list float) (I : list Z) (hits : list hit) :
  snd (embed_query np_norm np_divide faiss_normalize_L2 self query) = Ok qv ->
  index_search (index self) qv (if k <=? 0 then 1 else k) = Ok (D, I) ->
  (Z.of_nat (length I) <= (if k <=? 0 then 1 else k)) ->
  snd (search np_norm np_divide faiss_normalize_L2 self query k) = Ok hits ->
  Z.of_nat (length hits) <= Z.max 1 k.
Proof.
  intros Hq HDI Hk. rewrite snd_search, Hq. cbn [bind]. rewrite HDI. cbn [try_except bind fst snd].
  intros H. apply search_rows_length in H. rewrite length_combine in H.
  destruct (Z.leb_spec k 0); lia.
Qed.

(** *** Citing the chunks of a build *)

Lemma slice_to_twice {A} (s : list A) (a b : Z) :
  0 <= a <= b -> slice_to (slice_to s b) a = slice_to s a.
Proof.
  intros H. unfold slice_to.
  destruct (Z.ltb_spec a 0); [lia|]. destruct (Z.ltb_spec b 0); [lia|].
  unfold len. rewrite length_firstn, firstn_firstn. f_equal. lia.
Qed.

Lemma chunk_entries_nth (stem : str) (chunks : list str) (i : nat) :
  (i < length chunks)%nat ->
  nth_error (chunk_entries stem chunks) i
    = Some (chunk_entry stem (Z.of_nat i) (nth i chunks [])).
Proof.
  intros Hi. unfold chunk_entries.
  rewrite (map_nth_error _ i (enumerate 0 chunks) (d := (0 + Z.of_nat i, nth i chunks [])));
    [reflexivity|].
  apply (enumerate_nth chunks 0 i). apply nth_error_nth'. exact Hi.
Qed.

Lemma make_hit_entry (score : float) (id source_id title path chunk_index text : pyval) :
  make_hit score
    (PDict [(lit "id", id); (lit "source_id", source_id); (lit "title", title);
            (lit "path", path); (lit "chunk_index", chunk_index); (lit "text", text)])
  = bind (py_slice_to (py_or text (PStr [])) 800) (fun excerpt =>
      Ok (MkHit (PFloat score) id source_id title excerpt path chunk_index)).
Proof. reflexivity. Qed.

Lemma make_hit_chunk_entry (stem : str) (score : float) (i : Z) (c : str) :
  make_hit score (chunk_entry stem i c)
    = Ok (MkHit (PFloat score) (PStr (stem ++ lit "_chunk_" ++ decimal i))
            (PStr stem) (PStr stem) (PStr (slice_to c 800)) PNone (PInt i)).
Proof.
  unfold chunk_entry. rewrite make_hit_entry. unfold py_or, py_slice_to.
  destruct (truthy (PStr (slice_to c 1200))) eqn:Et; cbn [bind].
  - rewrite slice_to_twice by lia. reflexivity.
  - cbn [truthy] in Et. destruct (slice_to c 1200) as [|x y] eqn:Es; [|discriminate].
    assert (Hc : slice_to c 800 = []).
    { rewrite <- (slice_to_twice c 800 1200) by lia. rewrite Es. reflexivity. }
    rewrite Hc. reflexivity.
Qed.

(** X18. Over the metadata a build wrote for the chunks of one document,
    when every position the index returns is a position of a chunk, [search]
    returns one result per row, in order: the index's score, the id
    [<stem>_chunk_<idx>], the stem as source and title, no path, and the
    first 800 characters of chunk [idx] as excerpt. *)
Theorem search_cites_built_chunks (self : client) (stem : str) (chunks : list str)
    (query : str) (k : Z) (qv : ndarray) (D : list float) (I : list Z) :
  metadata self = PList (chunk_entries stem chunks) ->
  snd (embed_query np_norm np_divide faiss_normalize_L2 self query) = Ok qv ->
  index_search (index self) qv (if k <=? 0 then 1 else k) = Ok (D, I) ->
  Forall (fun idx => 0 <= idx < len chunks) I ->
  snd (search np_norm np_divide faiss_normalize_L2 self query k)
    = Ok (map (cited_hit stem chunks) (combine D I)).
Proof.
  intros Hmd Hq HDI Hin.
  assert (Hn : py_len (metadata self) = Ok (len chunks)).
  { rewrite Hmd. cbn [py_len]. unfold len, chunk_entries.
    rewrite length_map, enumerate_length. reflexivity. }
  assert (Hs : snd (search np_norm np_divide faiss_normalize_L2 self query k)
               = traverse (row_hit self) (filter (in_range (len chunks)) (combine D I))).
  { rewrite snd_search, Hq. cbn [bind]. rewrite HDI. cbn [try_except bind fst snd].
    apply search_rows_skip, Hn. }
  rewrite Hs. clear Hs HDI Hq.
  revert D. induction Hin as [|idx I [H0 Hlt] _ IH]; intros D.
  - destruct D; reflexivity.
  - destruct D as [|score D]; [reflexivity|].
    cbn [combine filter map]. unfold in_range at 1. cbn [snd].
    destruct (Z.leb_spec 0 idx); [|lia]. destruct (Z.ltb_spec idx (len chunks)); [|lia].
    cbn [andb traverse]. rewrite IH. 
    assert (Hrow : row_hit self (score, idx) = Ok (cited_hit stem chunks (score, idx))).
    { assert (E : (idx <? 0) = false) by (apply Z.ltb_ge; lia).
      unfold row_hit. cbn [fst snd]. rewrite Hmd. unfold getitem_int. cbv zeta. rewrite !E.
      rewrite chunk_entries_nth by (unfold len in Hlt; lia).
      cbn [bind]. rewrite Z2Nat.id by lia. apply make_hit_chunk_entry. }
    rewrite Hrow. reflexivity.
Qed.

End EmbedderFacts.

Section ClientExamples.

Import VectorClient Sample.
Local Open Scope Z_scope.

Lemma init_success_witness :
  index_file_exists object_metadata_env = true /\
  meta_file_exists object_metadata_env = true /\
  faiss_available object_metadata_env = true /\
  json_load object_metadata_env = Ok (metadata object_metadata_client) /\
  read_index object_metadata_env = Ok (index object_metadata_client) /\
  embedder_chosen object_metadata_env (Some constant_model) object_metadata_client.
Proof.
  eapply (init_success object_metadata_env (lit "all-MiniLM-L6-v2") (Some constant_model)
            false _ object_metadata_client).
  reflexivity.
Defined.

Lemma init_fails_fast_witness :
  exists msg, __init__ missing_index_env (lit "all-MiniLM-L6-v2") None false
              = ([], Raise (MkExn "FileNotFoundError" msg)).
Proof.
  apply (proj1 (init_fails_fast missing_index_env (lit "all-MiniLM-L6-v2") None false)).
  left. reflexivity.
Defined.

Lemma tfidf_never_fits_empty_corpus_witness :
  exists ms corpus,
    iterate (PList []) = Ok ms /\
    tfidf_fit tfidf_env corpus = Ok unit_vectorizer /\
    corpus <> [] /\
    length corpus = Nat.max 1 (length ms) /\
    Forall (fun t => t = PStr [] \/ truthy t = true) corpus.
Proof.
  eapply (tfidf_never_fits_empty_corpus tfidf_env (PList []) _ unit_vectorizer).
  reflexivity.
Defined.

Lemma search_returns_at_most_k_witness : Z.of_nat (length [long_hit]) <= Z.max 1 1.
Proof.
  apply (search_returns_at_most_k sum_norm divide no_normalize long_client (lit "lease") 1
           [[1%float]] [0.5%float] [0] [long_hit]);
    [reflexivity | reflexivity | cbn; lia | vm_compute; reflexivity].
Defined.

Lemma search_cites_built_chunks_witness :
  snd (search sum_norm divide no_normalize built_client (lit "lease") 1)
    = Ok (map (cited_hit (lit "doc") [lit "ab"; lit "cd"]) (combine [0.5%float] [1])).
Proof.
  apply (search_cites_built_chunks sum_norm divide no_normalize built_client (lit "doc")
           [lit "ab"; lit "cd"] (lit "lease") 1 [[1%float]] [0.5%float] [1]);
    [reflexivity | reflexivity | reflexivity
    | constructor; [unfold len; cbn; lia | constructor]].
Defined.

End ClientExamples.

(** ** More on the retrieval agent *)

Section CacheFacts.

Import VectorClient RetrievalAgent.
Local Open Scope Z_scope.

Variable np_norm : list float -> float.
Variable np_divide : float -> float -> float.
Variable faiss_normalize_L2 : ndarray -> pyresult ndarray.

(** X19. The client is built once. With a cached client [retrieve] never
    looks at the machine again and keeps the cache; and the call that builds
    the client caches it and returns what a call on the cached client
    returns. *)
Theorem retrieve_initialises_once (E E' : env) (c : client) (query : str) (top_k : Z) :
  retrieve np_norm np_divide faiss_normalize_L2 E (Some c) query top_k
    = retrieve np_norm np_divide faiss_normalize_L2 E' (Some c) query top_k /\
  snd (retrieve np_norm np_divide faiss_normalize_L2 E (Some c) query top_k) = Some c /\
  (forall l, __init__ E (lit "all-MiniLM-L6-v2") None false = (l, Ok c) ->
     snd (retrieve np_norm np_divide faiss_normalize_L2 E None query top_k) = Some c /\
     returned (retrieve np_norm np_divide faiss_normalize_L2 E None query top_k)
       = returned (retrieve np_norm np_divide faiss_normalize_L2 E' (Some c) query top_k)).
Proof.
  split; [reflexivity|]. split.
  - unfold retrieve. cbn [get_client ret].
    destruct (search _ _ _ c query top_k) as [l [hits|e]]; reflexivity.
  - intros l Hinit. unfold retrieve, returned, get_client. cbn [lbind logger ret].
    rewrite Hinit.
    destruct (search _ _ _ c query top_k) as [l' [hits|e]]; split; reflexivity.
Qed.

End CacheFacts.

Section CacheExamples.

Import VectorClient RetrievalAgent Sample.
Local Open Scope Z_scope.

Lemma retrieve_initialises_once_witness :
  snd (retrieve sum_norm divide no_normalize tfidf_env None (lit "lease") 5)
    = Some tfidf_client /\
  returned (retrieve sum_norm divide no_normalize tfidf_env None (lit "lease") 5)
    = returned (retrieve sum_norm divide no_normalize missing_index_env (Some tfidf_client)
                  (lit "lease") 5).
Proof.
  eapply (proj2 (proj2 (retrieve_initialises_once sum_norm divide no_normalize
                          tfidf_env missing_index_env tfidf_client (lit "lease") 5)) _).
  reflexivity.
Defined.

End CacheExamples.

(** *** What the records hold *)

Section RetrievedFacts.

Import VectorClient RetrievalAgent.
Local Open Scope Z_scope.

Variable np_norm : list float -> float.
Variable np_divide : float -> float -> float.
Variable faiss_normalize_L2 : ndarray -> pyresult ndarray.

Lemma search_rows_forall (P : hit -> Prop) (self : client) :
  (forall score meta h, make_hit score meta = Ok h -> P h) ->
  forall rows results, snd (search_rows self rows) = Ok results -> Forall P results.
Proof.
  intros HP. induction rows as [|[score idx] rows IH]; intros results.
  - cbn. intros E. injection E as <-. constructor.
  - cbn [search_rows]. rewrite snd_lbind.
    destruct (snd (search_row self score idx)) as [r|] eqn:Hr; cbn [bind]; [|discriminate].
    rewrite snd_lbind.
    destruct (snd (search_rows self rows)) as [rest|]; cbn [bind]; [|discriminate].
    intros E. injection E as <-.
    specialize (IH rest eq_refl).
    destruct r as [h|]; [|exact IH].
    constructor; [|exact IH].
    revert Hr. unfold search_row. destruct (idx <? 0); [discriminate|].
    rewrite snd_lbind, snd_lift.
    destruct (py_len (metadata self)) as [n|]; cbn [bind]; [|discriminate].
    destruct (idx >=? n); [discriminate|].
    rewrite snd_lbind, snd_lift.
    destruct (getitem_int (metadata self) idx) as [meta|]; cbn [bind]; [|discriminate].
    rewrite snd_lbind, snd_lift.
    destruct (make_hit score meta) as [h'|] eqn:Hh; cbn [bind]; [|discriminate].
    intros E. injection E as <-. eapply HP, Hh.
Qed.

Lemma retrieve_forall (P : result -> Prop) (E : env) (_client : option client)
    (query : str) (top_k : Z) :
  (forall message, P (error_result message)) ->
  (forall score meta h, make_hit score meta = Ok h -> P (project h)) ->
  Forall P (returned (retrieve np_norm np_divide faiss_normalize_L2 E _client query top_k)).
Proof.
  intros Herr Hhit. unfold retrieve, returned.
  destruct (get_client E _client) as [[l [c|e]] st]; cbn [fst snd].
  - destruct (search np_norm np_divide faiss_normalize_L2 c query top_k) as [l' [hits|e]] eqn:Hs;
      cbn [fst snd].
    + assert (Hsnd : snd (search np_norm np_divide faiss_normalize_L2 c query top_k) = Ok hits)
        by (rewrite Hs; reflexivity).
      rewrite snd_search in Hsnd.
      destruct (snd (embed_query np_norm np_divide faiss_normalize_L2 c query)) as [qv|];
        cbn [bind] in Hsnd; [|discriminate].
      destruct (try_except _ _) as [DI|]; cbn [bind] in Hsnd; [|discriminate].
      apply (search_rows_forall (fun h => P (project h)) c Hhit) in Hsnd.
      rewrite Forall_map. exact Hsnd.
    + constructor; [apply Herr | constructor].
  - constructor; [apply Herr | constructor].
Qed.

Lemma py_slice_to_sliceable (x y : pyval) (stop : Z) :
  py_slice_to x stop = Ok y -> sliceable y = true.
Proof. destruct x; cbn; intros H; try discriminate; injection H as <-; reflexivity. Qed.

Lemma make_hit_sliceable (score : float) (meta : pyval) (h : hit) :
  make_hit score meta = Ok h -> sliceable (excerpt h) = true.
Proof.
  unfold make_hit. intros H. repeat bind_ok H.
  injection H as <-. cbn [excerpt].
  match goal with
  | E : py_slice_to _ 800 = Ok _ |- _ => apply (py_slice_to_sliceable _ _ _ E)
  end.
Qed.

Lemma retrieved_excerpts (E : env) (_client : option client) (query : str) (top_k : Z) :
  Forall (fun r => sliceable (r_excerpt r) = true /\
                   exists n, py_len (r_excerpt r) = Ok n /\
                     (r_title r = PStr (lit "ERROR") /\ r_score r = PInt 0 \/ n <= 800))
         (returned (retrieve np_norm np_divide faiss_normalize_L2 E _client query top_k)).
Proof.
  apply retrieve_forall.
  - intros message. split; [reflexivity|].
    eexists. split; [reflexivity | left; split; reflexivity].
  - intros score meta h Hh. cbn [project r_excerpt]. split.
    + eapply make_hit_sliceable, Hh.
    + destruct (make_hit_excerpt score meta h Hh) as (n & Hn & Hle).
      exists n. split; [exact Hn | right; exact Hle].
Qed.

(** X20. Whatever happens, every record [retrieve] returns has an excerpt
    that can be sliced: a string or a list. It is the message of an error
    record (title ["ERROR"], score 0), or it has at most 800 elements. *)
Theorem retrieve_excerpts_can_be_sliced (E : env) (_client : option client)
    (query : str) (top_k : Z) (r : result) :
  In r (returned (retrieve np_norm np_divide faiss_normalize_L2 E _client query top_k)) ->
  sliceable (r_excerpt r) = true /\
  exists n, py_len (r_excerpt r) = Ok n /\
            (r_title r = PStr (lit "ERROR") /\ r_score r = PInt 0 \/ n <= 800).
Proof.
  intros Hin.
  pose proof (retrieved_excerpts E _client query top_k) as H.
  rewrite Forall_forall in H. exact (H r Hin).
Qed.

End RetrievedFacts.


Section RetrievedExamples.

Import VectorClient RetrievalAgent Sample.
Local Open Scope Z_scope.

Lemma retrieve_excerpts_can_be_sliced_witness :
  sliceable (r_excerpt (project long_hit)) = true /\
  exists n, py_len (r_excerpt (project long_hit)) = Ok n /\
            (r_title (project long_hit) = PStr (lit "ERROR") /\
             r_score (project long_hit) = PInt 0 \/ n <= 800).
Proof.
  apply (retrieve_excerpts_can_be_sliced sum_norm divide no_normalize missing_index_env
           (Some long_client) (lit "lease") 1 (project long_hit)).
  vm_compute. left. reflexivity.
Defined.

End RetrievedExamples.

(** ** The LLM client *)

Lemma str_eqb_eq (a b : str) : str_eqb a b = true -> a = b.
Proof.
  revert b. induction a as [|x a IH]; intros [|y b]; cbn; try discriminate; [reflexivity|].
  intros H. apply andb_true_iff in H. destruct H as [Hx Hab].
  apply N.eqb_eq in Hx. rewrite Hx, (IH b Hab). reflexivity.
Qed.

Section LlmFacts.

Import LLMClient.

Variable gclient : Type.
Variable unicode_lower : str -> str.

(** X21. A constructed [LLMClient] has one of two shapes. Either it uses
    Gemini, and then the Gemini SDK is imported, its key is set, and the
    client it holds is the one the SDK built. Or it uses OpenAI, and then
    Gemini was not usable (SDK or key missing, or its client failed to
    build), the OpenAI SDK is imported with its key set, the caller's
    preference, lower-cased, is ["openai"], and no Gemini client is held. *)
Theorem llm_backend_choice (S : sdk gclient) (name : str) (pref : option str)
    (c : llm gclient) :
  __init__ gclient unicode_lower S name pref = Ok c ->
  (backend gclient c = Some (lit "gemini") /\
   genai_imported gclient S = true /\ is_some (GEMINI_API_KEY gclient S) = true /\
   exists g, genai_Client gclient S = Ok g /\ _gclient gclient c = Some g) \/
  (backend gclient c = Some (lit "openai") /\ _gclient gclient c = None /\
   prefer gclient c = lit "openai" /\
   openai_imported gclient S = true /\ is_some (OPENAI_API_KEY gclient S) = true /\
   (genai_imported gclient S && is_some (GEMINI_API_KEY gclient S) = false \/
    exists e, genai_Client gclient S = Raise e)).
Proof.
  unfold __init__.
  destruct (genai_imported gclient S && is_some (GEMINI_API_KEY gclient S)) eqn:Hg.
  - apply andb_true_iff in Hg. destruct Hg as [Hi Hk].
    destruct (genai_Client gclient S) as [g|e] eqn:Hc.
    + intros H. injection H as <-. left. cbn. repeat split; try assumption.
      exists g. split; reflexivity.
    + cbn [andb].
      destruct (openai_imported gclient S && is_some (OPENAI_API_KEY gclient S)) eqn:Ho;
        cbn [andb]; [|discriminate].
      destruct (str_eqb _ (lit "openai")) eqn:Hp; [|discriminate].
      intros H. injection H as <-. right. cbn.
      apply andb_true_iff in Ho. destruct Ho as [Ho1 Ho2].
      repeat split; try assumption.
      * apply str_eqb_eq, Hp.
      * right. exists e. reflexivity.
  - destruct (openai_imported gclient S && is_some (OPENAI_API_KEY gclient S)) eqn:Ho;
      cbn [andb]; [|discriminate].
    destruct (str_eqb _ (lit "openai")) eqn:Hp; [|discriminate].
    intros H. injection H as <-. right. cbn.
    apply andb_true_iff in Ho. destruct Ho as [Ho1 Ho2].
    repeat split; try assumption.
    + apply str_eqb_eq, Hp.
    + left. reflexivity.
Qed.

(** X22. With the preference ["gemini"], which is how the response agent
    builds its client, an OpenAI key is never used: when Gemini is not
    usable the constructor raises [RuntimeError], whatever the OpenAI
    configuration. *)
Theorem llm_default_never_uses_openai (S : sdk gclient) (name : str) :
  (genai_imported gclient S && is_some (GEMINI_API_KEY gclient S) = false \/
   exists e, genai_Client gclient S = Raise e) ->
  __init__ gclient unicode_lower S name (Some (lit "gemini")) =
    Raise (VectorClient.RuntimeError (lit
      "No LLM backend configured. Set GEMINI_API_KEY or OPENAI_API_KEY in .env.")).
Proof.
  unfold __init__. cbv zeta.
  match goal with
  | |- context [str_eqb ?a (lit "openai")] =>
      assert (Hp : str_eqb a (lit "openai") = false) by reflexivity
  end.
  intros [Hg|[e He]].
  - rewrite Hg. cbv beta iota. rewrite Hp, andb_false_r. reflexivity.
  - rewrite He.
    destruct (genai_imported gclient S && is_some (GEMINI_API_KEY gclient S));
      cbv beta iota; rewrite Hp, andb_false_r; reflexivity.
Qed.

Variable S : sdk gclient.
Variable generate_content :
  gclient -> nat -> str -> list pyval -> list (str * pyval) -> pyresult pyval.
Variable openai_create : nat -> str -> list pyval -> float -> Z -> pyresult pyval.
Variable format_exception_only : option exn -> str.

(** X23. [chat_completion] makes at most three attempts and sleeps 1, 2 and
    4 seconds after the first, second and third failure. When it returns a
    text, fewer than three attempts failed and it did not sleep after the
    one that succeeded; when it raises, all three failed, it has slept 7
    seconds, and the exception is a [RuntimeError]. *)
Theorem chat_completion_retries (self : llm gclient) (messages : list pyval)
    (temperature : float) (max_tokens : Z) :
  exists k,
    fst (LLMClient.chat_completion gclient unicode_lower S generate_content openai_create
           format_exception_only self messages temperature max_tokens)
      = backoff k /\
    match snd (LLMClient.chat_completion gclient unicode_lower S generate_content openai_create
           format_exception_only self messages temperature max_tokens) with
    | Ok _ => k < 3
    | Raise e => k = 3 /\ exn_class e = "RuntimeError"%string
    end.
Proof.
  unfold LLMClient.chat_completion. cbn [seq attempts].
  destruct (LLMClient.attempt_call gclient unicode_lower S generate_content openai_create
              self _ 0 messages temperature max_tokens) as [[t|e0] g0].
  { exists 0. split; [reflexivity | cbn; lia]. }
  destruct (LLMClient.attempt_call gclient unicode_lower S generate_content openai_create
              self g0 1 messages temperature max_tokens) as [[t|e1] g1].
  { exists 1. split; [reflexivity | cbn; lia]. }
  destruct (LLMClient.attempt_call gclient unicode_lower S generate_content openai_create
              self g1 2 messages temperature max_tokens) as [[t|e2] g2].
  { exists 2. split; [reflexivity | cbn; lia]. }
  exists 3. split; [reflexivity | cbn; split; reflexivity].
Qed.

(** X24. On the Gemini backend, messages from which no user prompt can be
    extracted are retried like any failure: the SDK is never called, the call
    sleeps 1, 2 and 4 seconds and raises a [RuntimeError] that carries the
    extraction's exception. *)
Theorem chat_completion_needs_user_prompt (self : llm gclient) (messages : list pyval)
    (temperature : float) (max_tokens : Z) (e : exn) :
  backend gclient self = Some (lit "gemini") ->
  _extract_system_and_user_messages unicode_lower messages = Raise e ->
  LLMClient.chat_completion gclient unicode_lower S generate_content openai_create
    format_exception_only self messages temperature max_tokens =
    ([1; 2; 4]%Z,
     Raise (VectorClient.RuntimeError
              (lit "LLM call failed after retries: " ++ format_exception_only (Some e)))).
Proof.
  intros Hb He.
  assert (Hcall : forall g a,
            LLMClient.attempt_call gclient unicode_lower S generate_content openai_create
              self g a messages temperature max_tokens = (Raise e, g)).
  { intros g a. unfold LLMClient.attempt_call. rewrite Hb.
    change (str_eqb (lit "gemini") (lit "gemini")) with true. cbv iota.
    rewrite He. reflexivity. }
  unfold LLMClient.chat_completion. cbn [seq attempts]. rewrite !Hcall. reflexivity.
Qed.

(** X25. From the two messages [generate_answer] sends, the Gemini backend
    passes the prompt as the only content, and the system message as
    [system_instruction] beside the temperature and the token limit. *)
Theorem gemini_receives_prompt (self : llm gclient) (g : gclient) (attempt : nat)
    (user_question : str) (retrieved : list RetrievalAgent.result)
    (repr_value : pyval -> str) (max_tokens : Z) :
  backend gclient self = Some (lit "gemini") ->
  LLMClient.attempt_call gclient unicode_lower S generate_content openai_create
    self (Some g) attempt
    [ResponseAgent.system_msg;
     ResponseAgent.user_msg (ResponseAgent.build_prompt repr_value user_question retrieved)]
    ResponseAgent.temperature max_tokens =
  (generate_content g attempt (model gclient self)
     [PStr (ResponseAgent.build_prompt repr_value user_question retrieved)]
     [(lit "temperature", PFloat ResponseAgent.temperature);
      (lit "max_output_tokens", PInt max_tokens);
      (lit "system_instruction",
       PStr (lit "You are a precise legal assistant. Cite sources exactly."))],
   Some g).
Proof.
  intros Hb. unfold LLMClient.attempt_call. rewrite Hb.
  change (str_eqb (lit "gemini") (lit "gemini")) with true. cbv iota.
  assert (Hx : _extract_system_and_user_messages unicode_lower
                 [ResponseAgent.system_msg;
                  ResponseAgent.user_msg
                    (ResponseAgent.build_prompt repr_value user_question retrieved)]
               = Ok (PStr (lit "You are a precise legal assistant. Cite sources exactly."),
                     PStr (ResponseAgent.build_prompt repr_value user_question retrieved))).
  { reflexivity. }
  rewrite Hx. reflexivity.
Qed.

End LlmFacts.

Section LlmExamples.

Import LLMClient Sample.
Local Open Scope Z_scope.

Lemma llm_backend_choice_witness :
  (backend unit openai_llm = Some (lit "gemini") /\
   genai_imported unit openai_only_sdk = true /\
   is_some (GEMINI_API_KEY unit openai_only_sdk) = true /\
   exists g, genai_Client unit openai_only_sdk = Ok g /\ _gclient unit openai_llm = Some g) \/
  (backend unit openai_llm = Some (lit "openai") /\ _gclient unit openai_llm = None /\
   prefer unit openai_llm = lit "openai" /\
   openai_imported unit openai_only_sdk = true /\
   is_some (OPENAI_API_KEY unit openai_only_sdk) = true /\
   (genai_imported unit openai_only_sdk && is_some (GEMINI_API_KEY unit openai_only_sdk)
      = false \/
    exists e, genai_Client unit openai_only_sdk = Raise e)).
Proof.
  apply (llm_backend_choice unit (fun s => s) openai_only_sdk (lit "gpt-4o")
           (Some (lit "OpenAI")) openai_llm).
  reflexivity.
Defined.

Lemma llm_default_never_uses_openai_witness :
  __init__ unit (fun s => s) openai_only_sdk (lit "gemini-2.5-flash") (Some (lit "gemini")) =
    Raise (VectorClient.RuntimeError (lit
      "No LLM backend configured. Set GEMINI_API_KEY or OPENAI_API_KEY in .env.")).
Proof.
  apply (llm_default_never_uses_openai unit (fun s => s) openai_only_sdk
           (lit "gemini-2.5-flash")).
  left. reflexivity.
Defined.

Lemma chat_completion_needs_user_prompt_witness :
  chat_completion unit (fun s => s) gemini_sdk echo_generate echo_create exception_text
                  gemini_llm [ResponseAgent.system_msg] ResponseAgent.temperature 2048 =
    ([1; 2; 4],
     Raise (VectorClient.RuntimeError
              (lit "LLM call failed after retries: " ++
               exception_text (Some (ValueError "User prompt not found in messages list."))))).
Proof.
  apply (chat_completion_needs_user_prompt unit (fun s => s) gemini_sdk echo_generate
           echo_create exception_text gemini_llm [ResponseAgent.system_msg]
           ResponseAgent.temperature 2048
           (ValueError "User prompt not found in messages list."));
    reflexivity.
Defined.

Lemma gemini_receives_prompt_witness :
  attempt_call unit (fun s => s) gemini_sdk echo_generate echo_create gemini_llm (Some tt) 0
    [ResponseAgent.system_msg;
     ResponseAgent.user_msg (ResponseAgent.build_prompt (fun _ => []) (lit "lease?") [])]
    ResponseAgent.temperature 2048 =
  (echo_generate tt 0%nat (model unit gemini_llm)
     [PStr (ResponseAgent.build_prompt (fun _ => []) (lit "lease?") [])]
     [(lit "temperature", PFloat ResponseAgent.temperature);
      (lit "max_output_tokens", PInt 2048);
      (lit "system_instruction",
       PStr (lit "You are a precise legal assistant. Cite sources exactly."))],
   Some tt).
Proof.
  apply (gemini_receives_prompt unit (fun s => s) gemini_sdk echo_generate echo_create
           gemini_llm tt 0%nat (lit "lease?") [] (fun _ => []) 2048).
  reflexivity.
Defined.

End LlmExamples.

(** ** The response agent *)

Section ReplyFacts.

Import ResponseAgent.

Variable html_unescape : str -> str.

Lemma sub_from_in (m : str -> option nat) (r : str) (x : char) :
  forall s k, In x (sub_from m r k s) -> In x s \/ In x r.
Proof.
  induction s as [|c s IH]; intros k H; [contradiction|].
  cbn [sub_from] in H. destruct k as [|k].
  - destruct (m (c :: s)) as [[|j]|].
    + destruct H as [H|H]; [left; left; exact H|].
      destruct (IH _ H) as [H'|H']; [left; right; exact H' | right; exact H'].
    + apply in_app_or in H. destruct H as [H|H]; [right; exact H|].
      destruct (IH _ H) as [H'|H']; [left; right; exact H' | right; exact H'].
    + destruct H as [H|H]; [left; left; exact H|].
      destruct (IH _ H) as [H'|H']; [left; right; exact H' | right; exact H'].
  - destruct (IH _ H) as [H'|H']; [left; right; exact H' | right; exact H'].
Qed.

Lemma replace_removes_char (c : char) (s : str) : ~ In c (replace [c] [] s).
Proof.
  unfold replace. induction s as [|x s IH]; [intros []|].
  cbn [replace_from starts_with]. rewrite andb_true_r.
  destruct (N.eqb c x) eqn:E; cbn [length Nat.sub app].
  - exact IH.
  - intros [H|H]; [|exact (IH H)].
    subst x. rewrite N.eqb_refl in E. discriminate.
Qed.

Lemma blank_cases (c : char) : blank c = true -> c = SP \/ c = TAB.
Proof.
  unfold blank. intros H. apply orb_true_iff in H.
  destruct H as [H|H]; apply N.eqb_eq in H; [left | right]; exact H.
Qed.

(** [re.sub(r"[ \t]+", " ", s)] leaves single spaces and no tab. *)
Lemma sub_spaces_spec (s : str) : forall k,
  k = 0 \/ k = span blank s ->
  span blank (sub_from (match_at blank 1 []) [SP] k s)
    = (if k =? 0 then Nat.min (span blank s) 1 else 0) /\
  blank_pair (sub_from (match_at blank 1 []) [SP] k s) = false /\
  ~ In TAB (sub_from (match_at blank 1 []) [SP] k s).
Proof.
  induction s as [|c s IH]; intros k Hk.
  - destruct k; repeat split; try reflexivity; intros [].
  - destruct k as [|k].
    + cbn [sub_from]. rewrite match_run.
      destruct (span blank (c :: s) <? 1) eqn:Hm.
      * apply Nat.ltb_lt in Hm. rewrite span_cons in Hm.
        destruct (blank c) eqn:Ec; [lia|].
        destruct (IH 0 (or_introl eq_refl)) as (Hb & Hpair & Htab).
        cbn [Nat.eqb] in Hb |- *.
        repeat split.
        -- rewrite !span_cons, Ec. reflexivity.
        -- rewrite blank_pair_cons, Hpair, Ec. reflexivity.
        -- intros [H|H]; [|exact (Htab H)]. subst c. discriminate Ec.
      * apply Nat.ltb_ge in Hm. rewrite span_cons in Hm.
        destruct (blank c) eqn:Ec; [|lia].
        rewrite span_cons, Ec.
        destruct (IH (span blank s) (or_intror eq_refl)) as (Hb & Hpair & Htab).
        assert (Hz : span blank (sub_from (match_at blank 1 []) [SP] (span blank s) s) = 0).
        { rewrite Hb. destruct (span blank s =? 0) eqn:E0; [|reflexivity].
          apply Nat.eqb_eq in E0. rewrite E0. reflexivity. }
        cbn [app Nat.eqb].
        assert (Hsp : blank SP = true) by reflexivity.
        repeat split.
        -- rewrite span_cons, Hsp, Hz. lia.
        -- rewrite blank_pair_cons, Hpair, Hz. reflexivity.
        -- intros [H|H]; [discriminate H | exact (Htab H)].
    + destruct Hk as [Hk|Hk]; [discriminate|].
      rewrite span_cons in Hk. destruct (blank c) eqn:Ec; [|discriminate].
      injection Hk as Hk. subst k.
      cbn [sub_from Nat.eqb].
      destruct (IH (span blank s) (or_intror eq_refl)) as (Hb & Hpair & Htab).
      repeat split.
      * rewrite Hb. destruct (span blank s =? 0) eqn:E0; [|reflexivity].
        apply Nat.eqb_eq in E0. rewrite E0. reflexivity.
      * exact Hpair.
      * exact Htab.
Qed.

(** [re.sub(r"\n{3,}", "\n\n", s)] brings no two blanks together. *)
Lemma sub_newlines_blank_pair (s : str) : forall k,
  k = 0 \/ k = span is_nl s ->
  blank_pair s = false ->
  span blank (sub_newlines k s) = span blank (skipn k s) /\
  blank_pair (sub_newlines k s) = false.
Proof.
  unfold sub_newlines.
  induction s as [|c s IH]; intros k Hk Hp.
  - destruct k; split; reflexivity.
  - rewrite blank_pair_cons in Hp. both_false Hp as [Hc Hs].
    destruct k as [|k].
    + cbn [sub_from skipn]. rewrite match_run.
      destruct (span is_nl (c :: s) <? 3) eqn:Hm.
      * destruct (IH 0 (or_introl eq_refl) Hs) as (Hb & Hpair).
        cbn [skipn] in Hb. split.
        -- rewrite !span_cons, Hb. reflexivity.
        -- rewrite blank_pair_cons, Hpair, Hb, Hc. reflexivity.
      * apply Nat.ltb_ge in Hm. rewrite span_cons in Hm.
        destruct (is_nl c) eqn:Ec; [|lia].
        rewrite span_cons, Ec.
        destruct (IH (span is_nl s) (or_intror eq_refl) Hs) as (Hb & Hpair).
        cbn [app]. split.
        -- rewrite !span_cons. rewrite (nl_not_blank c Ec). reflexivity.
        -- rewrite !blank_pair_cons, Hpair. reflexivity.
    + destruct Hk as [Hk|Hk]; [discriminate|].
      rewrite span_cons in Hk. destruct (is_nl c) eqn:Ec; [|discriminate].
      injection Hk as Hk. subst k.
      cbn [sub_from skipn]. exact (IH (span is_nl s) (or_intror eq_refl) Hs).
Qed.

Lemma in_factor {A} (x : A) (pre u post : list A) : In x u -> In x (pre ++ u ++ post).
Proof. intros H. apply in_or_app. right. apply in_or_app. left. exact H. Qed.

(** X26. Whatever the LLM answered and whatever [html.unescape] does, a reply
    that [_clean_reply_text] returns is trimmed, holds no tab and no ["â"],
    no two adjacent spaces and no three newlines in a row. *)
Theorem clean_reply_text_shape (s : pyval) (t : str) :
  _clean_reply_text html_unescape s = Ok t ->
  strip t = t /\ ~ In TAB t /\ ~ In A_CIRC t /\ blank_pair t = false /\ nl_triple t = false.
Proof.
  destruct s; cbn [_clean_reply_text]; try discriminate.
  - intros H. injection H as <-. repeat split; try reflexivity; intros [].
  - intros H. injection H as <-.
    set (s0 := html_unescape _).
    set (s1 := replace [A_CIRC] [] s0).
    set (s2 := sub (match_at blank 1 []) [SP] s1).
    set (s3 := sub (match_at is_nl 3 []) [NL; NL] s2).
    destruct (sub_spaces_spec s1 0 (or_introl eq_refl)) as (_ & Hpair2 & Htab2).
    fold (sub (match_at blank 1 []) [SP] s1) in Hpair2, Htab2. fold s2 in Hpair2, Htab2.
    destruct (sub_newlines_blank_pair s2 0 (or_introl eq_refl) Hpair2) as (_ & Hpair3).
    destruct (sub_newlines_spec s2 0 (or_introl eq_refl)) as (_ & Htri3 & _).
    change (sub_newlines 0 s2) with s3 in Hpair3, Htri3.
    destruct (strip_factor s3) as (pre & post & Hf).
    split; [apply strip_idempotent|]. split; [|split; [|split]].
    + intros H. apply (in_factor _ pre _ post) in H. rewrite <- Hf in H.
      apply sub_from_in in H. destruct H as [H|H].
      * exact (Htab2 H).
      * destruct H as [H|[H|[]]]; discriminate H.
    + intros H. apply (in_factor _ pre _ post) in H. rewrite <- Hf in H.
      apply sub_from_in in H. destruct H as [H|H].
      * apply sub_from_in in H. destruct H as [H|H].
        -- exact (replace_removes_char A_CIRC s0 H).
        -- destruct H as [H|[]]; discriminate H.
      * destruct H as [H|[H|[]]]; discriminate H.
    + rewrite Hf in Hpair3. apply blank_pair_app in Hpair3. destruct Hpair3 as [_ H].
      apply blank_pair_app in H. exact (proj1 H).
    + rewrite Hf in Htri3. apply nl_triple_app in Htri3. destruct Htri3 as [_ H].
      apply nl_triple_app in H. exact (proj1 H).
Qed.

End ReplyFacts.

Section ReplyExamples.

Import ResponseAgent.

Lemma clean_reply_text_shape_witness :
  strip (lit "a b") = lit "a b" /\ ~ In TAB (lit "a b") /\ ~ In A_CIRC (lit "a b") /\
  blank_pair (lit "a b") = false /\ nl_triple (lit "a b") = false.
Proof.
  apply (clean_reply_text_shape (fun s => s) (PStr (lit "a" ++ [TAB; SP] ++ lit "b "))
           (lit "a b")).
  vm_compute. reflexivity.
Defined.

End ReplyExamples.

Section AnswerFacts.

Import RetrievalAgent ResponseAgent.
Local Open Scope Z_scope.

Variable html_unescape : str -> str.
Variable repr_value : pyval -> str.
Variable chat_completion : list pyval -> float -> Z -> pyresult pyval.
Variable format_exception_only : exn -> str.

Lemma nonempty_cons {A} (s : list A) : nonempty s = true -> s <> [].
Proof. destruct s; [discriminate | discriminate]. Qed.

Lemma summary_piece_total (r : result) :
  summarisable r = true -> exists p, summary_piece r = Ok p.
Proof.
  unfold summarisable, summary_piece.
  destruct (py_or (r_excerpt r) (PStr [])); try discriminate.
  intros _. destruct (split (lit ".") s) as [|first rest]; [eexists; reflexivity|].
  destruct (nonempty (strip first)); eexists; reflexivity.
Qed.

Lemma fallback_summary_total (q : str) (retrieved : list result) :
  forallb summarisable (slice_to retrieved 3) = true ->
  exists s, _fallback_summary q retrieved = Ok s.
Proof.
  intros H. unfold _fallback_summary.
  destruct retrieved as [|r rs]; [eexists; reflexivity|].
  destruct (traverse_total summary_piece (slice_to (r :: rs) 3)) as [pieces Hp].
  - rewrite Forall_forall. intros x Hx. apply summary_piece_total.
    rewrite forallb_forall in H. apply H, Hx.
  - rewrite Hp. cbn [bind]. destruct (nonempty _); eexists; reflexivity.
Qed.

(** What [generate_answer] returns, when it returns. *)
Lemma generate_answer_shape (q : str) (retrieved : list result) (a : pyval) :
  generate_answer html_unescape repr_value chat_completion format_exception_only q retrieved
    = Ok a ->
  exists text debug, a = answer text retrieved debug /\ text <> [].
Proof.
  unfold generate_answer.
  destruct (chat_completion _ _ _) as [resp|e]; cbn [bind try_except].
  - destruct (_clean_reply_text html_unescape resp) as [t|e]; cbn [bind try_except].
    + destruct (nonempty t) eqn:Ht; cbn [negb].
      * intros H. injection H as <-. exists t, []. split; [reflexivity|].
        apply nonempty_cons, Ht.
      * destruct (_fallback_summary q retrieved) as [s|]; cbn [bind]; [|discriminate].
        intros H. injection H as <-. eexists _, _. split; [reflexivity | discriminate].
    + destruct (_fallback_summary q retrieved) as [s|]; cbn [bind]; [|discriminate].
      intros H. injection H as <-. eexists _, _. split; [reflexivity | discriminate].
  - destruct (_fallback_summary q retrieved) as [s|]; cbn [bind]; [|discriminate].
    intros H. injection H as <-. eexists _, _. split; [reflexivity | discriminate].
Qed.

(** X27. [generate_answer] answers whatever the LLM does, as long as the
    excerpts of the first three records are strings or falsy: it returns the
    same non-empty text under ["reply"] and ["answer"], one citation per
    retrieved record and the number of records; an LLM that raises or returns
    nothing usable is replaced by the fallback summary. *)
Theorem generate_answer_always_answers (q : str) (retrieved : list result) :
  forallb summarisable (slice_to retrieved 3) = true ->
  exists text debug,
    generate_answer html_unescape repr_value chat_completion format_exception_only q retrieved
      = Ok (answer text retrieved debug) /\ text <> [].
Proof.
  intros H.
  destruct (fallback_summary_total q retrieved H) as [s Hs].
  assert (Hex : exists a, generate_answer html_unescape repr_value chat_completion
                            format_exception_only q retrieved = Ok a).
  { unfold generate_answer.
    destruct (chat_completion _ _ _) as [resp|e]; cbn [bind try_except].
    - destruct (_clean_reply_text html_unescape resp) as [t|e]; cbn [bind try_except].
      + destruct (nonempty t); cbn [negb]; [eexists; reflexivity|].
        rewrite Hs. eexists; reflexivity.
      + rewrite Hs. eexists; reflexivity.
    - rewrite Hs. eexists; reflexivity. }
  destruct Hex as [a Ha].
  destruct (generate_answer_shape q retrieved a Ha) as (text & debug & -> & Hne).
  exists text, debug. split; assumption.
Qed.

End AnswerFacts.

Section AnswerExamples.

Import RetrievalAgent ResponseAgent Sample.

Lemma generate_answer_always_answers_witness :
  exists text debug,
    generate_answer (fun s => s) (fun _ => []) silent_llm exn_str (lit "lease?")
                    [project long_hit]
      = Ok (answer text [project long_hit] debug) /\ text <> [].
Proof.
  apply (generate_answer_always_answers (fun s => s) (fun _ => []) silent_llm exn_str
           (lit "lease?") [project long_hit]).
  reflexivity.
Defined.

End AnswerExamples.

(** ** The retrieve endpoint *)

Section EndpointFacts.

Import VectorClient RetrievalAgent Api.
Local Open Scope Z_scope.

Variable int_of_float : float -> pyresult Z.
Variable int_of_str : str -> pyresult Z.


End EndpointFacts.

(** ** The chat endpoint *)

Section ChatFacts.

Import VectorClient RetrievalAgent Api.
Local Open Scope Z_scope.

Variable np_norm : list float -> float.
Variable np_divide : float -> float -> float.
Variable faiss_normalize_L2 : ndarray -> pyresult ndarray.
Variable E : env.
Variable html_unescape : str -> str.
Variable repr_value : pyval -> str.
Variable format_exception_only : exn -> str.

(** X29. A chat payload without messages, or whose latest message is blank,
    is refused with status 400 before anything else happens: no search runs
    and the cached vector client is left as it was. *)
Theorem chat_rejects_blank_message
    (import_response_agent : pyresult (str -> list result -> pyresult pyval))
    (_client : option client) (payload : ChatMessage) :
  valid_chat payload = false ->
  exists detail,
    chat np_norm np_divide faiss_normalize_L2 E import_response_agent _client payload
      = (Ok (HTTPException 400 detail), _client).
Proof.
  unfold valid_chat, chat.
  destruct (latest (messages payload)) as [m|]; [|intros _; eexists; reflexivity].
  intros H. rewrite strip_nonempty, H. eexists; reflexivity.
Qed.

Lemma retrieved_citations_total (retrieved : list result) :
  Forall (fun r => sliceable (r_excerpt r) = true) retrieved ->
  exists cs, traverse retrieved_citation retrieved = Ok cs /\ length cs = length retrieved.
Proof.
  intros H.
  destruct (traverse_total retrieved_citation retrieved) as [cs Hcs].
  - revert H. apply Forall_impl. intros r Hr. unfold retrieved_citation.
    destruct (r_excerpt r); try discriminate; eexists; reflexivity.
  - exists cs. split; [exact Hcs | exact (traverse_length _ _ _ Hcs)].
Qed.

(** X30. Every other chat payload is answered, whatever the index, the
    import of the response agent and the LLM do: the handler returns a body
    with a reply that is not empty, one citation per retrieved record and a
    debug object; it raises nothing and answers no HTTP error. The search ran
    on the trimmed latest message with [top_k = 4]. *)
Theorem chat_always_replies
    (llm : pyresult (list pyval -> float -> Z -> pyresult pyval))
    (_client : option client) (payload : ChatMessage) (m : Message) :
  latest (messages payload) = Some m ->
  nonblank (text m) = true ->
  exists reply citations debug,
    fst (chat np_norm np_divide faiss_normalize_L2 E
           (imported html_unescape repr_value format_exception_only llm) _client payload)
      = Ok (Json (PDict [(lit "reply", PStr reply); (lit "citations", PList citations);
                         (lit "debug", PDict debug)])) /\
    reply <> [] /\
    length citations =
      length (returned (RetrievalAgent.retrieve np_norm np_divide faiss_normalize_L2 E _client
                          (strip (text m)) 4)) /\
    snd (chat np_norm np_divide faiss_normalize_L2 E
           (imported html_unescape repr_value format_exception_only llm) _client payload)
      = snd (RetrievalAgent.retrieve np_norm np_divide faiss_normalize_L2 E _client
               (strip (text m)) 4).
Proof.
  intros Hm Hnb. unfold chat. rewrite Hm, strip_nonempty, Hnb. cbn [negb].
  pose proof (retrieved_excerpts np_norm np_divide faiss_normalize_L2 E _client
                (strip (text m)) 4) as Hex.
  unfold returned in *.
  destruct (RetrievalAgent.retrieve np_norm np_divide faiss_normalize_L2 E _client
              (strip (text m)) 4) as [[l retrieved] st]. cbn [fst snd] in *.
  assert (Hsl : Forall (fun r => sliceable (r_excerpt r) = true) retrieved).
  { revert Hex. apply Forall_impl. intros r [H _]. exact H. }
  destruct (retrieved_citations_total retrieved Hsl) as (cs & Hcs & Hlen).
  destruct llm as [cc|e]; cbn [imported].
  - destruct (ResponseAgent.generate_answer html_unescape repr_value cc format_exception_only
                (strip (text m)) retrieved) as [a|e] eqn:Ha; cbn [bind try_except].
    + destruct (generate_answer_shape _ _ _ _ _ _ _ Ha) as (t & dbg & -> & Hne).
      destruct t as [|c t]; [contradiction|].
      exists (c :: t).
      destruct retrieved as [|r rs].
      * exists [], ((lit "retrieved_count", PInt (len (@nil result))) :: dbg).
        repeat split; try reflexivity. discriminate.
      * exists (map ResponseAgent.citation (r :: rs)),
               ((lit "retrieved_count", PInt (len (r :: rs))) :: dbg).
        repeat split; try reflexivity; [discriminate | apply length_map].
    + rewrite Hcs. cbn [bind]. eexists _, cs, _. repeat split; [discriminate | exact Hlen].
  - rewrite Hcs. cbn [bind]. eexists _, cs, _. repeat split; [discriminate | exact Hlen].
Qed.

End ChatFacts.

Section ChatExamples.

Import VectorClient RetrievalAgent Api Sample.
Local Open Scope Z_scope.

Lemma chat_rejects_blank_message_witness :
  exists detail,
    chat sum_norm divide no_normalize missing_index_env (Raise ImportError) None blank_chat
      = (Ok (HTTPException 400 detail), None).
Proof.
  apply (chat_rejects_blank_message sum_norm divide no_normalize missing_index_env
           (Raise ImportError) None blank_chat).
  reflexivity.
Defined.

Lemma chat_always_replies_witness :
  exists reply citations debug,
    fst (chat sum_norm divide no_normalize missing_index_env
           (imported (fun s => s) (fun _ => []) exn_str (Ok silent_llm))
           (Some long_client) lease_chat)
      = Ok (Json (PDict [(lit "reply", PStr reply); (lit "citations", PList citations);
                         (lit "debug", PDict debug)])) /\
    reply <> [] /\
    length citations =
      length (returned (RetrievalAgent.retrieve sum_norm divide no_normalize missing_index_env
                          (Some long_client) (strip (text lease_message)) 4)) /\
    snd (chat sum_norm divide no_normalize missing_index_env
           (imported (fun s => s) (fun _ => []) exn_str (Ok silent_llm))
           (Some long_client) lease_chat)
      = snd (RetrievalAgent.retrieve sum_norm divide no_normalize missing_index_env
               (Some long_client) (strip (text lease_message)) 4).
Proof.
  apply (chat_always_replies sum_norm divide no_normalize missing_index_env
           (fun s => s) (fun _ => []) exn_str (Ok silent_llm) (Some long_client)
           lease_chat lease_message);
    reflexivity.
Defined.

End ChatExamples.
